(** * KatsEnsemble: a shallow embedding of [models/ensemble/kats_ensemble.py]

  The development follows the Python module function by function.

  Conventions of the embedding.
  - A Python [dict] with string keys is an association list in insertion
    order ([PyDict]); assignment [d[k] = v] overwrites in place or appends.
  - A floating-point number is an exact rational ([Q]): the arithmetic of
    the tables and of [Weights] is that of the reals, without rounding and
    without infinities.  A table cell that may hold not-a-number is a
    [cell].  [Binary64] holds the derivation of the weights on IEEE 754
    doubles, as the interpreter rounds it.
  - A call that raises returns the exception as a value. *)

From Stdlib Require Import List String Ascii Bool ZArith QArith Qround Lia Lqa.
From Stdlib Require Import Sorted Permutation.
From Stdlib Require PrimFloat FloatOps SpecFloat.
Import ListNotations.

Set Implicit Arguments.

(** ** Exceptions

    The exceptions the module raises itself ([ValueError]) and the ones the
    interpreter, the table library and the process manager raise on its
    behalf.  A [RemoteError] carries the last line of the traceback of the
    manager's process. *)

Inductive exn : Type :=
| ValueError (msg : string)
| KeyError (key : string)
| UnboundLocalError (name : string)
| AttributeError (name : string)
| ZeroDivisionError
| RemoteError (traceback : string).

Inductive result (A : Type) : Type :=
| Ok (a : A)
| Raise (e : exn).

Arguments Ok {A} a.
Arguments Raise {A} e.

Definition bind {A B : Type} (r : result A) (k : A -> result B) : result B :=
  match r with
  | Ok a => k a
  | Raise e => Raise e
  end.

Notation "x <- r ;; k" := (bind r (fun x => k))
  (at level 61, r at next level, right associativity).

(** ** Python strings (ASCII) *)

Module PyStr.
Local Open Scope string_scope.

Definition lower_ascii (c : ascii) : ascii :=
  let n := nat_of_ascii c in
  if Nat.leb 65 n && Nat.leb n 90 then ascii_of_nat (n + 32) else c.

(** [s.lower()] *)
Fixpoint lower (s : string) : string :=
  match s with
  | EmptyString => EmptyString
  | String c s' => String (lower_ascii c) (lower s')
  end.

(** [s.split("_")[0]]: the part before the first underscore *)
Fixpoint split_first (s : string) : string :=
  match s with
  | EmptyString => EmptyString
  | String c s' =>
      if Ascii.eqb c "_" then EmptyString else String c (split_first s')
  end.

(** [sub in s] *)
Fixpoint contains (sub s : string) : bool :=
  match s with
  | EmptyString => String.prefix sub EmptyString
  | String c s' => String.prefix sub s || contains sub s'
  end.

Fixpoint has_underscore (s : string) : bool :=
  match s with
  | EmptyString => false
  | String c s' => Ascii.eqb c "_" || has_underscore s'
  end.

Lemma lower_ascii_underscore (c : ascii) :
  Ascii.eqb (lower_ascii c) "_" = Ascii.eqb c "_".
Proof. destruct c as [[] [] [] [] [] [] [] []]; reflexivity. Qed.

Lemma has_underscore_lower (s : string) :
  has_underscore (lower s) = has_underscore s.
Proof.
  induction s as [|c s IH]; simpl; [reflexivity|].
  now rewrite lower_ascii_underscore, IH.
Qed.

Lemma split_first_whole (s : string) :
  has_underscore s = false -> split_first s = s.
Proof.
  induction s as [|c s IH]; simpl; [reflexivity|].
  intros H. apply orb_false_iff in H. destruct H as [-> H].
  now rewrite IH.
Qed.

Lemma split_first_suffixed (s t : string) :
  has_underscore s = false -> split_first (s ++ String "_" t) = s.
Proof.
  induction s as [|c s IH]; simpl; [reflexivity|].
  intros H. apply orb_false_iff in H. destruct H as [-> H].
  now rewrite IH.
Qed.

Lemma append_nonempty_neq (s : string) (c : ascii) (t : string) :
  s <> s ++ String c t.
Proof.
  induction s as [|a s IH]; simpl; [discriminate|].
  intros [= H]. now apply IH.
Qed.

End PyStr.

(** ** Python dictionaries with string keys *)

Module PyDict.

Section Dict.
Variable V : Type.

Definition dict := list (string * V).

Definition keys (d : dict) : list string := map fst d.
Definition values (d : dict) : list V := map snd d.

Fixpoint get (d : dict) (k : string) : option V :=
  match d with
  | [] => None
  | (k', v) :: d' => if String.eqb k' k then Some v else get d' k
  end.

Definition mem (d : dict) (k : string) : bool :=
  match get d k with Some _ => true | None => false end.

(** [d[k] = v] *)
Fixpoint set (d : dict) (k : string) (v : V) : dict :=
  match d with
  | [] => [(k, v)]
  | (k', v') :: d' =>
      if String.eqb k' k then (k', v) :: d' else (k', v') :: set d' k v
  end.

(** [d.update(e)] *)
Definition update (d e : dict) : dict :=
  fold_left (fun acc kv => set acc (fst kv) (snd kv)) e d.

(** [del d[k]], when present *)
Fixpoint remove (d : dict) (k : string) : dict :=
  match d with
  | [] => []
  | (k', v) :: d' =>
      if String.eqb k' k then d' else (k', v) :: remove d' k
  end.

(** No key occurs twice: the invariant of every Python dict. *)
Fixpoint wfb (d : dict) : bool :=
  match d with
  | [] => true
  | (k, _) :: d' => negb (mem d' k) && wfb d'
  end.

Definition wf (d : dict) : Prop := NoDup (keys d).
End Dict.

Section Comprehension.
Variables V W : Type.

(** [{k: f(k, v) for k, v in d.items()}] *)
Definition comp (f : string -> V -> W) (d : dict V) : dict W :=
  fold_left (fun acc kv => set acc (fst kv) (f (fst kv) (snd kv))) d [].

(** The same comprehension when evaluating [f] may raise: the first
    exception, in item order, ends it. *)
Definition comp_res (f : string -> V -> result W) (d : dict V)
  : result (dict W) :=
  fold_left
    (fun acc kv =>
       a <- acc ;; w <- f (fst kv) (snd kv) ;; Ok (set a (fst kv) w))
    d (Ok []).

(** [{k: v for k, v in d.items() if p(k)}] *)
Definition filter_keys (p : string -> bool) (d : dict V) : dict V :=
  fold_left
    (fun acc kv => if p (fst kv) then set acc (fst kv) (snd kv) else acc)
    d [].
End Comprehension.

Section Facts.
Variable V : Type.

Lemma get_none_notin (d : dict V) k : get d k = None <-> ~ In k (keys d).
Proof.
  induction d as [|[k' v] d IH]; simpl.
  - tauto.
  - destruct (String.eqb_spec k' k) as [->|Hne].
    + split; [discriminate | intros H; exfalso; apply H; now left].
    + rewrite IH. split; [intros H [E|I]; [congruence | tauto] | tauto].
Qed.

Lemma mem_false_notin (d : dict V) k : mem d k = false <-> ~ In k (keys d).
Proof.
  unfold mem. rewrite <- get_none_notin.
  destruct (get d k); split; congruence.
Qed.

Lemma wfb_wf (d : dict V) : wfb d = true <-> wf d.
Proof.
  unfold wf. induction d as [|[k v] d IH]; simpl.
  - split; [constructor | reflexivity].
  - rewrite andb_true_iff, negb_true_iff, mem_false_notin, IH.
    split.
    + intros [H1 H2]. now constructor.
    + intros H. inversion H; subst. now split.
Qed.

Lemma set_fresh (d : dict V) k v :
  ~ In k (keys d) -> set d k v = d ++ [(k, v)].
Proof.
  induction d as [|[k' v'] d IH]; simpl; intros H.
  - reflexivity.
  - destruct (String.eqb_spec k' k) as [->|Hne].
    + exfalso. apply H. now left.
    + rewrite IH; [reflexivity | tauto].
Qed.

Lemma keys_set (d : dict V) k v :
  keys (set d k v) = if mem d k then keys d else keys d ++ [k].
Proof.
  unfold mem. induction d as [|[k' v'] d IH]; simpl.
  - reflexivity.
  - destruct (String.eqb_spec k' k) as [->|Hne]; simpl.
    + reflexivity.
    + rewrite IH. now destruct (get d k).
Qed.

Lemma set_wf (d : dict V) k v : wf d -> wf (set d k v).
Proof.
  unfold wf. intros H. rewrite keys_set.
  destruct (mem d k) eqn:E; [assumption|].
  apply mem_false_notin in E.
  apply NoDup_app; [assumption | repeat constructor; simpl; tauto |].
  intros x Hx [<-|[]]. contradiction.
Qed.


Lemma get_set (d : dict V) k v k' :
  get (set d k v) k' = if String.eqb k k' then Some v else get d k'.
Proof.
  induction d as [|[k0 v0] d IH]; simpl.
  - reflexivity.
  - destruct (String.eqb_spec k0 k) as [->|Hne]; simpl.
    + destruct (String.eqb_spec k k'); reflexivity.
    + rewrite IH. destruct (String.eqb_spec k0 k') as [->|Hne'];
        [|reflexivity].
      destruct (String.eqb_spec k k'); [congruence | reflexivity].
Qed.

Lemma in_keys_set (d : dict V) k v k' :
  In k' (keys (set d k v)) <-> k' = k \/ In k' (keys d).
Proof.
  rewrite keys_set. destruct (mem d k) eqn:E.
  - split; [tauto|]. intros [->|H]; [|exact H].
    unfold mem in E. destruct (get d k) eqn:G; [|discriminate].
    destruct (in_dec string_dec k (keys d)) as [I|N]; [exact I|].
    apply get_none_notin in N. congruence.
  - rewrite in_app_iff. simpl. split.
    + intros [H|[<-|[]]]; tauto.
    + intros [->|H]; tauto.
Qed.

Lemma in_get (d : dict V) k v : wf d -> In (k, v) d -> get d k = Some v.
Proof.
  unfold wf. induction d as [|[k' v'] d IH]; simpl; [tauto|].
  intros Hnd [[= -> ->]|I].
  - now rewrite String.eqb_refl.
  - inversion Hnd as [|? ? Hni Hnd']; subst.
    destruct (String.eqb_spec k' k) as [->|Hne].
    + exfalso. apply Hni. change k with (fst (k, v)). now apply in_map.
    + now apply IH.
Qed.

Lemma get_in (d : dict V) k v : get d k = Some v -> In (k, v) d.
Proof.
  induction d as [|[k' v'] d IH]; simpl; [discriminate|].
  destruct (String.eqb_spec k' k) as [->|Hne].
  - intros [= ->]. now left.
  - intros H. right. now apply IH.
Qed.
Lemma filter_keys_acc (p : string -> bool) (d acc : dict V) :
  NoDup (keys acc ++ keys d) ->
  fold_left
    (fun acc kv => if p (fst kv) then set acc (fst kv) (snd kv) else acc)
    d acc
  = acc ++ filter (fun kv => p (fst kv)) d.
Proof.
  revert acc. induction d as [|[k v] d IH]; simpl; intros acc H.
  - now rewrite app_nil_r.
  - destruct (p k).
    + rewrite set_fresh.
      * rewrite IH; [now rewrite <- app_assoc|].
        unfold keys in *. rewrite map_app, <- app_assoc. exact H.
      * apply NoDup_remove_2 in H. intros I. apply H.
        apply in_or_app. now left.
    + apply IH. now apply NoDup_remove_1 in H.
Qed.

(** On a dictionary the filtering comprehension keeps the items whose key
    passes the test, in order. *)
Lemma filter_keys_filter (p : string -> bool) (d : dict V) :
  wf d -> filter_keys p d = filter (fun kv => p (fst kv)) d.
Proof. intros H. unfold filter_keys. now rewrite filter_keys_acc. Qed.

Lemma get_filter (p : string -> bool) (d : dict V) k :
  get (filter (fun kv => p (fst kv)) d) k
  = if p k then get d k else None.
Proof.
  induction d as [|[k' v] d IH]; simpl.
  - now destruct (p k).
  - destruct (p k') eqn:E; simpl.
    + destruct (String.eqb_spec k' k) as [->|Hne]; [now rewrite E|exact IH].
    + rewrite IH. destruct (String.eqb_spec k' k) as [->|Hne];
        [now rewrite E | reflexivity].
Qed.

Lemma filter_wf (p : string -> bool) (d : dict V) :
  wf d -> wf (filter (fun kv => p (fst kv)) d).
Proof.
  unfold wf. induction d as [|[k v] d IH]; simpl; intros H; [constructor|].
  inversion H as [|? ? Hni Hnd]; subst.
  destruct (p k); simpl; [|now apply IH].
  constructor; [|now apply IH].
  intros I. apply Hni. unfold keys in *. apply in_map_iff in I.
  destruct I as ([k' v'] & E & I). simpl in E. subst k'.
  apply filter_In in I. destruct I as [I _].
  change k with (fst (k, v')). now apply in_map.
Qed.

Lemma get_update (d e : dict V) k :
  wf e ->
  get (update d e) k
  = match get e k with Some v => Some v | None => get d k end.
Proof.
  unfold update, wf. revert d. induction e as [|[k' v] e IH]; simpl;
    intros d H; [reflexivity|].
  inversion H as [|? ? Hni Hnd]; subst.
  rewrite IH by exact Hnd.
  destruct (String.eqb_spec k' k) as [->|Hne].
  - apply get_none_notin in Hni. rewrite Hni, get_set.
    now rewrite String.eqb_refl.
  - rewrite get_set. destruct (String.eqb_spec k' k); [congruence|].
    reflexivity.
Qed.

End Facts.

Section ComprehensionFacts.
Variables V W : Type.

Lemma comp_acc (f : string -> V -> W) (d : dict V) (acc : dict W) :
  NoDup (keys acc ++ keys d) ->
  fold_left (fun a kv => set a (fst kv) (f (fst kv) (snd kv))) d acc
  = acc ++ map (fun kv => (fst kv, f (fst kv) (snd kv))) d.
Proof.
  revert acc. induction d as [|[k v] d IH]; simpl; intros acc H.
  - now rewrite app_nil_r.
  - rewrite set_fresh.
    + rewrite IH.
      * now rewrite <- app_assoc.
      * unfold keys in *. rewrite map_app, <- app_assoc. exact H.
    + apply NoDup_remove_2 in H. intros I. apply H.
      apply in_or_app. now left.
Qed.

(** On a dictionary the comprehension maps every item in place. *)
Lemma comp_map (f : string -> V -> W) (d : dict V) :
  wf d -> comp f d = map (fun kv => (fst kv, f (fst kv) (snd kv))) d.
Proof. intros H. unfold comp. now rewrite comp_acc. Qed.

Lemma get_map (f : string -> V -> W) (d : dict V) k :
  get (map (fun kv => (fst kv, f (fst kv) (snd kv))) d) k
  = option_map (f k) (get d k).
Proof.
  induction d as [|[k' v] d IH]; simpl.
  - reflexivity.
  - destruct (String.eqb_spec k' k) as [->|Hne]; [reflexivity | exact IH].
Qed.

Lemma comp_res_raise (f : string -> V -> result W) (d : dict V) e :
  fold_left
    (fun acc kv =>
       a <- acc ;; w <- f (fst kv) (snd kv) ;; Ok (set a (fst kv) w))
    d (Raise e) = Raise e.
Proof. induction d as [|kv d IH]; simpl; [reflexivity | exact IH]. Qed.

Lemma comp_res_acc (f : string -> V -> result W) g (d : dict V) acc :
  NoDup (keys acc ++ keys d) ->
  (forall k v, In (k, v) d -> f k v = Ok (g k v)) ->
  fold_left
    (fun acc kv =>
       a <- acc ;; w <- f (fst kv) (snd kv) ;; Ok (set a (fst kv) w))
    d (Ok acc)
  = Ok (acc ++ map (fun kv => (fst kv, g (fst kv) (snd kv))) d).
Proof.
  revert acc. induction d as [|[k v] d IH]; simpl; intros acc H Hf.
  - now rewrite app_nil_r.
  - rewrite (Hf k v) by now left. simpl. rewrite set_fresh.
    + rewrite IH.
      * now rewrite <- app_assoc.
      * unfold keys in *. rewrite map_app, <- app_assoc. exact H.
      * intros k' v' I. apply Hf. now right.
    + apply NoDup_remove_2 in H. intros I. apply H.
      apply in_or_app. now left.
Qed.

(** When no item raises, the fallible comprehension is the plain one. *)
Lemma comp_res_ok (f : string -> V -> result W) g (d : dict V) :
  wf d ->
  (forall k v, In (k, v) d -> f k v = Ok (g k v)) ->
  comp_res f d = Ok (map (fun kv => (fst kv, g (fst kv) (snd kv))) d).
Proof. intros H Hf. unfold comp_res. now rewrite (comp_res_acc f g). Qed.

(** A comprehension that returns evaluated [f] on every item. *)
Lemma comp_res_inv (f : string -> V -> result W) (d : dict V) acc d' :
  fold_left
    (fun acc kv =>
       a <- acc ;; w <- f (fst kv) (snd kv) ;; Ok (set a (fst kv) w))
    d acc = Ok d' ->
  forall k v, In (k, v) d -> exists w, f k v = Ok w.
Proof.
  revert acc. induction d as [|[k0 v0] d IH]; simpl; intros acc H k v I.
  - contradiction.
  - destruct acc as [a|e]; simpl in H.
    + destruct (f k0 v0) as [w0|e] eqn:E; simpl in H.
      * destruct I as [[= <- <-]|I]; [now exists w0 | eapply IH; eauto].
      * now rewrite comp_res_raise in H.
    + now rewrite comp_res_raise in H.
Qed.

(** A comprehension of which no item raises returns. *)
Lemma comp_res_defined (f : string -> V -> result W) (d : dict V) acc :
  (forall k v, In (k, v) d -> exists w, f k v = Ok w) ->
  exists d',
    fold_left
      (fun acc kv =>
         a <- acc ;; w <- f (fst kv) (snd kv) ;; Ok (set a (fst kv) w))
      d (Ok acc) = Ok d'.
Proof.
  revert acc. induction d as [|[k v] d IH]; simpl; intros acc H.
  - now exists acc.
  - destruct (H k v (or_introl eq_refl)) as [w ->]. simpl.
    apply IH. intros k' v' I. apply H. now right.
Qed.

Lemma comp_res_returns (f : string -> V -> result W) (d : dict V) :
  (forall k v, In (k, v) d -> exists w, f k v = Ok w) ->
  exists d', comp_res f d = Ok d'.
Proof. intros H. unfold comp_res. now apply comp_res_defined. Qed.

Lemma comp_res_acc_items (f : string -> V -> result W) (d : dict V) acc d' :
  NoDup (keys acc ++ keys d) ->
  fold_left
    (fun acc kv =>
       a <- acc ;; w <- f (fst kv) (snd kv) ;; Ok (set a (fst kv) w))
    d (Ok acc) = Ok d' ->
  exists ws,
    d' = acc ++ ws
    /\ Forall2 (fun kv kw => fst kv = fst kw
                             /\ f (fst kv) (snd kv) = Ok (snd kw)) d ws.
Proof.
  revert acc. induction d as [|[k v] d IH]; simpl; intros acc Hnd H.
  - injection H as <-. exists []. split; [now rewrite app_nil_r|constructor].
  - destruct (f k v) as [w|e] eqn:E; simpl in H.
    + rewrite set_fresh in H.
      * apply IH in H.
        -- destruct H as (ws & -> & HF). exists ((k, w) :: ws).
           split; [now rewrite <- app_assoc|].
           constructor; [now split|exact HF].
        -- unfold keys in *. rewrite map_app, <- app_assoc. exact Hnd.
      * apply NoDup_remove_2 in Hnd. intros I. apply Hnd.
        apply in_or_app. now left.
    + now rewrite comp_res_raise in H.
Qed.

(** What a comprehension over a dictionary returns: the same keys, and
    under each key the value of [f] on the item. *)
Lemma comp_res_items (f : string -> V -> result W) (d : dict V) d' :
  wf d -> comp_res f d = Ok d' ->
  keys d' = keys d
  /\ forall k w, get d' k = Some w ->
       exists v, get d k = Some v /\ f k v = Ok w.
Proof.
  intros Hwf H. unfold comp_res in H.
  apply comp_res_acc_items in H; [|exact Hwf].
  destruct H as (ws & -> & HF). simpl. clear Hwf.
  induction HF as [|[k v] [k' w] d ws [Hk Hf] HF IH]; simpl.
  - split; [reflexivity | discriminate].
  - simpl in Hk, Hf. subst k'. destruct IH as [IHk IHg]. split.
    + now rewrite IHk.
    + intros k0 w0. destruct (String.eqb_spec k k0) as [->|Hne].
      * intros [= <-]. now exists v.
      * apply IHg.
Qed.

Lemma comp_res_get (f : string -> V -> result W) (d : dict V) d' k v :
  wf d -> comp_res f d = Ok d' -> get d k = Some v ->
  exists w, get d' k = Some w /\ f k v = Ok w.
Proof.
  intros Hwf H G. destruct (comp_res_items _ Hwf H) as [Hk Hi].
  destruct (get d' k) as [w|] eqn:E.
  - destruct (Hi k w E) as (v' & G' & Hf). exists w.
    split; [reflexivity|]. congruence.
  - apply get_none_notin in E. rewrite Hk in E. exfalso. apply E.
    apply get_in in G. change k with (fst (k, v)). now apply in_map.
Qed.

End ComprehensionFacts.

End PyDict.

(** ** From backtest errors to weights

    Lines 657-666 ([_backtester_all]) and 486-498 ([forecast]) hold the same
    two comprehensions. *)

Module Weights.
Import PyDict.
Local Open Scope Q_scope.

(** [sys.float_info.epsilon], that is 2^-52. *)
Definition epsilon : Q := 1 # 4503599627370496.

(** The builtin [sum]: left to right, starting from 0. *)
Definition py_sum (l : list Q) : Q := fold_left Qplus l 0.

(** [a / b] on Python floats: a zero divisor raises. *)
Definition py_div (a b : Q) : result Q :=
  if Qeq_bool b 0 then Raise ZeroDivisionError else Ok (a / b).

(** [_backtester_all], from [self.errors] on:
    [original_weights = {model: 1 / (err + eps) for model, err in errors.items()}]
    [weights = {model: err / sum(original_weights.values())
                for model, err in original_weights.items()}]
    In the second comprehension the loop variable [err] ranges over the
    reciprocals. *)
Definition backtester_weights (errors : dict Q) : result (dict Q) :=
  original_weights <-
    comp_res (fun model err => py_div 1 (err + epsilon)) errors ;;
  comp_res
    (fun model err => py_div err (py_sum (values original_weights)))
    original_weights.

(** The end of [forecast]: weights only for ["weightedavg"], else [None]. *)
Definition forecast_weights (aggregation : string) (err : dict Q)
  : result (option (dict Q)) :=
  if String.eqb aggregation "weightedavg" then
    original_weights <-
      comp_res (fun model err => py_div 1 (err + epsilon)) err ;;
    weights <-
      comp_res
        (fun model err => py_div err (py_sum (values original_weights)))
        original_weights ;;
    Ok (Some weights)
  else Ok None.

(** The formula of the specification:
    [weight[m] = (1/(error[m]+eps)) / sum_k (1/(error[k]+eps))]. *)
Definition reciprocal (e : Q) : Q := 1 / (e + epsilon).

Fixpoint sum_reciprocals (errors : dict Q) : Q :=
  match errors with
  | [] => 0
  | (_, e) :: rest => reciprocal e + sum_reciprocals rest
  end.

Definition spec_weight (errors : dict Q) (e : Q) : Q :=
  reciprocal e / sum_reciprocals errors.

Definition nonneg_errors (errors : dict Q) : Prop :=
  forall k e, In (k, e) errors -> 0 <= e.

(** *** Arithmetic of [py_sum] *)

Lemma fold_plus_acc (l : list Q) (a : Q) :
  fold_left Qplus l a == a + fold_left Qplus l 0.
Proof.
  revert a. induction l as [|x l IH]; simpl; intros a.
  - ring.
  - rewrite (IH (a + x)), (IH (0 + x)). ring.
Qed.

Lemma py_sum_cons (x : Q) (l : list Q) : py_sum (x :: l) == x + py_sum l.
Proof. unfold py_sum. simpl. rewrite fold_plus_acc. ring. Qed.

Lemma py_sum_reciprocals (errors : dict Q) :
  py_sum (map (fun kv => 1 / (snd kv + epsilon)) errors)
  == sum_reciprocals errors.
Proof.
  induction errors as [|[k e] d IH].
  - reflexivity.
  - simpl map. rewrite py_sum_cons, IH. reflexivity.
Qed.

Lemma reciprocal_pos (e : Q) : 0 <= e -> 0 < reciprocal e.
Proof.
  intros H. unfold reciprocal, Qdiv. rewrite Qmult_1_l.
  apply Qinv_lt_0_compat.
  assert (0 < epsilon) by reflexivity. lra.
Qed.

Lemma sum_reciprocals_nonneg (errors : dict Q) :
  nonneg_errors errors -> 0 <= sum_reciprocals errors.
Proof.
  induction errors as [|[k e] d IH]; simpl; intros H.
  - lra.
  - assert (0 < reciprocal e) by (apply reciprocal_pos, (H k); now left).
    assert (0 <= sum_reciprocals d).
    { apply IH. intros k' e' I. apply (H k'). now right. }
    lra.
Qed.

Lemma sum_reciprocals_pos (errors : dict Q) :
  errors <> [] -> nonneg_errors errors -> 0 < sum_reciprocals errors.
Proof.
  destruct errors as [|[k e] d]; [congruence|]. intros _ H. simpl.
  assert (0 < reciprocal e) by (apply reciprocal_pos, (H k); now left).
  assert (0 <= sum_reciprocals d).
  { apply sum_reciprocals_nonneg. intros k' e' I. apply (H k'). now right. }
  lra.
Qed.

Lemma py_div_ok (a b : Q) : ~ b == 0 -> py_div a b = Ok (a / b).
Proof.
  intros H. unfold py_div. destruct (Qeq_bool b 0) eqn:E; [|reflexivity].
  apply Qeq_bool_eq in E. contradiction.
Qed.

Lemma py_div_inv (a b w : Q) : py_div a b = Ok w -> ~ b == 0 /\ w = a / b.
Proof.
  unfold py_div. destruct (Qeq_bool b 0) eqn:E; [discriminate|].
  intros [= <-]. split; [|reflexivity].
  intros H. apply Qeq_eq_bool in H. congruence.
Qed.

(** *** What the two comprehensions compute *)

Definition recips (errors : dict Q) : dict Q :=
  map (fun kv => (fst kv, 1 / (snd kv + epsilon))) errors.

Definition scaled (errors : dict Q) : dict Q :=
  map (fun kv =>
         (fst kv, (1 / (snd kv + epsilon)) / py_sum (values (recips errors))))
      errors.

Lemma keys_recips (errors : dict Q) : keys (recips errors) = keys errors.
Proof. unfold keys, recips. rewrite map_map. reflexivity. Qed.

Lemma values_recips (errors : dict Q) :
  values (recips errors) = map (fun kv => 1 / (snd kv + epsilon)) errors.
Proof. unfold values, recips. rewrite map_map. reflexivity. Qed.

Lemma sum_recips (errors : dict Q) :
  py_sum (values (recips errors)) == sum_reciprocals errors.
Proof. rewrite values_recips. apply py_sum_reciprocals. Qed.

(** Whenever the derivation returns, it returns [scaled errors], and no
    divisor was zero. *)
Lemma weights_char (errors ws : dict Q) :
  wf errors ->
  backtester_weights errors = Ok ws ->
  ws = scaled errors
  /\ (errors <> [] -> ~ py_sum (values (recips errors)) == 0).
Proof.
  intros Hwf H. unfold backtester_weights in H.
  destruct (comp_res (fun _ err => py_div 1 (err + epsilon)) errors)
    as [ow|e] eqn:E1; simpl in H; [|discriminate].
  assert (Hnz : forall k v, In (k, v) errors -> ~ v + epsilon == 0).
  { intros k v I. destruct (comp_res_inv _ _ _ E1 k v I) as [w Hw].
    now apply py_div_inv in Hw. }
  rewrite (comp_res_ok _ (fun _ err => 1 / (err + epsilon))) in E1.
  2: exact Hwf.
  2: { intros k v I. apply py_div_ok. eauto. }
  injection E1 as <-. fold (recips errors) in H.
  assert (Hs : errors <> [] -> ~ py_sum (values (recips errors)) == 0).
  { intros Hne. destruct errors as [|[k v] d]; [congruence|].
    destruct (comp_res_inv _ _ _ H k (1 / (v + epsilon))) as [w Hw].
    - now left.
    - now apply py_div_inv in Hw. }
  split; [|exact Hs].
  destruct errors as [|kv d] eqn:Ed; [now injection H as <-|].
  rewrite <- Ed in *.
  rewrite (comp_res_ok _ (fun _ r => r / py_sum (values (recips errors))))
    in H.
  - injection H as <-. unfold scaled, recips. rewrite map_map. reflexivity.
  - unfold wf. now rewrite keys_recips.
  - intros k v I. apply py_div_ok. apply Hs. congruence.
Qed.

(** On non-negative errors every divisor is positive, so the derivation
    returns. *)
Lemma weights_defined (errors : dict Q) :
  wf errors -> nonneg_errors errors ->
  backtester_weights errors = Ok (scaled errors).
Proof.
  intros Hwf Hp. unfold backtester_weights.
  rewrite (comp_res_ok _ (fun _ err => 1 / (err + epsilon))).
  2: exact Hwf.
  2: { intros k v I. apply py_div_ok. specialize (Hp k v I).
       assert (0 < epsilon) by reflexivity. lra. }
  simpl. fold (recips errors).
  destruct errors as [|kv d] eqn:Ed; [reflexivity|]. rewrite <- Ed in *.
  rewrite (comp_res_ok _ (fun _ r => r / py_sum (values (recips errors)))).
  - unfold scaled, recips. rewrite map_map. reflexivity.
  - unfold wf. now rewrite keys_recips.
  - intros k v I. apply py_div_ok. rewrite sum_recips.
    assert (0 < sum_reciprocals errors).
    { apply sum_reciprocals_pos; [congruence | exact Hp]. }
    lra.
Qed.

Lemma forecast_weights_same (errors : dict Q) :
  forecast_weights "weightedavg" errors
  = (ws <- backtester_weights errors ;; Ok (Some ws)).
Proof.
  unfold forecast_weights, backtester_weights. simpl String.eqb. cbv iota.
  now destruct (comp_res (fun _ err => py_div 1 (err + epsilon)) errors).
Qed.

Lemma get_scaled (errors : dict Q) (m : string) :
  get (scaled errors) m
  = option_map
      (fun e => (1 / (e + epsilon)) / py_sum (values (recips errors)))
      (get errors m).
Proof.
  unfold scaled.
  exact (get_map (fun _ e =>
           (1 / (e + epsilon)) / py_sum (values (recips errors))) errors m).
Qed.



Lemma div_pos (r s : Q) : 0 < r -> 0 < s -> 0 < r / s.
Proof.
  intros Hr Hs. unfold Qdiv. apply Qmult_lt_0_compat; [exact Hr|].
  now apply Qinv_lt_0_compat.
Qed.

Lemma div_lt (r r' s : Q) : 0 < s -> r < r' -> r / s < r' / s.
Proof.
  intros Hs Hr. unfold Qdiv. apply Qmult_lt_compat_r; [|exact Hr].
  now apply Qinv_lt_0_compat.
Qed.

(** C1. For every non-empty mapping from model name to backtest error, the
    weight the backtester derives for a model [m] is
    [(1/(error[m]+eps)) / sum over all models k of (1/(error[k]+eps))], with
    [eps] the machine epsilon, and the forecast path computes the same
    mapping.  The derivation returns on every mapping of non-negative
    errors. *)
Theorem weight_formula (errors : dict Q) :
  wf errors -> errors <> [] ->
  (forall ws, backtester_weights errors = Ok ws ->
     forecast_weights "weightedavg" errors = Ok (Some ws)
     /\ forall m e, get errors m = Some e ->
          exists w, get ws m = Some w /\ w == spec_weight errors e)
  /\ (nonneg_errors errors -> exists ws, backtester_weights errors = Ok ws).
Proof.
  intros Hwf Hne. split.
  - intros ws H. split.
    + rewrite forecast_weights_same, H. reflexivity.
    + destruct (weights_char Hwf H) as [-> Hs]. intros m e Hm.
      rewrite get_scaled, Hm. simpl. eexists. split; [reflexivity|].
      unfold spec_weight, reciprocal. now rewrite sum_recips.
  - intros Hp. exists (scaled errors). now apply weights_defined.
Qed.

Lemma weight_formula_witness :
  let errors := [("arima"%string, 1 # 10); ("prophet"%string, 3 # 10)] in
  (forall ws, backtester_weights errors = Ok ws ->
     forecast_weights "weightedavg" errors = Ok (Some ws)
     /\ forall m e, get errors m = Some e ->
          exists w, get ws m = Some w /\ w == spec_weight errors e)
  /\ (nonneg_errors errors -> exists ws, backtester_weights errors = Ok ws).
Proof.
  intros errors. apply (weight_formula (errors := errors)).
  - apply wfb_wf. reflexivity.
  - discriminate.
Defined.



End Weights.

(** ** The weights in double precision

    [Weights] reads the two comprehensions over the rationals.  The
    interpreter computes them on IEEE 754 binary64 numbers: every sum and
    every quotient is rounded to the nearest double, the builtin [sum] adds
    from left to right starting from 0, and a division by zero raises.
    This module holds the same two comprehensions on such numbers. *)

Module Binary64.
Import PyDict PrimFloat.
Local Open Scope float_scope.

(** [sys.float_info.epsilon] *)
Definition epsilon : float := 0x1p-52.

(** The builtin [sum] *)
Definition py_sum (l : list float) : float := fold_left add l 0.

(** [a / b]: a divisor equal to zero raises. *)
Definition py_div (a b : float) : result float :=
  if eqb b 0 then Raise ZeroDivisionError else Ok (a / b).

(** [_backtester_all], from [self.errors] on (lines 658-665). *)
Definition backtester_weights (errors : dict float) : result (dict float) :=
  original_weights <-
    comp_res (fun model err => py_div 1 (err + epsilon)) errors ;;
  comp_res
    (fun model err => py_div err (py_sum (values original_weights)))
    original_weights.

(** The real number that a finite double stands for. *)
Definition exact (x : float) : option Q :=
  match FloatOps.Prim2SF x with
  | SpecFloat.S754_zero _ => Some 0%Q
  | SpecFloat.S754_finite s m e =>
      let v := (inject_Z (Zpos m) * Qpower 2 e)%Q in
      Some (if s then Qopp v else v)
  | _ => None
  end.


End Binary64.

(** ** The model registry and the size of the worker pools *)

Module Registry.
Import PyDict.
Local Open Scope string_scope.

(** The model classes of [infrastrategy.kats.models]. *)
Inductive model_class : Type :=
| ARIMAModel
| HoltWintersModel
| SARIMAModel
| ProphetModel
| LinearModel
| QuadraticModel
| ThetaModel.

(** Models that can fit the de-seasonalized component. *)
Definition MODELS : dict model_class :=
  [ ("arima", ARIMAModel);
    ("holtwinters", HoltWintersModel);
    ("sarima", SARIMAModel);
    ("prophet", ProphetModel);
    ("linear", LinearModel);
    ("quadratic", QuadraticModel);
    ("theta", ThetaModel) ].

(** Models that can fit seasonal time series data. *)
Definition SMODELS : dict model_class :=
  [ ("prophet", ProphetModel);
    ("theta", ThetaModel) ].

End Registry.

Module Pool.
Import PyDict Registry.
Local Open Scope Z_scope.

(** [len(d)] *)
Definition len {A : Type} (l : list A) : Z := Z.of_nat (List.length l).

(** [fitExecutor], line 268:
    [num_process = min(len(MODELS), (cpu_count() - 1) // 2)] *)
Definition fitExecutor_num_process (cpu_count : Z) : Z :=
  Z.min (len MODELS) ((cpu_count - 1) / 2).

(** [forecastExecutor], line 513: the same expression. *)
Definition forecastExecutor_num_process (cpu_count : Z) : Z :=
  Z.min (len MODELS) ((cpu_count - 1) / 2).

(** [_backtester_all], line 643:
    [num_process = min(len(MODELS.keys()), (cpu_count() - 1) // 2)] *)
Definition backtester_all_num_process (cpu_count : Z) : Z :=
  Z.min (len (keys MODELS)) ((cpu_count - 1) / 2).

(** [multiprocessing.Manager().Pool(processes=n, ...)]: the pool is
    created in the manager's process, where a pool of fewer than one
    process is refused with a [ValueError]; the caller gets it as a
    [RemoteError]. *)
Definition make_pool (processes : Z) : result Z :=
  if processes <? 1
  then Raise (RemoteError
                "ValueError: Number of processes must be at least 1")
  else Ok processes.

Lemma make_pool_ok (cpu_count : Z) :
  3 <= cpu_count ->
  make_pool (fitExecutor_num_process cpu_count)
  = Ok (fitExecutor_num_process cpu_count).
Proof.
  intros H. unfold make_pool, fitExecutor_num_process.
  change (len MODELS) with 7.
  destruct (Z.ltb_spec (Z.min 7 ((cpu_count - 1) / 2)) 1) as [Hlt|Hge];
    [|reflexivity].
  assert (1 <= (cpu_count - 1) / 2) by (apply Z.div_le_lower_bound; lia).
  lia.
Qed.

(** The three default executors ask for exactly
    [min(number of registered model families, (cpu_count - 1) div 2)]
    worker processes, with 7 registered families; this number is at least 1
    exactly when [cpu_count] is at least 3, and the pool is created exactly
    then. *)
Lemma num_process_formula (cpu_count : Z) :
  fitExecutor_num_process cpu_count = Z.min 7 ((cpu_count - 1) / 2)
  /\ forecastExecutor_num_process cpu_count = Z.min 7 ((cpu_count - 1) / 2)
  /\ backtester_all_num_process cpu_count = Z.min 7 ((cpu_count - 1) / 2)
  /\ (1 <= fitExecutor_num_process cpu_count <-> 3 <= cpu_count)
  /\ (make_pool (fitExecutor_num_process cpu_count)
      = Ok (fitExecutor_num_process cpu_count) <-> 3 <= cpu_count).
Proof.
  unfold fitExecutor_num_process, forecastExecutor_num_process,
    backtester_all_num_process, make_pool.
  change (len MODELS) with 7. change (len (keys MODELS)) with 7.
  repeat split; try reflexivity.
  - intros H. apply Z.min_glb_iff in H. destruct H as [_ H].
    destruct (Z_lt_le_dec cpu_count 3) as [Hc|Hc]; [|exact Hc].
    assert ((cpu_count - 1) / 2 < 1) by (apply Z.div_lt_upper_bound; lia).
    lia.
  - intros H. apply Z.min_glb; [lia|].
    apply Z.div_le_lower_bound; lia.
  - intros H. destruct (Z.ltb_spec (Z.min 7 ((cpu_count - 1) / 2)) 1)
      as [Hlt|Hge]; [discriminate|].
    apply Z.min_glb_iff in Hge. destruct Hge as [_ Hge].
    destruct (Z_lt_le_dec cpu_count 3) as [Hc|Hc]; [|exact Hc].
    assert ((cpu_count - 1) / 2 < 1) by (apply Z.div_lt_upper_bound; lia).
    lia.
  - intros H. destruct (Z.ltb_spec (Z.min 7 ((cpu_count - 1) / 2)) 1)
      as [Hlt|Hge]; [|reflexivity].
    assert (1 <= (cpu_count - 1) / 2) by (apply Z.div_le_lower_bound; lia).
    lia.
Qed.

(** C3. The three executors compute the number of worker processes the
    specification names, but nothing keeps it at 1 or above: on a machine
    with one or two processors it is 0, the pool is refused, and the
    executor raises before any task is handed out. *)
Theorem num_process_below_one :
  fitExecutor_num_process 1 = 0
  /\ forecastExecutor_num_process 2 = 0
  /\ backtester_all_num_process 1 = 0
  /\ make_pool (fitExecutor_num_process 1)
     = Raise (RemoteError
                "ValueError: Number of processes must be at least 1")
  /\ make_pool (forecastExecutor_num_process 2)
     = Raise (RemoteError
                "ValueError: Number of processes must be at least 1")
  /\ ~ (forall cpu_count, 1 <= cpu_count ->
        1 <= fitExecutor_num_process cpu_count).
Proof.
  repeat split; try reflexivity.
  intros H. specialize (H 1 ltac:(lia)). vm_compute in H. now apply H.
Qed.

End Pool.

(** ** Forecast tables and re-seasonalization *)

Module Frame.
Import PyDict.
Local Open Scope string_scope.
Local Open Scope Q_scope.

(** A table cell: a number or not-a-number. *)
Inductive cell : Type :=
| Num (x : Q)
| NaN.

Definition cell_add (a b : cell) : cell :=
  match a, b with
  | Num x, Num y => Num (x + y)
  | _, _ => NaN
  end.

Definition cell_mul (a b : cell) : cell :=
  match a, b with
  | Num x, Num y => Num (x * y)
  | _, _ => NaN
  end.

(** A [pd.DataFrame]: its index and its named columns, each as long as the
    index. *)
Record frame : Type := {
  index : list cell;
  columns : dict (list cell)
}.

Definition nrows (f : frame) : nat := List.length (index f).

(** ["c" in df.columns] *)
Definition has_column (f : frame) (c : string) : bool := mem (columns f) c.

(** [df[c]] *)
Definition column (f : frame) (c : string) : result (list cell) :=
  match get (columns f) c with
  | Some v => Ok v
  | None => Raise (KeyError c)
  end.

(** [df.c], the column as an attribute *)
Definition attr_column (f : frame) (c : string) : result (list cell) :=
  match get (columns f) c with
  | Some v => Ok v
  | None => Raise (AttributeError c)
  end.

(** [df.set_index("time", inplace=True)] *)
Definition set_index_time (f : frame) : result frame :=
  match get (columns f) "time" with
  | Some t => Ok {| index := t; columns := remove (columns f) "time" |}
  | None => Raise (KeyError "time")
  end.

(** [l[start:]], with Python's reading of a negative bound *)
Definition slice_from {A : Type} (start : Z) (l : list A) : list A :=
  let n := Z.of_nat (List.length l) in
  let s := if (start <? 0)%Z then Z.max (n + start) 0 else Z.min start n in
  skipn (Z.to_nat s) l.

(** [l[:stop]] *)
Definition slice_to {A : Type} (stop : Z) (l : list A) : list A :=
  let n := Z.of_nat (List.length l) in
  let e := if (stop <? 0)%Z then Z.max (n + stop) 0 else Z.min stop n in
  firstn (Z.to_nat e) l.

Fixpoint tile {A : Type} (l : list A) (reps : nat) : list A :=
  match reps with
  | O => []
  | S n => l ++ tile l n
  end.

(** [np.tile(l, reps)] *)
Definition np_tile {A : Type} (l : list A) (reps : Z) : result (list A) :=
  if (reps <? 0)%Z
  then Raise (ValueError "negative dimensions are not allowed")
  else Ok (tile l (Z.to_nat reps)).

(** [math.trunc]: towards zero *)
Definition trunc (q : Q) : Z :=
  if Qle_bool 0 q then Qfloor q else Qceiling q.

(** [rep = math.trunc(1 + steps / seasonality_length)], a true division *)
Definition repetitions (steps seasonality_length : Z) : result Z :=
  if (seasonality_length =? 0)%Z then Raise ZeroDivisionError
  else Ok (trunc (1 + inject_Z steps / inject_Z seasonality_length)).

Fixpoint zip_with (op : cell -> cell -> cell) (u v : list cell) : list cell :=
  match u, v with
  | a :: u', b :: v' => op a b :: zip_with op u' v'
  | _, _ => []
  end.

(** [series op array]: operands of one length combine position by
    position.  Operands of different lengths are refused (the broadcast of
    a one-element operand is left out of the model). *)
Definition series_op (op : cell -> cell -> cell) (s a : list cell)
  : result (list cell) :=
  if Nat.eqb (List.length s) (List.length a)
  then Ok (zip_with op s a)
  else Raise (ValueError "operands could not be broadcast together").

(** [df op np.tile(unit, [3, 1]).transpose()]: the table must have the
    shape of the array, as many rows as [unit] and three columns; then
    every column is combined with [unit]. *)
Definition frame_op (op : cell -> cell -> cell) (f : frame) (unit : list cell)
  : result frame :=
  if Nat.eqb (nrows f) (List.length unit)
     && Nat.eqb (List.length (columns f)) 3
  then Ok {| index := index f;
             columns :=
               map (fun kc => (fst kc, zip_with op (snd kc) unit))
                   (columns f) |}
  else Raise (ValueError "Unable to coerce to DataFrame").

(** The body of the loop of [reseasonalize], for one model. *)
Definition reseasonalize_one (decomposition_method : string)
    (seasonality_unit : list cell) (rep steps : Z) (desea_pred : frame)
  : result frame :=
  if String.eqb decomposition_method "additive" then
    if has_column desea_pred "fcst_lower"
       && has_column desea_pred "fcst_upper"
    then
      desea_pred' <-
        (if has_column desea_pred "time"
         then set_index_time desea_pred else Ok desea_pred) ;;
      tiled <- np_tile seasonality_unit rep ;;
      frame_op cell_add desea_pred' (slice_to steps tiled)
    else
      fcst <- attr_column desea_pred "fcst" ;;
      tiled <- np_tile seasonality_unit rep ;;
      tmp_fcst <- series_op cell_add fcst (slice_to steps tiled) ;;
      Ok {| index := index desea_pred;
            columns :=
              [ ("fcst", tmp_fcst);
                ("fcst_lower", repeat NaN (nrows desea_pred));
                ("fcst_upper", repeat NaN (nrows desea_pred)) ] |}
  else
    if has_column desea_pred "fcst_lower"
       && has_column desea_pred "fcst_upper"
    then
      desea_pred' <-
        (if has_column desea_pred "time"
         then set_index_time desea_pred else Ok desea_pred) ;;
      tiled <- np_tile seasonality_unit rep ;;
      frame_op cell_mul desea_pred' (slice_to steps tiled)
    else
      fcst <- attr_column desea_pred "fcst" ;;
      tiled <- np_tile seasonality_unit rep ;;
      tmp_fcst <- series_op cell_mul fcst (slice_to steps tiled) ;;
      Ok {| index := index desea_pred;
            columns :=
              [ ("fcst", tmp_fcst);
                ("fcst_lower", repeat (Num 0) (nrows desea_pred));
                ("fcst_upper", repeat (Num 0) (nrows desea_pred)) ] |}.

(** [KatsEnsemble.reseasonalize]; [sea_value] is [sea_data.value]. *)
Definition reseasonalize (sea_value : list cell) (desea_predict : dict frame)
    (decomposition_method : string) (seasonality_length steps : Z)
  : result (dict frame) :=
  rep <- repetitions steps seasonality_length ;;
  let seasonality_unit := slice_from (- seasonality_length) sea_value in
  comp_res
    (fun model_name desea_pred =>
       reseasonalize_one decomposition_method seasonality_unit rep steps
         desea_pred)
    desea_predict.

(** The seasonal unit of the specification: the last [period] values,
    tiled [1 + floor(steps/period)] times, cut to [steps] values. *)
Definition last_values {A : Type} (n : nat) (l : list A) : list A :=
  skipn (List.length l - n) l.

Definition spec_unit (sea_value : list cell) (period steps : Z) : list cell :=
  firstn (Z.to_nat steps)
    (tile (last_values (Z.to_nat period) sea_value)
          (Z.to_nat (1 + steps / period))).

(** A forecast has both bounds. *)
Definition with_bounds (f : frame) : bool :=
  has_column f "fcst_lower" && has_column f "fcst_upper".

(** The contract of [predict(steps)]: [steps] rows in every column, a
    point forecast, and, when the model has a native interval, the columns
    fcst, fcst_lower and fcst_upper besides the time (as index or as a
    column). *)
Definition forecast_shape (steps : nat) (f : frame) : bool :=
  Nat.eqb (nrows f) steps
  && forallb (fun kc => Nat.eqb (List.length (snd kc)) steps) (columns f)
  && has_column f "fcst"
  && (if with_bounds f
      then Nat.eqb (List.length (columns f))
                   (if has_column f "time" then 4 else 3)
      else true).

Definition forecasts_shape (steps : nat) (d : dict frame) : bool :=
  forallb (fun kf => forecast_shape steps (snd kf)) d.

(** *** The seasonal unit *)

Lemma repetitions_floor (steps period : Z) :
  (0 <= steps)%Z -> (0 < period)%Z ->
  repetitions steps period = Ok (1 + steps / period)%Z.
Proof.
  intros Hs Hp. unfold repetitions.
  destruct (Z.eqb_spec period 0) as [E|_]; [lia|]. f_equal.
  assert (Hq : 1 + inject_Z steps / inject_Z period
               == inject_Z (1 * period + steps) / inject_Z period).
  { rewrite inject_Z_plus, inject_Z_mult. field.
    intros H. apply (inject_Z_injective period 0) in H. lia. }
  assert (Hnn : 0 <= 1 + inject_Z steps / inject_Z period).
  { assert (0 <= inject_Z steps / inject_Z period).
    { apply Qle_shift_div_l.
      - change 0 with (inject_Z 0). rewrite <- Zlt_Qlt. exact Hp.
      - rewrite Qmult_0_l. change 0 with (inject_Z 0).
        rewrite <- Zle_Qle. exact Hs. }
    lra. }
  unfold trunc. apply Qle_bool_iff in Hnn. rewrite Hnn.
  rewrite (Qfloor_comp _ _ Hq), <- Zdiv_Qdiv.
  rewrite Z.div_add_l by lia. reflexivity.
Qed.

Lemma length_tile (A : Type) (l : list A) (n : nat) :
  List.length (tile l n) = (List.length l * n)%nat.
Proof.
  induction n as [|n IH]; simpl; [lia|].
  rewrite length_app, IH. lia.
Qed.

Lemma slice_from_last (A : Type) (l : list A) (p : Z) :
  (0 < p)%Z ->
  slice_from (- p) l = last_values (Z.to_nat p) l.
Proof.
  intros Hp. unfold slice_from, last_values.
  destruct (Z.ltb_spec (- p) 0) as [_|H]; [|lia]. f_equal. lia.
Qed.

Lemma length_last_values (A : Type) (l : list A) (n : nat) :
  (n <= List.length l)%nat -> List.length (last_values n l) = n.
Proof. intros H. unfold last_values. rewrite length_skipn. lia. Qed.

Lemma slice_to_firstn (A : Type) (l : list A) (stop : Z) :
  (0 <= stop <= Z.of_nat (List.length l))%Z ->
  slice_to stop l = firstn (Z.to_nat stop) l.
Proof.
  intros H. unfold slice_to.
  destruct (Z.ltb_spec stop 0) as [H0|_]; [lia|]. f_equal. lia.
Qed.

(** The array the loop combines with each forecast is the seasonal unit of
    the specification, and it has exactly [steps] values. *)
Lemma seasonal_unit_spec (sea_value : list cell) (period steps : Z) :
  (0 < period)%Z -> (0 <= steps)%Z ->
  (period <= Z.of_nat (List.length sea_value))%Z ->
  np_tile (slice_from (- period) sea_value) (1 + steps / period)
  = Ok (tile (last_values (Z.to_nat period) sea_value)
             (Z.to_nat (1 + steps / period)))
  /\ slice_to steps
       (tile (last_values (Z.to_nat period) sea_value)
             (Z.to_nat (1 + steps / period)))
     = spec_unit sea_value period steps
  /\ List.length (spec_unit sea_value period steps) = Z.to_nat steps.
Proof.
  intros Hp Hs Hl.
  assert (Hd : (0 <= steps / period)%Z) by (apply Z.div_pos; lia).
  assert (Hm : (steps < period * Z.succ (steps / period))%Z)
    by (apply Z.mul_succ_div_gt; lia).
  assert (Hlen : (Z.of_nat (List.length
            (tile (last_values (Z.to_nat period) sea_value)
                  (Z.to_nat (1 + steps / period))))
          = period * Z.succ (steps / period))%Z).
  { rewrite length_tile, length_last_values by lia. lia. }
  split; [|split].
  - unfold np_tile. rewrite slice_from_last by exact Hp.
    destruct (Z.ltb_spec (1 + steps / period) 0) as [H|_]; [lia|].
    reflexivity.
  - unfold spec_unit. apply slice_to_firstn. lia.
  - unfold spec_unit. rewrite length_firstn. lia.
Qed.

(** *** One model *)

Definition op_of (decomposition_method : string) : cell -> cell -> cell :=
  if String.eqb decomposition_method "additive" then cell_add else cell_mul.

Definition fill_of (decomposition_method : string) : cell :=
  if String.eqb decomposition_method "additive" then NaN else Num 0.

(** The forecast with the time as its index. *)
Definition time_indexed (f : frame) : frame :=
  match get (columns f) "time" with
  | Some t => {| index := t; columns := remove (columns f) "time" |}
  | None => f
  end.

(** What the loop body returns on a forecast of the right shape. *)
Definition reseasonalized (decomposition_method : string)
    (unit : list cell) (f : frame) : frame :=
  if with_bounds f then
    {| index := index (time_indexed f);
       columns :=
         map (fun kc =>
                (fst kc, zip_with (op_of decomposition_method) (snd kc) unit))
             (columns (time_indexed f)) |}
  else
    {| index := index f;
       columns :=
         [ ("fcst",
            zip_with (op_of decomposition_method)
              (match get (columns f) "fcst" with Some v => v | None => [] end)
              unit);
           ("fcst_lower", repeat (fill_of decomposition_method) (nrows f));
           ("fcst_upper", repeat (fill_of decomposition_method) (nrows f)) ]
    |}.

Lemma length_remove (d : dict (list cell)) (k : string) :
  mem d k = true -> S (List.length (remove d k)) = List.length d.
Proof.
  unfold mem. induction d as [|[k' v] d IH]; simpl; [discriminate|].
  destruct (String.eqb_spec k' k) as [->|Hne]; [reflexivity|].
  intros H. simpl. now rewrite IH.
Qed.

Lemma forallb_get (p : list cell -> bool) (d : dict (list cell)) k v :
  forallb (fun kc => p (snd kc)) d = true -> get d k = Some v -> p v = true.
Proof.
  intros H G. apply get_in in G.
  rewrite forallb_forall in H. exact (H _ G).
Qed.

Lemma reseasonalize_one_ok (method : string) (sea_value : list cell)
    (period steps : Z) (f : frame) :
  (0 < period)%Z -> (0 <= steps)%Z ->
  (period <= Z.of_nat (List.length sea_value))%Z ->
  forecast_shape (Z.to_nat steps) f = true ->
  reseasonalize_one method (slice_from (- period) sea_value)
    (1 + steps / period) steps f
  = Ok (reseasonalized method (spec_unit sea_value period steps) f).
Proof.
  intros Hp Hs Hl Hf.
  destruct (seasonal_unit_spec sea_value Hp Hs Hl) as (Ht & Hu & Hn).
  unfold forecast_shape in Hf.
  apply andb_true_iff in Hf. destruct Hf as [Hf Hb].
  apply andb_true_iff in Hf. destruct Hf as [Hf Hfc].
  apply andb_true_iff in Hf. destruct Hf as [Hr Hc].
  apply Nat.eqb_eq in Hr.
  assert (Hone :
    (if with_bounds f
     then
       desea_pred' <-
         (if has_column f "time" then set_index_time f else Ok f) ;;
       tiled <- np_tile (slice_from (- period) sea_value)
                  (1 + steps / period) ;;
       frame_op (op_of method) desea_pred' (slice_to steps tiled)
     else
       fcst <- attr_column f "fcst" ;;
       tiled <- np_tile (slice_from (- period) sea_value)
                  (1 + steps / period) ;;
       tmp_fcst <- series_op (op_of method) fcst (slice_to steps tiled) ;;
       Ok {| index := index f;
             columns :=
               [ ("fcst", tmp_fcst);
                 ("fcst_lower", repeat (fill_of method) (nrows f));
                 ("fcst_upper", repeat (fill_of method) (nrows f)) ] |})
    = Ok (reseasonalized method (spec_unit sea_value period steps) f)).
  { rewrite Ht. cbn [bind]. rewrite Hu.
    unfold reseasonalized. destruct (with_bounds f) eqn:Ewb.
    - apply Nat.eqb_eq in Hb. unfold time_indexed.
      unfold has_column, mem in *. unfold set_index_time.
      destruct (get (columns f) "time") as [t|] eqn:Et; cbn [bind];
        unfold frame_op, nrows; cbn [index columns].
      + assert (Hlt : List.length t = Z.to_nat steps).
        { apply Nat.eqb_eq.
          exact (forallb_get
                   (fun v => Nat.eqb (List.length v) (Z.to_nat steps))
                   _ _ Hc Et). }
        assert (Hrm : List.length (remove (columns f) "time") = 3%nat).
        { assert (mem (columns f) "time" = true)
            by (unfold mem; now rewrite Et).
          pose proof (length_remove _ _ H). lia. }
        rewrite Hlt, Hn, Nat.eqb_refl, Hrm. reflexivity.
      + unfold nrows in Hr. rewrite Hr, Hn, Nat.eqb_refl, Hb. reflexivity.
    - unfold has_column, mem in Hfc. unfold attr_column.
      destruct (get (columns f) "fcst") as [fc|] eqn:Efc; [|discriminate].
      cbn [bind]. unfold series_op.
      assert (Hlf : List.length fc = Z.to_nat steps).
      { apply Nat.eqb_eq.
        exact (forallb_get
                 (fun v => Nat.eqb (List.length v) (Z.to_nat steps))
                 _ _ Hc Efc). }
      rewrite Hlf, Hn, Nat.eqb_refl. reflexivity. }
  unfold reseasonalize_one. unfold op_of, fill_of in Hone.
  fold (with_bounds f). destruct (String.eqb method "additive"); exact Hone.
Qed.

(** *** The whole batch *)

Section Batch.
Variable sea_value : list cell.
Variable desea_predict : dict frame.
Variables period steps : Z.
Hypothesis period_pos : (0 < period)%Z.
Hypothesis steps_nonneg : (0 <= steps)%Z.
Hypothesis period_fits : (period <= Z.of_nat (List.length sea_value))%Z.
Hypothesis batch_wf : wf desea_predict.
Hypothesis batch_shape : forecasts_shape (Z.to_nat steps) desea_predict = true.

Lemma reseasonalize_ok (method : string) :
  reseasonalize sea_value desea_predict method period steps
  = Ok (map (fun kf =>
               (fst kf,
                reseasonalized method (spec_unit sea_value period steps)
                  (snd kf)))
            desea_predict).
Proof.
  unfold reseasonalize.
  rewrite repetitions_floor by assumption. cbn [bind].
  apply (comp_res_ok _
           (fun _ f =>
              reseasonalized method (spec_unit sea_value period steps) f)).
  - exact batch_wf.
  - intros k f I. apply reseasonalize_one_ok; try assumption.
    unfold forecasts_shape in batch_shape.
    rewrite forallb_forall in batch_shape. exact (batch_shape _ I).
Qed.


Lemma get_reseasonalized (method model : string) :
  get (map (fun kf =>
              (fst kf,
               reseasonalized method (spec_unit sea_value period steps)
                 (snd kf)))
           desea_predict) model
  = option_map (reseasonalized method (spec_unit sea_value period steps))
      (get desea_predict model).
Proof.
  exact (get_map
           (fun _ f =>
              reseasonalized method (spec_unit sea_value period steps) f)
           desea_predict model).
Qed.

End Batch.

Lemma shape_fcst (n : nat) (f : frame) :
  forecast_shape n f = true ->
  nrows f = n /\ exists fcst, get (columns f) "fcst" = Some fcst.
Proof.
  unfold forecast_shape. rewrite !andb_true_iff.
  intros [[[Hr _] Hf] _]. apply Nat.eqb_eq in Hr. split; [exact Hr|].
  unfold has_column, mem in Hf.
  destruct (get (columns f) "fcst") as [v|]; [now exists v | discriminate].
Qed.



(** A batch of two forecasts over three steps: one with a native
    interval, one without. *)
Definition example_seasonal : list cell :=
  [Num 5; Num 1; Num (-1); Num 2; Num (-2)].





(** *** Further properties of re-seasonalization *)





End Frame.

(** ** Aggregation of the per-model forecasts *)

Module Aggregate.
Import PyDict Frame.
Local Open Scope string_scope.
Local Open Scope Q_scope.

(** [self.fcst_df] *)
Record fcst_df : Type := {
  time : list Z;
  fcst : list cell;
  fcst_lower : list cell;
  fcst_upper : list cell
}.

(** A table of per-model columns, one column per model, in the order of
    [self.predicted]. *)
Definition table := list (list cell).

Fixpoint map_res {A B : Type} (f : A -> result B) (l : list A)
  : result (list B) :=
  match l with
  | [] => Ok []
  | a :: l' => b <- f a ;; bs <- map_res f l' ;; Ok (b :: bs)
  end.

Definition pad (n : nat) (col : list cell) : list cell :=
  col ++ repeat NaN (n - List.length col).

Definition table_nrows (t : table) : nat := list_max (map (@List.length cell) t).

(** [pd.concat(series, axis=1)] on series re-indexed from 0: shorter
    columns are filled up with not-a-number. *)
Definition concat_columns (cols : list (list cell)) : result table :=
  match cols with
  | [] => Raise (ValueError "No objects to concatenate")
  | _ => Ok (map (pad (table_nrows cols)) cols)
  end.

(** [pd.concat([x[col].reset_index(drop=True)
               for x in self.predicted.values()], axis=1)] *)
Definition collect (predicted : dict frame) (col : string) : result table :=
  cols <- map_res (fun x => column x col) (values predicted) ;;
  concat_columns cols.

(** Row [i] of a table *)
Definition row (t : table) (i : nat) : list cell :=
  map (fun col => nth i col NaN) t.

Definition rows (t : table) : list (list cell) :=
  map (row t) (seq 0 (table_nrows t)).

(** [df.fillna(0)] and [df.replace(0, np.nan)], cell by cell *)
Definition fillna_zero (c : cell) : cell :=
  match c with
  | NaN => Num 0
  | Num x => Num x
  end.

Definition replace_zero (c : cell) : cell :=
  match c with
  | Num x => if Qeq_bool x 0 then NaN else Num x
  | NaN => NaN
  end.

(** The three stacked tables, [fcsts]. *)
Record stacked : Type := {
  t_fcst : table;
  t_lower : table;
  t_upper : table
}.

(** [clean_dummy_CI] *)
Definition clean_dummy_CI (fcsts : stacked) (use_zero : bool) : stacked :=
  if use_zero then
    {| t_fcst := t_fcst fcsts;
       t_lower := map (map fillna_zero) (t_lower fcsts);
       t_upper := map (map fillna_zero) (t_upper fcsts) |}
  else
    {| t_fcst := t_fcst fcsts;
       t_lower := map (map replace_zero) (t_lower fcsts);
       t_upper := map (map replace_zero) (t_upper fcsts) |}.

(** The numbers of a row, not-a-number left out. *)
Fixpoint numbers (r : list cell) : list Q :=
  match r with
  | [] => []
  | Num x :: r' => x :: numbers r'
  | NaN :: r' => numbers r'
  end.

Fixpoint insert (x : Q) (l : list Q) : list Q :=
  match l with
  | [] => [x]
  | y :: l' => if Qle_bool x y then x :: l else y :: insert x l'
  end.

Fixpoint sort (l : list Q) : list Q :=
  match l with
  | [] => []
  | x :: l' => insert x (sort l')
  end.

(** The median of a row with [skipna=True]: the middle of the sorted
    numbers, the mean of the two middle ones when their count is even,
    not-a-number when there is none. *)
Definition median (r : list cell) : cell :=
  let s := sort (numbers r) in
  let n := List.length s in
  match n with
  | O => NaN
  | _ =>
      if Nat.even n
      then Num ((nth (n / 2 - 1) s 0 + nth (n / 2) s 0) / 2)
      else Num (nth (n / 2) s 0)
  end.

(** [df.median(axis=1)] *)
Definition median_axis1 (t : table) : list cell := map median (rows t).

(** [df.isnull().values.any()] *)
Definition is_nan (c : cell) : bool :=
  match c with
  | NaN => true
  | Num _ => false
  end.

Definition any_null (t : table) : bool := existsb (existsb is_nan) t.

(** The dot product of a row with the weight vector. *)
Fixpoint dot_row (r : list cell) (w : list Q) : cell :=
  match r, w with
  | c :: r', x :: w' => cell_add (cell_mul c (Num x)) (dot_row r' w')
  | _, _ => Num 0
  end.

(** [df.dot(array)] *)
Definition frame_dot (t : table) (w : list Q) : result (list cell) :=
  if Nat.eqb (List.length t) (List.length w)
  then Ok (map (fun r => dot_row r w) (rows t))
  else Raise (ValueError "Dot product shape mismatch").

(** [pd.DataFrame({"time": dates, "fcst": ..., ...})]: the three series are
    aligned on their common index, which must be as long as [dates]. *)
Definition make_df (dates : list Z) (f lo up : list cell) : result fcst_df :=
  let n := Nat.max (List.length f)
             (Nat.max (List.length lo) (List.length up)) in
  if Nat.eqb (List.length dates) n
  then Ok {| time := dates;
             fcst := pad n f;
             fcst_lower := pad n lo;
             fcst_upper := pad n up |}
  else Raise (ValueError "array length does not match index length").

Definition ci_message : string :=
  "Conf. interval contains NaN, please check individual model".

(** [aggregate].  [dates] is [self.dates], the future time stamps that
    [pd.date_range] gives for [self.steps] periods after the last observed
    one; [weights] is [self.weights]. *)
Definition aggregate (aggregation : string) (dates : list Z)
    (predicted : dict frame) (weights : option (dict Q))
  : result fcst_df :=
  f <- collect predicted "fcst" ;;
  lo <- collect predicted "fcst_lower" ;;
  up <- collect predicted "fcst_upper" ;;
  let fcsts := {| t_fcst := f; t_lower := lo; t_upper := up |} in
  if String.eqb (PyStr.lower aggregation) "median" then
    let fcsts := clean_dummy_CI fcsts false in
    make_df dates
      (median_axis1 (t_fcst fcsts))
      (median_axis1 (t_lower fcsts))
      (median_axis1 (t_upper fcsts))
  else
    if any_null (t_lower fcsts) || any_null (t_upper fcsts)
    then Raise (ValueError ci_message)
    else
      match weights with
      | None => Raise (AttributeError "values")
      | Some w =>
          w_fcst <- frame_dot (t_fcst fcsts) (values w) ;;
          w_lower <- frame_dot (t_lower fcsts) (values w) ;;
          w_upper <- frame_dot (t_upper fcsts) (values w) ;;
          make_df dates w_fcst w_lower w_upper
      end.

(** *** Forecasts that can be stacked *)

(** The value of model forecast [f] in column [c] at row [i]. *)
Definition cell_at (f : frame) (c : string) (i : nat) : cell :=
  match get (columns f) c with
  | Some v => nth i v NaN
  | None => NaN
  end.

Definition col_of (c : string) (f : frame) : list cell :=
  match get (columns f) c with
  | Some v => v
  | None => []
  end.

Definition has_len (n : nat) (c : string) (f : frame) : bool :=
  match get (columns f) c with
  | Some v => Nat.eqb (List.length v) n
  | None => false
  end.

(** Every forecast has the three columns, each with [n] rows. *)
Definition aggregable (n : nat) (predicted : dict frame) : bool :=
  forallb
    (fun kf =>
       has_len n "fcst" (snd kf)
       && has_len n "fcst_lower" (snd kf)
       && has_len n "fcst_upper" (snd kf))
    predicted.

Lemma pad_exact (n : nat) (col : list cell) :
  List.length col = n -> pad n col = col.
Proof.
  intros H. unfold pad. rewrite H, Nat.sub_diag. apply app_nil_r.
Qed.

Lemma list_max_const (n : nat) (l : list nat) :
  l <> [] -> (forall x, In x l -> x = n) -> list_max l = n.
Proof.
  induction l as [|a l IH]; [congruence|]. intros _ H. simpl.
  rewrite (H a) by now left.
  destruct l as [|b l]; [simpl; lia|].
  rewrite IH; [lia | discriminate | intros x I; apply H; now right].
Qed.

Lemma table_nrows_const (n : nat) (t : table) :
  t <> [] -> (forall col, In col t -> List.length col = n) ->
  table_nrows t = n.
Proof.
  intros Hne H. unfold table_nrows. apply list_max_const.
  - destruct t; [congruence | discriminate].
  - intros x I. apply in_map_iff in I. destruct I as (col & <- & I).
    now apply H.
Qed.

Lemma map_pad_exact (n : nat) (t : table) :
  (forall col, In col t -> List.length col = n) -> map (pad n) t = t.
Proof.
  induction t as [|col t IH]; intros H; simpl; [reflexivity|].
  rewrite pad_exact by (apply H; now left).
  rewrite IH; [reflexivity | intros c I; apply H; now right].
Qed.

Lemma map_res_column (c : string) (n : nat) (fs : list frame) :
  (forall f, In f fs -> has_len n c f = true) ->
  map_res (fun x => column x c) fs = Ok (map (col_of c) fs)
  /\ forall col, In col (map (col_of c) fs) -> List.length col = n.
Proof.
  induction fs as [|f fs IH]; intros H; simpl.
  - split; [reflexivity | tauto].
  - destruct IH as [IH1 IH2]; [intros g I; apply H; now right|].
    assert (Hf := H f (or_introl eq_refl)).
    rewrite IH1. unfold has_len in Hf.
    assert (Hc : column f c = Ok (col_of c f)
                 /\ List.length (col_of c f) = n).
    { unfold column, col_of.
      destruct (get (columns f) c) as [v|]; [|discriminate].
      apply Nat.eqb_eq in Hf. now split. }
    destruct Hc as [Hc Hl]. rewrite Hc. cbn [bind].
    split; [reflexivity|]. intros col [<-|I]; [exact Hl | now apply IH2].
Qed.

Lemma collect_ok (c : string) (n : nat) (predicted : dict frame) :
  predicted <> [] ->
  (forall f, In f (values predicted) -> has_len n c f = true) ->
  collect predicted c = Ok (map (col_of c) (values predicted))
  /\ table_nrows (map (col_of c) (values predicted)) = n.
Proof.
  intros Hne H. unfold collect.
  destruct (map_res_column c n (values predicted) H) as [H1 H2].
  rewrite H1. cbn [bind].
  assert (Hn : map (col_of c) (values predicted) <> []).
  { destruct predicted; [congruence | discriminate]. }
  assert (Hr := table_nrows_const Hn H2).
  split; [|exact Hr]. unfold concat_columns.
  destruct (map (col_of c) (values predicted)) eqn:E; [congruence|].
  rewrite Hr, map_pad_exact by exact H2. reflexivity.
Qed.

Lemma row_col_of (c : string) (fs : list frame) (i : nat) :
  row (map (col_of c) fs) i = map (fun f => cell_at f c i) fs.
Proof.
  unfold row. rewrite map_map. apply map_ext. intros f.
  unfold col_of, cell_at. destruct (get (columns f) c); [reflexivity|].
  now destruct i.
Qed.

Lemma row_replace_zero (t : table) (i : nat) :
  row (map (map replace_zero) t) i = map replace_zero (row t i).
Proof.
  unfold row. rewrite !map_map. apply map_ext. intros col.
  change NaN with (replace_zero NaN) at 1. apply map_nth.
Qed.

Lemma table_nrows_map (g : cell -> cell) (t : table) :
  table_nrows (map (map g) t) = table_nrows t.
Proof.
  unfold table_nrows. rewrite map_map. f_equal. apply map_ext.
  intros col. apply length_map.
Qed.

Lemma nth_rows (A : Type) (g : list cell -> A) (d : A) (t : table) (i : nat) :
  (i < table_nrows t)%nat -> nth i (map g (rows t)) d = g (row t i).
Proof.
  intros H. unfold rows. rewrite map_map.
  rewrite (nth_indep _ d (g (row t (nth i (seq 0 (table_nrows t)) O)))).
  - rewrite (map_nth (fun j => g (row t j))). now rewrite seq_nth.
  - now rewrite length_map, length_seq.
Qed.

Lemma length_rows (t : table) : List.length (rows t) = table_nrows t.
Proof. unfold rows. now rewrite length_map, length_seq. Qed.

Lemma make_df_ok (dates : list Z) (f lo up : list cell) :
  List.length f = List.length dates ->
  List.length lo = List.length dates ->
  List.length up = List.length dates ->
  make_df dates f lo up
  = Ok {| time := dates; fcst := f; fcst_lower := lo; fcst_upper := up |}.
Proof.
  intros Hf Hl Hu. unfold make_df. rewrite Hf, Hl, Hu, !Nat.max_id.
  rewrite Nat.eqb_refl, !pad_exact by assumption. reflexivity.
Qed.

Lemma aggregable_has_len (n : nat) (predicted : dict frame) :
  aggregable n predicted = true ->
  forall c, c = "fcst" \/ c = "fcst_lower" \/ c = "fcst_upper" ->
  forall f, In f (values predicted) -> has_len n c f = true.
Proof.
  intros H c Hc f I. unfold aggregable in H. rewrite forallb_forall in H.
  apply in_map_iff in I. destruct I as (kf & <- & I).
  specialize (H kf I). rewrite !andb_true_iff in H.
  destruct H as [[H1 H2] H3]. destruct Hc as [->|[->| ->]]; assumption.
Qed.

(** *** Median mode *)

Lemma length_median_axis1 (t : table) :
  List.length (median_axis1 t) = table_nrows t.
Proof. unfold median_axis1. now rewrite length_map, length_rows. Qed.

Lemma aggregate_median_ok (dates : list Z) (predicted : dict frame)
    (weights : option (dict Q)) :
  predicted <> [] ->
  aggregable (List.length dates) predicted = true ->
  aggregate "median" dates predicted weights
  = Ok {| time := dates;
          fcst := median_axis1 (map (col_of "fcst") (values predicted));
          fcst_lower :=
            median_axis1
              (map (map replace_zero)
                   (map (col_of "fcst_lower") (values predicted)));
          fcst_upper :=
            median_axis1
              (map (map replace_zero)
                   (map (col_of "fcst_upper") (values predicted))) |}.
Proof.
  intros Hne Hag. unfold aggregate.
  destruct (@collect_ok "fcst" _ _ Hne
              (@aggregable_has_len _ _ Hag _ (or_introl eq_refl))) as [-> Hf].
  destruct (@collect_ok "fcst_lower" _ _ Hne
              (@aggregable_has_len _ _ Hag _ (or_intror (or_introl eq_refl))))
    as [-> Hl].
  destruct (@collect_ok "fcst_upper" _ _ Hne
              (@aggregable_has_len _ _ Hag _ (or_intror (or_intror eq_refl))))
    as [-> Hu].
  cbn [bind].
  change (String.eqb (PyStr.lower "median") "median") with true.
  cbv iota. unfold clean_dummy_CI. cbn [t_fcst t_lower t_upper].
  apply make_df_ok; rewrite length_median_axis1, ?table_nrows_map; assumption.
Qed.

Lemma replace_zero_nonzero (x : Q) : ~ x == 0 -> replace_zero (Num x) = Num x.
Proof.
  intros H. simpl. destruct (Qeq_bool x 0) eqn:E; [|reflexivity].
  apply Qeq_bool_eq in E. contradiction.
Qed.

Lemma numbers_map_Num (l : list Q) : numbers (map Num l) = l.
Proof. induction l as [|x l IH]; simpl; [reflexivity | now rewrite IH]. Qed.

(** The median of a row is the median of its numbers alone. *)
Lemma median_skips_nan (r : list cell) :
  median r = median (map Num (numbers r)).
Proof. unfold median. now rewrite numbers_map_Num. Qed.

(** **** The median of the specification

    The values a median is taken over are the numbers of the row, in the
    order of the models: not-a-number is left out, and so is zero in a
    bound.  The median of these values is the middle one of them in
    non-decreasing order, the mean of the two middle ones when their count
    is even, and not-a-number when there is none. *)

Definition kept (zero_is_missing : bool) (c : cell) : bool :=
  match c with
  | NaN => false
  | Num x => negb (zero_is_missing && Qeq_bool x 0)
  end.

Definition is_median (xs : list Q) (c : cell) : Prop :=
  (xs = [] -> c = NaN)
  /\ (xs <> [] ->
      exists s m,
        Permutation xs s
        /\ Sorted Qle s
        /\ c = Num m
        /\ let n := List.length s in
           if Nat.even n
           then m = (nth (n / 2 - 1) s 0 + nth (n / 2) s 0) / 2
           else m = nth (n / 2) s 0).

(** The median of the values kept in [row]. *)
Definition median_of_kept (zero_is_missing : bool) (row : list cell)
    (c : cell) : Prop :=
  forall xs, map Num xs = filter (kept zero_is_missing) row ->
             is_median xs c.

Lemma insert_perm (x : Q) (l : list Q) : Permutation (x :: l) (insert x l).
Proof.
  induction l as [|y l IH]; simpl; [reflexivity|].
  destruct (Qle_bool x y); [reflexivity|].
  rewrite perm_swap. now apply perm_skip.
Qed.

Lemma sort_perm (l : list Q) : Permutation l (sort l).
Proof.
  induction l as [|x l IH]; simpl; [constructor|].
  rewrite <- insert_perm. now apply perm_skip.
Qed.

Lemma insert_hd (a x : Q) (l : list Q) :
  a <= x -> HdRel Qle a l -> HdRel Qle a (insert x l).
Proof.
  intros Hax H. destruct l as [|y l]; simpl; [now constructor|].
  destruct (Qle_bool x y); constructor; [exact Hax|].
  now inversion H.
Qed.

Lemma insert_sorted (x : Q) (l : list Q) :
  Sorted Qle l -> Sorted Qle (insert x l).
Proof.
  induction l as [|y l IH]; simpl; intros H.
  - repeat constructor.
  - inversion H as [|? ? Hs Hh]; subst.
    destruct (Qle_bool x y) eqn:E.
    + apply Qle_bool_iff in E. constructor; [exact H|]. now constructor.
    + constructor; [now apply IH|].
      apply insert_hd; [|exact Hh].
      apply Qlt_le_weak, Qnot_le_lt. intros Hle.
      apply Qle_bool_iff in Hle. congruence.
Qed.

Lemma sort_sorted (l : list Q) : Sorted Qle (sort l).
Proof.
  induction l as [|x l IH]; simpl; [constructor|].
  now apply insert_sorted.
Qed.

Lemma median_is_median (xs : list Q) : is_median xs (median (map Num xs)).
Proof.
  unfold median. rewrite numbers_map_Num. split.
  - intros ->. reflexivity.
  - intros Hne.
    assert (Hl : List.length (sort xs) <> O).
    { rewrite <- (Permutation_length (sort_perm xs)).
      destruct xs; [congruence | discriminate]. }
    destruct (List.length (sort xs)) as [|k] eqn:En; [congruence|].
    destruct (Nat.even (S k)) eqn:Ev.
    + exists (sort xs). eexists.
      split; [apply sort_perm|]. split; [apply sort_sorted|].
      split; [reflexivity|]. cbv zeta. rewrite En, Ev. reflexivity.
    + exists (sort xs). eexists.
      split; [apply sort_perm|]. split; [apply sort_sorted|].
      split; [reflexivity|]. cbv zeta. rewrite En, Ev. reflexivity.
Qed.

Lemma map_Num_inj (xs ys : list Q) : map Num xs = map Num ys -> xs = ys.
Proof.
  revert ys. induction xs as [|x xs IH]; intros [|y ys]; simpl;
    try discriminate; [reflexivity|].
  intros [= -> H]. f_equal. now apply IH.
Qed.

Lemma numbers_kept (row : list cell) :
  map Num (numbers row) = filter (kept false) row.
Proof.
  induction row as [|[x|] row IH]; simpl; [reflexivity| |exact IH].
  now rewrite IH.
Qed.

Lemma numbers_replace_zero (row : list cell) :
  map Num (numbers (map replace_zero row)) = filter (kept true) row.
Proof.
  induction row as [|[x|] row IH]; simpl; [reflexivity| |exact IH].
  destruct (Qeq_bool x 0); simpl; [exact IH | now rewrite IH].
Qed.

Lemma median_of_numbers (row : list cell) :
  median_of_kept false row (median row).
Proof.
  intros xs H. rewrite <- numbers_kept in H. apply map_Num_inj in H.
  subst xs. rewrite median_skips_nan. apply median_is_median.
Qed.

Lemma median_of_cleaned (row : list cell) :
  median_of_kept true row (median (map replace_zero row)).
Proof.
  intros xs H. rewrite <- numbers_replace_zero in H. apply map_Num_inj in H.
  subst xs. rewrite median_skips_nan. apply median_is_median.
Qed.

Lemma median_two (x y : Q) :
  exists m, median [Num x; Num y; NaN] = Num m /\ m == (x + y) / 2.
Proof.
  unfold median. simpl. destruct (Qle_bool x y); simpl.
  - eexists. split; [reflexivity|]. reflexivity.
  - eexists. split; [reflexivity|]. field.
Qed.

(** C6. Median mode: before the medians are taken, a zero in the stacked
    lower and upper bounds counts as missing, like not-a-number (and
    not-a-number is not turned into zero).  Each output row of fcst is the
    median of the models' values in that row that are numbers, and each
    output row of fcst_lower and fcst_upper is the median of the models'
    bounds in that row that are numbers other than zero.  On three models
    of which one has no bound in a row, the bound is the mean of the two
    others when neither is zero, and the other one alone when one of them
    is zero. *)
Theorem aggregate_median (dates : list Z) (predicted : dict frame)
    (weights : option (dict Q)) :
  predicted <> [] ->
  aggregable (List.length dates) predicted = true ->
  exists out,
    aggregate "median" dates predicted weights = Ok out
    /\ time out = dates
    /\ (forall i, (i < List.length dates)%nat ->
         median_of_kept false
           (map (fun f => cell_at f "fcst" i) (values predicted))
           (nth i (fcst out) NaN)
         /\ median_of_kept true
              (map (fun f => cell_at f "fcst_lower" i) (values predicted))
              (nth i (fcst_lower out) NaN)
         /\ median_of_kept true
              (map (fun f => cell_at f "fcst_upper" i) (values predicted))
              (nth i (fcst_upper out) NaN))
    /\ (forall ka fa kb fb kc fc i x y,
         predicted = [(ka, fa); (kb, fb); (kc, fc)] ->
         (i < List.length dates)%nat ->
         cell_at fa "fcst_lower" i = Num x ->
         cell_at fb "fcst_lower" i = Num y ->
         cell_at fc "fcst_lower" i = NaN ->
         (~ x == 0 -> ~ y == 0 ->
          exists m, nth i (fcst_lower out) NaN = Num m /\ m == (x + y) / 2)
         /\ (x == 0 -> ~ y == 0 -> nth i (fcst_lower out) NaN = Num y)).
Proof.
  intros Hne Hag. eexists.
  split; [now apply aggregate_median_ok|]. cbn [time fcst fcst_lower fcst_upper].
  assert (Hf := proj2 (@collect_ok "fcst" _ _ Hne
              (@aggregable_has_len _ _ Hag _ (or_introl eq_refl)))).
  assert (Hl := proj2 (@collect_ok "fcst_lower" _ _ Hne
              (@aggregable_has_len _ _ Hag _ (or_intror (or_introl eq_refl))))).
  assert (Hu := proj2 (@collect_ok "fcst_upper" _ _ Hne
              (@aggregable_has_len _ _ Hag _ (or_intror (or_intror eq_refl))))).
  assert (Hrows : forall i, (i < List.length dates)%nat ->
    nth i (median_axis1 (map (col_of "fcst") (values predicted))) NaN
    = median (map (fun f => cell_at f "fcst" i) (values predicted))
    /\ nth i (median_axis1
                (map (map replace_zero)
                     (map (col_of "fcst_lower") (values predicted)))) NaN
       = median (map replace_zero
                   (map (fun f => cell_at f "fcst_lower" i)
                        (values predicted)))
    /\ nth i (median_axis1
                (map (map replace_zero)
                     (map (col_of "fcst_upper") (values predicted)))) NaN
       = median (map replace_zero
                   (map (fun f => cell_at f "fcst_upper" i)
                        (values predicted)))).
  { intros i Hi. unfold median_axis1.
    rewrite !nth_rows by (rewrite ?table_nrows_map; lia).
    rewrite !row_replace_zero, !row_col_of. now repeat split. }
  split; [reflexivity|]. split.
  - intros i Hi. destruct (Hrows i Hi) as (-> & -> & ->).
    split; [apply median_of_numbers|].
    split; apply median_of_cleaned.
  - intros ka fa kb fb kc fc i x y E Hi Ha Hb Hc.
    destruct (Hrows i Hi) as (_ & -> & _). rewrite E. simpl.
    rewrite Ha, Hb, Hc. change (replace_zero NaN) with NaN. split.
    + intros Hx Hy. rewrite !replace_zero_nonzero by assumption.
      apply median_two.
    + intros Hx Hy. rewrite (replace_zero_nonzero Hy).
      apply Qeq_bool_iff in Hx. cbn [replace_zero]. rewrite Hx.
      reflexivity.
Qed.

(** Three models over two steps: two with native intervals, and one
    whose bounds are not-a-number. *)
Definition example_dates : list Z := [201; 202]%Z.

Definition example_predicted : dict frame :=
  [ ("arima",
     {| index := [Num 201; Num 202];
        columns :=
          [ ("fcst", [Num 10; Num 11]);
            ("fcst_lower", [Num 8; Num 9]);
            ("fcst_upper", [Num 12; Num 13]) ] |});
    ("prophet",
     {| index := [Num 201; Num 202];
        columns :=
          [ ("fcst", [Num 14; Num 15]);
            ("fcst_lower", [Num 12; Num 14]);
            ("fcst_upper", [Num 16; Num 18]) ] |});
    ("linear",
     {| index := [Num 201; Num 202];
        columns :=
          [ ("fcst", [Num 12; Num 19]);
            ("fcst_lower", [NaN; NaN]);
            ("fcst_upper", [NaN; NaN]) ] |}) ].

Lemma aggregate_median_witness :
  exists out,
    aggregate "median" example_dates example_predicted None = Ok out
    /\ time out = example_dates
    /\ (forall i, (i < List.length example_dates)%nat ->
         median_of_kept false
           (map (fun f => cell_at f "fcst" i) (values example_predicted))
           (nth i (fcst out) NaN)
         /\ median_of_kept true
              (map (fun f => cell_at f "fcst_lower" i)
                   (values example_predicted))
              (nth i (fcst_lower out) NaN)
         /\ median_of_kept true
              (map (fun f => cell_at f "fcst_upper" i)
                   (values example_predicted))
              (nth i (fcst_upper out) NaN))
    /\ (forall ka fa kb fb kc fc i x y,
         example_predicted = [(ka, fa); (kb, fb); (kc, fc)] ->
         (i < List.length example_dates)%nat ->
         cell_at fa "fcst_lower" i = Num x ->
         cell_at fb "fcst_lower" i = Num y ->
         cell_at fc "fcst_lower" i = NaN ->
         (~ x == 0 -> ~ y == 0 ->
          exists m, nth i (fcst_lower out) NaN = Num m /\ m == (x + y) / 2)
         /\ (x == 0 -> ~ y == 0 -> nth i (fcst_lower out) NaN = Num y)).
Proof.
  apply (@aggregate_median example_dates example_predicted None).
  - discriminate.
  - reflexivity.
Defined.

(** The medians of the three models above: the point forecasts
    10, 14, 12 give 12, the lower bounds 8 and 12 give their mean. *)
Example aggregate_median_values :
  exists out lo,
    aggregate "median" example_dates example_predicted None = Ok out
    /\ fcst out = [Num 12; Num 15]
    /\ nth 0 (fcst_lower out) NaN = Num lo /\ lo == 10.
Proof.
  eexists. eexists. split; [reflexivity|]. repeat split; reflexivity.
Qed.

(** Three models over one step: the first one has a lower bound of
    exactly zero, the last one has no bounds. *)
Definition example_zero_bound : dict frame :=
  [ ("arima",
     {| index := [Num 201];
        columns :=
          [ ("fcst", [Num 10]);
            ("fcst_lower", [Num 0]);
            ("fcst_upper", [Num 12]) ] |});
    ("prophet",
     {| index := [Num 201];
        columns :=
          [ ("fcst", [Num 14]);
            ("fcst_lower", [Num 4]);
            ("fcst_upper", [Num 16]) ] |});
    ("linear",
     {| index := [Num 201];
        columns :=
          [ ("fcst", [Num 12]);
            ("fcst_lower", [NaN]);
            ("fcst_upper", [NaN]) ] |}) ].

(** C6, as stated, fails: with one model without bounds, the two finite
    lower bounds 0 and 4 do not give their median 2; the zero is dropped
    with the missing bound and the consensus is 4. *)
Lemma aggregate_median_drops_zero :
  exists out,
    aggregate "median" [201%Z] example_zero_bound None = Ok out
    /\ fcst_lower out = [Num 4]
    /\ ~ 4 == (0 + 4) / 2.
Proof.
  eexists. split; [reflexivity|]. split; [reflexivity|]. discriminate.
Qed.

(** *** Weighted-average mode *)

Lemma is_nan_iff (c : cell) : is_nan c = true <-> c = NaN.
Proof. destruct c; simpl; split; congruence. Qed.

Lemma any_null_iff (t : table) :
  any_null t = true <-> exists col, In col t /\ In NaN col.
Proof.
  unfold any_null. rewrite existsb_exists. split.
  - intros (col & I & H). apply existsb_exists in H.
    destruct H as (c & Ic & Hc). apply is_nan_iff in Hc. subst c.
    now exists col.
  - intros (col & I & H). exists col. split; [exact I|].
    apply existsb_exists. now exists NaN.
Qed.

(** A bound column of some model holds a not-a-number. *)
Definition missing_bound (predicted : dict frame) : Prop :=
  exists model f v,
    In (model, f) predicted
    /\ (get (columns f) "fcst_lower" = Some v
        \/ get (columns f) "fcst_upper" = Some v)
    /\ In NaN v.

Lemma any_null_bound (c : string) (n : nat) (predicted : dict frame) :
  (forall f, In f (values predicted) -> has_len n c f = true) ->
  any_null (map (col_of c) (values predicted)) = true
  <-> exists model f v,
        In (model, f) predicted /\ get (columns f) c = Some v /\ In NaN v.
Proof.
  intros Hlen. rewrite any_null_iff. split.
  - intros (col & I & H). apply in_map_iff in I.
    destruct I as (f & <- & I).
    assert (Hc := Hlen f I). unfold has_len in Hc. unfold col_of in H.
    apply in_map_iff in I. destruct I as ([model f'] & E & I).
    simpl in E. subst f'.
    destruct (get (columns f) c) as [v|] eqn:G; [|discriminate].
    now exists model, f, v.
  - intros (model & f & v & I & G & H). exists v. split; [|exact H].
    apply in_map_iff. exists f. split.
    + unfold col_of. now rewrite G.
    + apply in_map_iff. now exists (model, f).
Qed.

Lemma length_frame_dot (t : table) (w : list Q) (r : list cell) :
  frame_dot t w = Ok r -> List.length r = table_nrows t.
Proof.
  unfold frame_dot. destruct (Nat.eqb (List.length t) (List.length w));
    [|discriminate].
  intros [= <-]. now rewrite length_map, length_rows.
Qed.

Lemma aggregate_weighted_eq (dates : list Z) (predicted : dict frame)
    (ws : dict Q) :
  predicted <> [] ->
  aggregable (List.length dates) predicted = true ->
  List.length ws = List.length predicted ->
  aggregate "weightedavg" dates predicted (Some ws)
  = if any_null (map (col_of "fcst_lower") (values predicted))
       || any_null (map (col_of "fcst_upper") (values predicted))
    then Raise (ValueError ci_message)
    else
      Ok {| time := dates;
            fcst :=
              map (fun r => dot_row r (values ws))
                  (rows (map (col_of "fcst") (values predicted)));
            fcst_lower :=
              map (fun r => dot_row r (values ws))
                  (rows (map (col_of "fcst_lower") (values predicted)));
            fcst_upper :=
              map (fun r => dot_row r (values ws))
                  (rows (map (col_of "fcst_upper") (values predicted))) |}.
Proof.
  intros Hne Hag Hw. unfold aggregate.
  destruct (@collect_ok "fcst" _ _ Hne
              (@aggregable_has_len _ _ Hag _ (or_introl eq_refl))) as [-> Hf].
  destruct (@collect_ok "fcst_lower" _ _ Hne
              (@aggregable_has_len _ _ Hag _ (or_intror (or_introl eq_refl))))
    as [-> Hl].
  destruct (@collect_ok "fcst_upper" _ _ Hne
              (@aggregable_has_len _ _ Hag _ (or_intror (or_intror eq_refl))))
    as [-> Hu].
  cbn [bind].
  change (String.eqb (PyStr.lower "weightedavg") "median") with false.
  cbv iota. cbn [t_fcst t_lower t_upper].
  destruct (any_null (map (col_of "fcst_lower") (values predicted))
            || any_null (map (col_of "fcst_upper") (values predicted)));
    [reflexivity|].
  assert (Hd : forall c,
    frame_dot (map (col_of c) (values predicted)) (values ws)
    = Ok (map (fun r => dot_row r (values ws))
              (rows (map (col_of c) (values predicted))))).
  { intros c. unfold frame_dot, values.
    now rewrite !length_map, Hw, Nat.eqb_refl. }
  rewrite !Hd. cbn [bind].
  apply make_df_ok; rewrite length_map, length_rows; assumption.
Qed.

Lemma missing_bound_iff (n : nat) (predicted : dict frame) :
  aggregable n predicted = true ->
  any_null (map (col_of "fcst_lower") (values predicted))
  || any_null (map (col_of "fcst_upper") (values predicted)) = true
  <-> missing_bound predicted.
Proof.
  intros Hag. rewrite orb_true_iff.
  rewrite (@any_null_bound "fcst_lower" n predicted
             (@aggregable_has_len _ _ Hag _ (or_intror (or_introl eq_refl)))).
  rewrite (@any_null_bound "fcst_upper" n predicted
             (@aggregable_has_len _ _ Hag _ (or_intror (or_intror eq_refl)))).
  unfold missing_bound. split.
  - intros [(m & f & v & I & G & H)|(m & f & v & I & G & H)];
      exists m, f, v; tauto.
  - intros (m & f & v & I & [G|G] & H); [left | right];
      now exists m, f, v.
Qed.

(** **** The dot product of the specification

    The dot product of the values of the models in a row with the weight
    vector is the sum, over the positions of the models, of value times
    weight; with a not-a-number among the values it is not-a-number. *)

Definition weighted_sum (vs ws : list Q) : Q :=
  fold_right Qplus 0
    (map (fun i => nth i vs 0 * nth i ws 0) (seq 0 (List.length vs))).

Definition is_weighted_sum (row : list cell) (ws : list Q) (c : cell)
  : Prop :=
  (forall vs, row = map Num vs ->
     exists m, c = Num m /\ m == weighted_sum vs ws)
  /\ (In NaN row -> c = NaN).

Lemma weighted_sum_cons (v w : Q) (vs ws : list Q) :
  weighted_sum (v :: vs) (w :: ws) = v * w + weighted_sum vs ws.
Proof.
  unfold weighted_sum. cbn [List.length seq map fold_right nth].
  rewrite <- seq_shift, map_map. reflexivity.
Qed.

Lemma dot_row_numbers (vs ws : list Q) :
  List.length ws = List.length vs ->
  exists m, dot_row (map Num vs) ws = Num m /\ m == weighted_sum vs ws.
Proof.
  revert ws. induction vs as [|v vs IH]; intros [|w ws] Hl;
    try discriminate.
  - exists 0. split; reflexivity.
  - destruct (IH ws) as (m & Hm & Hq); [simpl in Hl; lia|].
    cbn [map dot_row]. rewrite Hm. cbn [cell_mul cell_add].
    eexists. split; [reflexivity|].
    rewrite weighted_sum_cons, Hq. reflexivity.
Qed.

Lemma dot_row_nan (row : list cell) (ws : list Q) :
  List.length ws = List.length row -> In NaN row -> dot_row row ws = NaN.
Proof.
  revert ws. induction row as [|c row IH]; intros [|w ws] Hl Hin;
    try discriminate; [destruct Hin|].
  cbn [dot_row]. destruct Hin as [->|Hin]; [reflexivity|].
  rewrite (IH ws); [|simpl in Hl; lia | exact Hin].
  now destruct (cell_mul c (Num w)).
Qed.

Lemma dot_row_weighted_sum (row : list cell) (ws : list Q) :
  List.length ws = List.length row ->
  is_weighted_sum row ws (dot_row row ws).
Proof.
  intros Hl. split.
  - intros vs ->. apply dot_row_numbers. now rewrite length_map in Hl.
  - now apply dot_row_nan.
Qed.

(** With every bound present, the bounds of a row are numbers. *)
Lemma present_bounds_numbers (c : string) (n i : nat)
    (predicted : dict frame) :
  (forall f, In f (values predicted) -> has_len n c f = true) ->
  ~ (exists model f v,
       In (model, f) predicted /\ get (columns f) c = Some v /\ In NaN v) ->
  (i < n)%nat ->
  exists vs, map (fun f => cell_at f c i) (values predicted) = map Num vs.
Proof.
  intros Hlen Hno Hi.
  induction predicted as [|[k f] predicted IH].
  - now exists [].
  - destruct IH as [vs Hvs].
    + intros g I. apply Hlen. now right.
    + intros (m & g & v & I & G & H). apply Hno.
      exists m, g, v. split; [now right | now split].
    + assert (Hf := Hlen f (or_introl eq_refl)).
      unfold has_len in Hf. cbn [values map snd].
      unfold cell_at at 1.
      destruct (get (columns f) c) as [v|] eqn:G; [|discriminate].
      apply Nat.eqb_eq in Hf.
      destruct (nth i v NaN) as [x|] eqn:E.
      * exists (x :: vs). cbn [map]. f_equal. exact Hvs.
      * exfalso. apply Hno. exists k, f, v.
        split; [now left|]. split; [exact G|].
        rewrite <- E. apply nth_In. lia.
Qed.

(** C7. Weighted-average mode: [aggregate] raises its validation error
    exactly when a model's fcst_lower or fcst_upper column holds a
    not-a-number; when no bound is missing, the bounds of every row are
    numbers, and each row of fcst, fcst_lower and fcst_upper is the dot
    product of the models' values in that row with the weight vector: the
    sum over the models of value times weight. *)
Theorem aggregate_weightedavg (dates : list Z) (predicted : dict frame)
    (ws : dict Q) :
  predicted <> [] ->
  aggregable (List.length dates) predicted = true ->
  List.length ws = List.length predicted ->
  (aggregate "weightedavg" dates predicted (Some ws)
   = Raise (ValueError ci_message)
   <-> missing_bound predicted)
  /\ (~ missing_bound predicted ->
      exists out,
        aggregate "weightedavg" dates predicted (Some ws) = Ok out
        /\ time out = dates
        /\ forall i, (i < List.length dates)%nat ->
           is_weighted_sum
             (map (fun f => cell_at f "fcst" i) (values predicted))
             (values ws) (nth i (fcst out) NaN)
           /\ is_weighted_sum
                (map (fun f => cell_at f "fcst_lower" i) (values predicted))
                (values ws) (nth i (fcst_lower out) NaN)
           /\ is_weighted_sum
                (map (fun f => cell_at f "fcst_upper" i) (values predicted))
                (values ws) (nth i (fcst_upper out) NaN)
           /\ (exists lo,
                 map (fun f => cell_at f "fcst_lower" i) (values predicted)
                 = map Num lo)
           /\ (exists up,
                 map (fun f => cell_at f "fcst_upper" i) (values predicted)
                 = map Num up)).
Proof.
  intros Hne Hag Hw. rewrite (@aggregate_weighted_eq _ _ _ Hne Hag Hw).
  pose proof (@missing_bound_iff _ _ Hag) as Hmb.
  destruct (any_null (map (col_of "fcst_lower") (values predicted))
            || any_null (map (col_of "fcst_upper") (values predicted))).
  - split.
    + split; [intros _; now apply Hmb | reflexivity].
    + intros Hno. exfalso. apply Hno. now apply Hmb.
  - split.
    + split; [discriminate|]. intros H. apply Hmb in H. discriminate.
    + intros Hno. eexists. split; [reflexivity|].
      cbn [time fcst fcst_lower fcst_upper]. split; [reflexivity|].
      intros i Hi.
      assert (Hf := proj2 (@collect_ok "fcst" _ _ Hne
                 (@aggregable_has_len _ _ Hag _ (or_introl eq_refl)))).
      assert (Hl := proj2 (@collect_ok "fcst_lower" _ _ Hne
                 (@aggregable_has_len _ _ Hag _
                    (or_intror (or_introl eq_refl))))).
      assert (Hu := proj2 (@collect_ok "fcst_upper" _ _ Hne
                 (@aggregable_has_len _ _ Hag _
                    (or_intror (or_intror eq_refl))))).
      rewrite !nth_rows by lia. rewrite !row_col_of.
      assert (Hlen : forall c : string,
                List.length (values ws)
                = List.length (map (fun f => cell_at f c i)
                                   (values predicted))).
      { intros c. unfold values. now rewrite !length_map. }
      split; [apply dot_row_weighted_sum, Hlen|].
      split; [apply dot_row_weighted_sum, Hlen|].
      split; [apply dot_row_weighted_sum, Hlen|].
      split.
      * apply (@present_bounds_numbers "fcst_lower" (List.length dates));
          [|intros (m & f & v & I & G & H)|exact Hi].
        -- exact (@aggregable_has_len _ _ Hag _
                    (or_intror (or_introl eq_refl))).
        -- apply Hno. exists m, f, v. tauto.
      * apply (@present_bounds_numbers "fcst_upper" (List.length dates));
          [|intros (m & f & v & I & G & H)|exact Hi].
        -- exact (@aggregable_has_len _ _ Hag _
                    (or_intror (or_intror eq_refl))).
        -- apply Hno. exists m, f, v. tauto.
Qed.

(** Two models with native intervals. *)
Definition example_native : dict frame :=
  [ ("arima",
     {| index := [Num 201];
        columns :=
          [ ("fcst", [Num 10]);
            ("fcst_lower", [Num 8]);
            ("fcst_upper", [Num 12]) ] |});
    ("prophet",
     {| index := [Num 201];
        columns :=
          [ ("fcst", [Num 20]);
            ("fcst_lower", [Num 16]);
            ("fcst_upper", [Num 24]) ] |}) ].

Definition example_weights : dict Q :=
  [ ("arima", 3 # 10); ("prophet", 7 # 10) ].

Lemma aggregate_weightedavg_witness :
  (aggregate "weightedavg" [201%Z] example_native (Some example_weights)
   = Raise (ValueError ci_message)
   <-> missing_bound example_native)
  /\ (~ missing_bound example_native ->
      exists out,
        aggregate "weightedavg" [201%Z] example_native (Some example_weights)
        = Ok out
        /\ time out = [201%Z]
        /\ forall i, (i < List.length [201%Z])%nat ->
           is_weighted_sum
             (map (fun f => cell_at f "fcst" i) (values example_native))
             (values example_weights) (nth i (fcst out) NaN)
           /\ is_weighted_sum
                (map (fun f => cell_at f "fcst_lower" i)
                     (values example_native))
                (values example_weights) (nth i (fcst_lower out) NaN)
           /\ is_weighted_sum
                (map (fun f => cell_at f "fcst_upper" i)
                     (values example_native))
                (values example_weights) (nth i (fcst_upper out) NaN)
           /\ (exists lo,
                 map (fun f => cell_at f "fcst_lower" i)
                     (values example_native)
                 = map Num lo)
           /\ (exists up,
                 map (fun f => cell_at f "fcst_upper" i)
                     (values example_native)
                 = map Num up)).
Proof.
  apply (@aggregate_weightedavg [201%Z] example_native example_weights).
  - discriminate.
  - reflexivity.
  - reflexivity.
Defined.

(** Weights 0.3 and 0.7 on forecasts 10 and 20 give 17. *)
Example aggregate_weightedavg_17 :
  exists out m,
    aggregate "weightedavg" [201%Z] example_native (Some example_weights)
    = Ok out
    /\ fcst out = [Num m] /\ m == 17.
Proof. eexists. eexists. split; [reflexivity|]. split; reflexivity. Qed.

(** A model without native interval makes the weighted average fail. *)
Example aggregate_weightedavg_nan :
  aggregate "weightedavg" example_dates example_predicted
    (Some [("arima", 1 # 2); ("prophet", 1 # 4); ("linear", 1 # 4)])
  = Raise (ValueError ci_message).
Proof. reflexivity. Qed.

(** *** The consensus stays within the range of the models *)

Lemma in_insert (a x : Q) (l : list Q) :
  In x (insert a l) <-> x = a \/ In x l.
Proof.
  induction l as [|y l IH]; simpl.
  - intuition.
  - destruct (Qle_bool a y); simpl; [intuition|].
    rewrite IH. intuition.
Qed.

Lemma in_sort (x : Q) (l : list Q) : In x (sort l) <-> In x l.
Proof.
  induction l as [|y l IH]; simpl; [tauto|].
  rewrite in_insert, IH. intuition.
Qed.

Lemma length_insert (a : Q) (l : list Q) :
  List.length (insert a l) = S (List.length l).
Proof.
  induction l as [|y l IH]; simpl; [reflexivity|].
  destruct (Qle_bool a y); simpl; [reflexivity | now rewrite IH].
Qed.

Lemma length_sort (l : list Q) : List.length (sort l) = List.length l.
Proof.
  induction l as [|y l IH]; simpl; [reflexivity|].
  now rewrite length_insert, IH.
Qed.

Lemma median_none (r : list cell) : numbers r = [] -> median r = NaN.
Proof. intros H. unfold median. now rewrite H. Qed.

(** The median of a row lies between any bounds of its numbers. *)
Lemma median_range (r : list cell) (lo hi : Q) :
  (forall x, In x (numbers r) -> lo <= x <= hi) ->
  numbers r <> [] ->
  exists m, median r = Num m /\ lo <= m <= hi.
Proof.
  intros Hr Hne. unfold median.
  assert (Hs : forall x, In x (sort (numbers r)) -> lo <= x <= hi).
  { intros x I. apply Hr. now apply in_sort. }
  assert (Hl : List.length (sort (numbers r)) <> O).
  { rewrite length_sort. destruct (numbers r); [congruence|discriminate]. }
  set (s := sort (numbers r)) in *.
  set (n := List.length s) in *.
  assert (Hmid : (n / 2 < n)%nat) by (apply Nat.div_lt; lia).
  assert (H2 : lo <= nth (n / 2) s 0 <= hi) by (apply Hs, nth_In; exact Hmid).
  assert (H1 : lo <= nth (n / 2 - 1) s 0 <= hi) by (apply Hs, nth_In; lia).
  destruct n as [|n']; [congruence|].
  destruct (Nat.even (S n')).
  - eexists. split; [reflexivity|].
    split.
    + apply Qle_shift_div_l; [reflexivity|]. lra.
    + apply Qle_shift_div_r; [reflexivity|]. lra.
  - eexists. split; [reflexivity | exact H2].
Qed.

Lemma numbers_in (r : list cell) (x : Q) :
  In x (numbers r) <-> In (Num x) r.
Proof.
  induction r as [|c r IH]; simpl; [tauto|].
  destruct c as [y|]; simpl; rewrite IH.
  - split; intros [H|H]; auto; left; congruence.
  - split; [auto | intros [H|H]; [discriminate | exact H]].
Qed.

Lemma replace_zero_num (c : cell) (x : Q) :
  replace_zero c = Num x -> c = Num x.
Proof.
  destruct c as [y|]; simpl; [|discriminate].
  destruct (Qeq_bool y 0); [discriminate | auto].
Qed.

(** X12. Median mode never leaves the range of the models: in a row where
    every model's point forecast is a number between [lo] and [hi], so is
    the consensus; and in a row where the models' lower (upper) bounds that
    are numbers lie between [lo] and [hi], the consensus bound is either
    not-a-number or between [lo] and [hi]. *)
Theorem aggregate_median_range (dates : list Z) (predicted : dict frame)
    (weights : option (dict Q)) (lo hi : Q) (i : nat) :
  predicted <> [] ->
  aggregable (List.length dates) predicted = true ->
  (i < List.length dates)%nat ->
  exists out,
    aggregate "median" dates predicted weights = Ok out
    /\ ((forall f, In f (values predicted) ->
           exists x, cell_at f "fcst" i = Num x /\ lo <= x <= hi) ->
        exists m, nth i (fcst out) NaN = Num m /\ lo <= m <= hi)
    /\ ((forall f x, In f (values predicted) ->
           cell_at f "fcst_lower" i = Num x -> lo <= x <= hi) ->
        nth i (fcst_lower out) NaN = NaN
        \/ exists m, nth i (fcst_lower out) NaN = Num m /\ lo <= m <= hi)
    /\ ((forall f x, In f (values predicted) ->
           cell_at f "fcst_upper" i = Num x -> lo <= x <= hi) ->
        nth i (fcst_upper out) NaN = NaN
        \/ exists m, nth i (fcst_upper out) NaN = Num m /\ lo <= m <= hi).
Proof.
  intros Hne Hag Hi. eexists.
  split; [now apply aggregate_median_ok|].
  cbn [fcst fcst_lower fcst_upper].
  assert (Hf := proj2 (@collect_ok "fcst" _ _ Hne
              (@aggregable_has_len _ _ Hag _ (or_introl eq_refl)))).
  assert (Hl := proj2 (@collect_ok "fcst_lower" _ _ Hne
              (@aggregable_has_len _ _ Hag _
                 (or_intror (or_introl eq_refl))))).
  assert (Hu := proj2 (@collect_ok "fcst_upper" _ _ Hne
              (@aggregable_has_len _ _ Hag _
                 (or_intror (or_intror eq_refl))))).
  unfold median_axis1.
  rewrite !nth_rows by (rewrite ?table_nrows_map; lia).
  rewrite !row_replace_zero, !row_col_of, !map_map.
  assert (Hbound : forall c,
    (forall f x, In f (values predicted) ->
       cell_at f c i = Num x -> lo <= x <= hi) ->
    median (map (fun f => replace_zero (cell_at f c i)) (values predicted))
    = NaN
    \/ exists m,
         median (map (fun f => replace_zero (cell_at f c i))
                     (values predicted)) = Num m
         /\ lo <= m <= hi).
  { intros c H.
    destruct (numbers (map (fun f => replace_zero (cell_at f c i))
                           (values predicted))) eqn:En.
    - left. now apply median_none.
    - right. apply median_range; [|congruence].
      intros x I. apply numbers_in, in_map_iff in I.
      destruct I as (f & E & I). apply replace_zero_num in E.
      now apply (H f x). }
  split; [|split; apply Hbound].
  intros H. apply median_range.
  - intros x I. apply numbers_in, in_map_iff in I.
    destruct I as (f & E & I). destruct (H f I) as (y & Ey & Hy).
    rewrite Ey in E. injection E as <-. exact Hy.
  - destruct (values predicted) as [|f fs] eqn:Ev.
    + destruct predicted; [congruence | discriminate].
    + simpl. destruct (H f (or_introl eq_refl)) as (y & -> & _).
      discriminate.
Qed.

Lemma aggregate_median_range_witness :
  exists out,
    aggregate "median" example_dates example_predicted None = Ok out
    /\ ((forall f, In f (values example_predicted) ->
           exists x, cell_at f "fcst" 0 = Num x /\ 10 <= x <= 14) ->
        exists m, nth 0 (fcst out) NaN = Num m /\ 10 <= m <= 14)
    /\ ((forall f x, In f (values example_predicted) ->
           cell_at f "fcst_lower" 0 = Num x -> 10 <= x <= 14) ->
        nth 0 (fcst_lower out) NaN = NaN
        \/ exists m, nth 0 (fcst_lower out) NaN = Num m /\ 10 <= m <= 14)
    /\ ((forall f x, In f (values example_predicted) ->
           cell_at f "fcst_upper" 0 = Num x -> 10 <= x <= 14) ->
        nth 0 (fcst_upper out) NaN = NaN
        \/ exists m, nth 0 (fcst_upper out) NaN = Num m /\ 10 <= m <= 14).
Proof.
  apply (@aggregate_median_range example_dates example_predicted None
           10 14 0%nat).
  - discriminate.
  - reflexivity.
  - simpl. lia.
Defined.

(** Two weights, as a mapping from model name. *)
Definition example_errors : dict Q :=
  [ ("arima", 1 # 10); ("prophet", 3 # 10) ].

(** *** Forecasts without native interval, from re-seasonalization to
    aggregation *)

Lemma length_zip_with (op : cell -> cell -> cell) (u v : list cell) :
  List.length (zip_with op u v) = Nat.min (List.length u) (List.length v).
Proof.
  revert v. induction u as [|a u IH]; intros [|b v]; simpl; try reflexivity.
  now rewrite IH.
Qed.

Lemma nth_repeat_lt (c : cell) (n i : nat) :
  (i < n)%nat -> nth i (repeat c n) NaN = c.
Proof.
  revert i. induction n as [|n IH]; intros [|i] H; simpl; try lia;
    [reflexivity | apply IH; lia].
Qed.

(** The batch as [reseasonalize] returns it. *)
Definition reseasonalized_batch (method : string) (sea_value : list cell)
    (period steps : Z) (d : dict frame) : dict frame :=
  map (fun kf =>
         (fst kf,
          reseasonalized method (spec_unit sea_value period steps) (snd kf)))
      d.

Section WithoutBounds.
Variable sea_value : list cell.
Variable desea_predict : dict frame.
Variables period steps : Z.
Hypothesis period_pos : (0 < period)%Z.
Hypothesis steps_nonneg : (0 <= steps)%Z.
Hypothesis period_fits : (period <= Z.of_nat (List.length sea_value))%Z.
Hypothesis batch_wf : wf desea_predict.
Hypothesis batch_shape : forecasts_shape (Z.to_nat steps) desea_predict = true.
Hypothesis no_bounds :
  forall f, In f (values desea_predict) -> with_bounds f = false.

Lemma dummy_columns (method : string) (out : frame) :
  In out (values (reseasonalized_batch method sea_value period steps
                    desea_predict)) ->
  has_len (Z.to_nat steps) "fcst" out = true
  /\ get (columns out) "fcst_lower"
     = Some (repeat (fill_of method) (Z.to_nat steps))
  /\ get (columns out) "fcst_upper"
     = Some (repeat (fill_of method) (Z.to_nat steps)).
Proof.
  intros I. unfold values, reseasonalized_batch in I.
  rewrite map_map in I. apply in_map_iff in I.
  destruct I as ([k f] & <- & I). simpl.
  assert (If : In f (values desea_predict)).
  { apply in_map_iff. now exists (k, f). }
  assert (Hsh : forecast_shape (Z.to_nat steps) f = true).
  { unfold forecasts_shape in batch_shape.
    rewrite forallb_forall in batch_shape. exact (batch_shape _ I). }
  destruct (shape_fcst _ _ Hsh) as [Hr [fc Hf]].
  assert (Hlf : List.length fc = Z.to_nat steps).
  { unfold forecast_shape in Hsh. rewrite !andb_true_iff in Hsh.
    destruct Hsh as [[[_ Hc] _] _]. apply Nat.eqb_eq.
    exact (forallb_get
             (fun v => Nat.eqb (List.length v) (Z.to_nat steps)) _ _ Hc Hf). }
  unfold reseasonalized. rewrite (no_bounds f If). cbn [columns].
  rewrite Hf, Hr. split; [|split; reflexivity].
  unfold has_len. cbn [columns get]. cbn.
  rewrite length_zip_with, Hlf.
  rewrite (proj2 (proj2 (seasonal_unit_spec sea_value period_pos
                           steps_nonneg period_fits))).
  rewrite Nat.min_id. apply Nat.eqb_refl.
Qed.

Lemma dummy_aggregable (method : string) :
  aggregable (Z.to_nat steps)
    (reseasonalized_batch method sea_value period steps desea_predict)
  = true.
Proof.
  unfold aggregable. apply forallb_forall. intros [k out] I.
  assert (Io : In out (values (reseasonalized_batch method sea_value period
                                 steps desea_predict))).
  { apply in_map_iff. now exists (k, out). }
  destruct (dummy_columns method out Io) as (H1 & H2 & H3).
  cbn [snd]. rewrite H1. unfold has_len. rewrite H2, H3.
  now rewrite repeat_length, Nat.eqb_refl.
Qed.

Lemma dummy_cells (method : string) (out : frame) (i : nat) :
  In out (values (reseasonalized_batch method sea_value period steps
                    desea_predict)) ->
  (i < Z.to_nat steps)%nat ->
  cell_at out "fcst_lower" i = fill_of method
  /\ cell_at out "fcst_upper" i = fill_of method.
Proof.
  intros I Hi. destruct (dummy_columns method out I) as (_ & H2 & H3).
  unfold cell_at. rewrite H2, H3. split; now apply nth_repeat_lt.
Qed.

End WithoutBounds.

Lemma median_all_nan (r : list cell) :
  (forall c, In c r -> c = NaN) -> median r = NaN.
Proof.
  intros H. apply median_none. induction r as [|c r IH]; [reflexivity|].
  rewrite (H c (or_introl eq_refl)). simpl. apply IH.
  intros c' I. apply H. now right.
Qed.

(** X14. When no model of a batch has a native interval, the bounds that
    re-seasonalization makes up never reach a median: whether they are the
    zeros of the multiplicative path or the not-a-numbers of the additive
    one, [aggregate] in median mode returns not-a-number in every row of
    fcst_lower and fcst_upper. *)
Theorem dummy_bounds_median (method : string) (sea_value : list cell)
    (desea_predict : dict frame) (period steps : Z) (dates : list Z)
    (weights : option (dict Q)) :
  (0 < period)%Z -> (0 <= steps)%Z ->
  (period <= Z.of_nat (List.length sea_value))%Z ->
  wf desea_predict ->
  desea_predict <> [] ->
  forecasts_shape (Z.to_nat steps) desea_predict = true ->
  (forall f, In f (values desea_predict) -> with_bounds f = false) ->
  List.length dates = Z.to_nat steps ->
  exists predicted out,
    reseasonalize sea_value desea_predict method period steps = Ok predicted
    /\ aggregate "median" dates predicted weights = Ok out
    /\ forall i, (i < List.length dates)%nat ->
         nth i (fcst_lower out) NaN = NaN
         /\ nth i (fcst_upper out) NaN = NaN.
Proof.
  intros Hp Hs Hl Hwf Hne Hsh Hnb Hd.
  exists (reseasonalized_batch method sea_value period steps desea_predict).
  assert (Hne' : reseasonalized_batch method sea_value period steps
                   desea_predict <> []).
  { destruct desea_predict; [congruence | discriminate]. }
  assert (Hag : aggregable (List.length dates)
                  (reseasonalized_batch method sea_value period steps
                     desea_predict) = true).
  { rewrite Hd. now apply dummy_aggregable. }
  eexists. split; [now apply reseasonalize_ok|].
  split; [now apply aggregate_median_ok|].
  intros i Hi. cbn [fcst_lower fcst_upper].
  assert (Hlo := proj2 (@collect_ok "fcst_lower" _ _ Hne'
              (@aggregable_has_len _ _ Hag _
                 (or_intror (or_introl eq_refl))))).
  assert (Hup := proj2 (@collect_ok "fcst_upper" _ _ Hne'
              (@aggregable_has_len _ _ Hag _
                 (or_intror (or_intror eq_refl))))).
  unfold median_axis1.
  rewrite !nth_rows by (rewrite ?table_nrows_map; lia).
  rewrite !row_replace_zero, !row_col_of, !map_map.
  assert (Hfill : replace_zero (fill_of method) = NaN).
  { unfold fill_of. now destruct (String.eqb method "additive"). }
  split; apply median_all_nan; intros c I; apply in_map_iff in I;
    destruct I as (out & <- & I);
    destruct (@dummy_cells sea_value desea_predict period steps Hp Hs Hl
                Hsh Hnb method out i I ltac:(lia)) as [H1 H2];
    rewrite ?H1, ?H2; exact Hfill.
Qed.

Lemma dot_row_zeros (r : list cell) (w : list Q) :
  (forall c, In c r -> c = Num 0) ->
  exists z, dot_row r w = Num z /\ z == 0.
Proof.
  revert w. induction r as [|c r IH]; intros [|x w] H; simpl;
    try (exists 0; split; reflexivity).
  rewrite (H c (or_introl eq_refl)).
  destruct (IH w) as (z & -> & Hz); [intros c' I; apply H; now right|].
  simpl. eexists. split; [reflexivity|]. rewrite Hz. ring.
Qed.

(** X15. The weighted average tells the two made-up bounds apart.  When no
    model of a batch has a native interval, after multiplicative
    re-seasonalization [aggregate] in weighted-average mode does not raise:
    its check finds no not-a-number, and it returns a lower and an upper
    bound equal to zero in every row; after additive re-seasonalization of
    the same batch it raises its validation error. *)
Theorem dummy_bounds_weightedavg (sea_value : list cell)
    (desea_predict : dict frame) (period steps : Z) (dates : list Z)
    (ws : dict Q) :
  (0 < period)%Z -> (0 < steps)%Z ->
  (period <= Z.of_nat (List.length sea_value))%Z ->
  wf desea_predict ->
  desea_predict <> [] ->
  forecasts_shape (Z.to_nat steps) desea_predict = true ->
  (forall f, In f (values desea_predict) -> with_bounds f = false) ->
  List.length dates = Z.to_nat steps ->
  List.length ws = List.length desea_predict ->
  (exists predicted out,
     reseasonalize sea_value desea_predict "multiplicative" period steps
     = Ok predicted
     /\ aggregate "weightedavg" dates predicted (Some ws) = Ok out
     /\ forall i, (i < List.length dates)%nat ->
          (exists z, nth i (fcst_lower out) NaN = Num z /\ z == 0)
          /\ (exists z, nth i (fcst_upper out) NaN = Num z /\ z == 0))
  /\ (exists predicted,
        reseasonalize sea_value desea_predict "additive" period steps
        = Ok predicted
        /\ aggregate "weightedavg" dates predicted (Some ws)
           = Raise (ValueError ci_message)).
Proof.
  intros Hp Hs0 Hl Hwf Hne Hsh Hnb Hd Hw.
  assert (Hs : (0 <= steps)%Z) by lia.
  assert (Hne' : forall method,
            reseasonalized_batch method sea_value period steps
              desea_predict <> []).
  { intros method. destruct desea_predict; [congruence | discriminate]. }
  assert (Hag : forall method,
            aggregable (List.length dates)
              (reseasonalized_batch method sea_value period steps
                 desea_predict) = true).
  { intros method. rewrite Hd. now apply dummy_aggregable. }
  assert (Hlen : forall method,
            List.length ws
            = List.length (reseasonalized_batch method sea_value period
                             steps desea_predict)).
  { intros method. unfold reseasonalized_batch. now rewrite length_map. }
  split.
  - exists (reseasonalized_batch "multiplicative" sea_value period steps
              desea_predict).
    rewrite (@aggregate_weighted_eq _ _ _ (Hne' _) (Hag _) (Hlen _)).
    pose proof (@missing_bound_iff _ _ (Hag "multiplicative")) as Hiff.
    destruct (any_null _ || any_null _).
    + exfalso. destruct (proj1 Hiff eq_refl) as (model & f & v & I & G & H).
      assert (Io : In f (values (reseasonalized_batch "multiplicative"
                                   sea_value period steps desea_predict))).
      { apply in_map_iff. now exists (model, f). }
      destruct (@dummy_columns sea_value desea_predict period steps Hp Hs Hl
                  Hsh Hnb "multiplicative" f Io) as (_ & H2 & H3).
      rewrite H2, H3 in G.
      assert (E : v = repeat (Num 0) (Z.to_nat steps))
        by (destruct G as [G|G]; now injection G).
      subst v. apply repeat_spec in H. discriminate.
    + eexists. split; [now apply reseasonalize_ok|].
      split; [reflexivity|]. intros i Hi. cbn [fcst_lower fcst_upper].
      assert (Hlo := proj2 (@collect_ok "fcst_lower" _ _ (Hne' _)
                 (@aggregable_has_len _ _ (Hag "multiplicative") _
                    (or_intror (or_introl eq_refl))))).
      assert (Hup := proj2 (@collect_ok "fcst_upper" _ _ (Hne' _)
                 (@aggregable_has_len _ _ (Hag "multiplicative") _
                    (or_intror (or_intror eq_refl))))).
      rewrite !nth_rows by lia. rewrite !row_col_of.
      split; apply dot_row_zeros; intros c I; apply in_map_iff in I;
        destruct I as (out & <- & I);
        destruct (@dummy_cells sea_value desea_predict period steps Hp Hs
                    Hl Hsh Hnb "multiplicative" out i I ltac:(lia))
          as [H1 H2]; rewrite ?H1, ?H2; reflexivity.
  - exists (reseasonalized_batch "additive" sea_value period steps
              desea_predict).
    split; [now apply reseasonalize_ok|].
    rewrite (@aggregate_weighted_eq _ _ _ (Hne' _) (Hag _) (Hlen _)).
    pose proof (@missing_bound_iff _ _ (Hag "additive")) as Hiff.
    destruct (any_null _ || any_null _); [reflexivity|].
    exfalso. assert (Hm : missing_bound
                            (reseasonalized_batch "additive" sea_value
                               period steps desea_predict)).
    { destruct desea_predict as [|[k f] rest] eqn:Ed; [congruence|].
      rewrite <- Ed in *.
      set (out := reseasonalized "additive"
                    (spec_unit sea_value period steps) f).
      assert (Iin : In (k, out)
                      (reseasonalized_batch "additive" sea_value period
                         steps desea_predict)).
      { rewrite Ed. left. reflexivity. }
      assert (Io : In out (values (reseasonalized_batch "additive"
                                     sea_value period steps desea_predict))).
      { apply in_map_iff. now exists (k, out). }
      destruct (@dummy_columns sea_value desea_predict period steps Hp Hs Hl
                  Hsh Hnb "additive" out Io) as (_ & H2 & _).
      exists k, out, (repeat NaN (Z.to_nat steps)).
      split; [exact Iin|]. split; [left; exact H2|].
      destruct (Z.to_nat steps) eqn:En; [lia|]. now left. }
    apply Hiff in Hm. discriminate.
Qed.

(** A batch of two models without native interval, over three steps. *)
Definition example_no_interval : dict frame :=
  [ ("linear",
     {| index := [Num 101; Num 102; Num 103];
        columns := [ ("fcst", [Num 20; Num 21; Num 22]) ] |});
    ("quadratic",
     {| index := [Num 101; Num 102; Num 103];
        columns := [ ("fcst", [Num 30; Num 31; Num 32]) ] |}) ].

Lemma dummy_bounds_median_witness :
  exists predicted out,
    reseasonalize example_seasonal example_no_interval "multiplicative" 2 3
    = Ok predicted
    /\ aggregate "median" [101; 102; 103]%Z predicted None = Ok out
    /\ forall i, (i < List.length [101; 102; 103]%Z)%nat ->
         nth i (fcst_lower out) NaN = NaN
         /\ nth i (fcst_upper out) NaN = NaN.
Proof.
  apply (@dummy_bounds_median "multiplicative" example_seasonal
           example_no_interval 2 3 [101; 102; 103]%Z None).
  - reflexivity.
  - discriminate.
  - discriminate.
  - apply wfb_wf. reflexivity.
  - discriminate.
  - reflexivity.
  - intros f [<-|[<-|[]]]; reflexivity.
  - reflexivity.
Defined.

Lemma dummy_bounds_weightedavg_witness :
  (exists predicted out,
     reseasonalize example_seasonal example_no_interval "multiplicative" 2 3
     = Ok predicted
     /\ aggregate "weightedavg" [101; 102; 103]%Z predicted
          (Some example_errors) = Ok out
     /\ forall i, (i < List.length [101; 102; 103]%Z)%nat ->
          (exists z, nth i (fcst_lower out) NaN = Num z /\ z == 0)
          /\ (exists z, nth i (fcst_upper out) NaN = Num z /\ z == 0))
  /\ (exists predicted,
        reseasonalize example_seasonal example_no_interval "additive" 2 3
        = Ok predicted
        /\ aggregate "weightedavg" [101; 102; 103]%Z predicted
             (Some example_errors)
           = Raise (ValueError ci_message)).
Proof.
  apply (@dummy_bounds_weightedavg example_seasonal example_no_interval
           2 3 [101; 102; 103]%Z example_errors).
  - reflexivity.
  - reflexivity.
  - discriminate.
  - apply wfb_wf. reflexivity.
  - discriminate.
  - reflexivity.
  - intros f [<-|[<-|[]]]; reflexivity.
  - reflexivity.
  - reflexivity.
Defined.

(** *** What [aggregate] refuses *)

Lemma map_res_column_all (c : string) (fs : list frame) :
  (forall f, In f fs -> get (columns f) c <> None) ->
  exists cols,
    map_res (fun x => column x c) fs = Ok cols
    /\ List.length cols = List.length fs.
Proof.
  induction fs as [|f fs IH]; intros H; simpl.
  - now exists [].
  - destruct IH as (cols & -> & Hl); [intros g I; apply H; now right|].
    unfold column. specialize (H f (or_introl eq_refl)).
    destruct (get (columns f) c) as [v|]; [|congruence].
    cbn [bind]. exists (v :: cols). split; [reflexivity|]. simpl. now rewrite Hl.
Qed.

Lemma map_res_column_missing (c : string) (fs : list frame) :
  (exists f, In f fs /\ get (columns f) c = None) ->
  map_res (fun x => column x c) fs = Raise (KeyError c).
Proof.
  induction fs as [|f fs IH]; intros (g & I & Hg); [contradiction|].
  simpl. unfold column at 1.
  destruct (get (columns f) c) as [v|] eqn:E; [|reflexivity].
  cbn [bind]. rewrite IH; [reflexivity|].
  destruct I as [<-|I]; [congruence|]. now exists g.
Qed.

(** X16. [aggregate] needs forecasts with all three columns, in either
    mode: with no forecast at all the stacking raises a value error, and
    when every forecast has fcst but some forecast has no fcst_lower column
    it raises the key error of that column, before the aggregation mode is
    looked at. *)
Theorem aggregate_refuses (aggregation : string) (dates : list Z)
    (predicted : dict frame) (weights : option (dict Q)) :
  (predicted = [] ->
   aggregate aggregation dates predicted weights
   = Raise (ValueError "No objects to concatenate"))
  /\ ((forall f, In f (values predicted) ->
         get (columns f) "fcst" <> None) ->
      (exists f, In f (values predicted)
                 /\ get (columns f) "fcst_lower" = None) ->
      aggregate aggregation dates predicted weights
      = Raise (KeyError "fcst_lower")).
Proof.
  split.
  - intros ->. reflexivity.
  - intros Hall Hmiss. unfold aggregate, collect.
    destruct (map_res_column_all "fcst" (values predicted) Hall)
      as (cols & -> & Hl).
    cbn [bind]. unfold concat_columns at 1.
    destruct cols as [|col cols].
    + destruct Hmiss as (f & I & _). destruct (values predicted);
        [contradiction | discriminate].
    + cbn [bind]. now rewrite (map_res_column_missing _ _ Hmiss).
Qed.

(** *** [clean_dummy_CI] *)

Definition no_nan (t : table) : Prop :=
  forall col c, In col t -> In c col -> c <> NaN.

Definition no_zero (t : table) : Prop :=
  forall col x, In col t -> In (Num x) col -> ~ x == 0.

Lemma replace_fillna (c : cell) :
  replace_zero (fillna_zero c) = replace_zero c.
Proof. destruct c; reflexivity. Qed.

(** X17. [clean_dummy_CI] touches the bounds only.  With [use_zero] the
    bounds come out without not-a-number, without it they come out without
    zero; and cleaning with [use_zero] first and without it afterwards is
    the same as cleaning without it: a bound once missing ends as
    not-a-number in both representations. *)
Theorem clean_dummy_CI_bounds (fcsts : stacked) :
  t_fcst (clean_dummy_CI fcsts true) = t_fcst fcsts
  /\ t_fcst (clean_dummy_CI fcsts false) = t_fcst fcsts
  /\ no_nan (t_lower (clean_dummy_CI fcsts true))
  /\ no_nan (t_upper (clean_dummy_CI fcsts true))
  /\ no_zero (t_lower (clean_dummy_CI fcsts false))
  /\ no_zero (t_upper (clean_dummy_CI fcsts false))
  /\ clean_dummy_CI (clean_dummy_CI fcsts true) false
     = clean_dummy_CI fcsts false.
Proof.
  assert (Hn : forall t, no_nan (map (map fillna_zero) t)).
  { intros t col c I Ic. apply in_map_iff in I. destruct I as (col' & <- & _).
    apply in_map_iff in Ic. destruct Ic as (c' & <- & _).
    destruct c'; discriminate. }
  assert (Hz : forall t, no_zero (map (map replace_zero) t)).
  { intros t col x I Ic. apply in_map_iff in I.
    destruct I as (col' & <- & _).
    apply in_map_iff in Ic. destruct Ic as (c' & E & _).
    destruct c' as [y|]; simpl in E; [|discriminate].
    destruct (Qeq_bool y 0) eqn:Ey; [discriminate|].
    injection E as <-. intros H. apply Qeq_eq_bool in H. congruence. }
  assert (Hc : forall t,
            map (map replace_zero) (map (map fillna_zero) t)
            = map (map replace_zero) t).
  { intros t. rewrite map_map. apply map_ext. intros col.
    rewrite map_map. apply map_ext. exact replace_fillna. }
  unfold clean_dummy_CI. cbn [t_fcst t_lower t_upper].
  repeat split; auto. now rewrite !Hc.
Qed.

End Aggregate.

(** ** The ensemble: construction, validation and [fit] *)

Module Ensemble.
Import PyDict Registry.
Local Open Scope string_scope.
Local Open Scope Z_scope.

(** [TimeSeriesData] *)
Record TimeSeriesData : Type := {
  ts_time : list Z;
  ts_value : list Frame.cell
}.

(** A key of the [params] dictionary that may be left out, or given as
    [None], or given a value. *)
Inductive entry (A : Type) : Type :=
| Absent
| IsNone
| Given (a : A).

Arguments Absent {A}.
Arguments IsNone {A}.
Arguments Given {A} a.

Section WithCollaborators.

(** The parameter bundle of a model and a fitted model are opaque. *)
Variable Params : Type.
Variable Fitted : Type.

(** [ACFDetector(data).detector(); detector.seasonality_detected] *)
Variable seasonality_detected : TimeSeriesData -> bool.

(** [TimeSeriesDecomposition(data, method).decomposer()["seasonal"]] *)
Variable decomposed_seasonal : TimeSeriesData -> string -> TimeSeriesData.

(** [m = model_func(params=model_param, data=data); m.fit()] *)
Variable model_fit : model_class -> Params -> TimeSeriesData -> result Fitted.

(** [BackTesterSimple([err_method], data, params, 80, 20, model_class)],
    [run_backtest()], [get_error_value(err_method)] *)
Variable backtest_error :
  TimeSeriesData -> Params -> model_class -> result Q.

(** [multiprocessing.cpu_count()] *)
Variable cpu_count : Z.

(** The frequency that [pd.infer_freq] reads off three time stamps or
    more: its name, or [None] when the stamps fit none. *)
Variable inferred_freq : list Z -> option string.

(** [BaseModelParams] *)
Record BaseModelParams : Type := {
  model_name : string;
  model_params : Params
}.

Definition fit_result : Type := (dict Fitted * option (dict Q))%type.

(** A customized executor, as a caller supplies it. *)
Definition fit_executor : Type :=
  TimeSeriesData -> list BaseModelParams -> bool -> result fit_result.

Definition forecast_executor : Type :=
  TimeSeriesData -> list BaseModelParams -> Z -> bool ->
  result (dict Frame.frame * option (dict Q)).

(** The [params] dictionary; [models] is [params["models"].models]. *)
Record params : Type := {
  models : list BaseModelParams;
  aggregation : string;
  decomposition_method : string;
  seasonality_length : option Z;
  forecastExecutor_key : entry forecast_executor;
  fitExecutor_key : entry fit_executor
}.

(** The attributes of a [KatsEnsemble] object.  An attribute that has not
    been assigned is [None]; [fitExecutor_attr] and [forecastExecutor_attr]
    are the instance attributes that shadow the methods of the class. *)
Record ensemble : Type := {
  data : TimeSeriesData;
  freq : option string;
  self_params : params;
  decomposition_method_attr : string;
  forecastExecutor_attr : option forecast_executor;
  fitExecutor_attr : option fit_executor;
  seasonality : option bool;
  sea_data : option TimeSeriesData;
  desea_data : option TimeSeriesData;
  model_params_attr : option (list BaseModelParams);
  fitted : option (dict Fitted);
  weights : option (option (dict Q));
  errors : option (dict Q)
}.

(** The result of a method that mutates the object: the object as the
    method left it, on return and on an exception alike. *)
Inductive outcome : Type :=
| Returned (self : ensemble)
| Raised (e : exn) (self : ensemble).

Definition aggregation_message (method : string) : string :=
  "Only support `median` or `weightedavg` ensemble,            but get "
  ++ method ++ ".".

Definition seasonality_message : string :=
  "seasonality_length value cannot be larger than".

(** [len(self.data.time)] *)
Definition len_time (d : TimeSeriesData) : Z :=
  Z.of_nat (List.length (ts_time d)).

(** [validate_params], on the object [__init__] has filled in *)
Definition validate_params (self : ensemble) : result ensemble :=
  let p := self_params self in
  if negb (String.eqb (aggregation p) "median"
           || String.eqb (aggregation p) "weightedavg")
  then Raise (ValueError (aggregation_message (aggregation p)))
  else
    let method :=
      if String.eqb (decomposition_method p) "additive"
         || String.eqb (decomposition_method p) "multiplicative"
      then decomposition_method p else "additive" in
    if match seasonality_length p with
       | Some m => m >? len_time (data self) / 2
       | None => false
       end
    then Raise (ValueError seasonality_message)
    else
      Ok {| data := data self;
            freq := freq self;
            self_params := p;
            decomposition_method_attr := method;
            forecastExecutor_attr :=
              match forecastExecutor_key p with
              | Given f => Some f
              | _ => forecastExecutor_attr self
              end;
            fitExecutor_attr :=
              match fitExecutor_key p with
              | Given f => Some f
              | _ => fitExecutor_attr self
              end;
            seasonality := seasonality self;
            sea_data := sea_data self;
            desea_data := desea_data self;
            model_params_attr := model_params_attr self;
            fitted := fitted self;
            weights := weights self;
            errors := errors self |}.

Definition infer_freq_message : string :=
  "Need at least 3 dates to infer frequency".

(** [pd.infer_freq(data.time)]: fewer than three time stamps raise. *)
Definition infer_freq (time : list Z) : result (option string) :=
  if Z.of_nat (List.length time) <? 3
  then Raise (ValueError infer_freq_message)
  else Ok (inferred_freq time).

(** [KatsEnsemble(data, params)]: the frequency is inferred before the
    parameters are validated. *)
Definition init (d : TimeSeriesData) (p : params) : result ensemble :=
  f <- infer_freq (ts_time d) ;;
  validate_params
    {| data := d;
       freq := f;
       self_params := p;
       decomposition_method_attr := "";
       forecastExecutor_attr := None;
       fitExecutor_attr := None;
       seasonality := None;
       sea_data := None;
       desea_data := None;
       model_params_attr := None;
       fitted := None;
       weights := None;
       errors := None |}.

(** *** Assignments to attributes *)

Definition set_seasonality (self : ensemble) (b : bool) : ensemble :=
  {| data := data self;
     freq := freq self;
     self_params := self_params self;
     decomposition_method_attr := decomposition_method_attr self;
     forecastExecutor_attr := forecastExecutor_attr self;
     fitExecutor_attr := fitExecutor_attr self;
     seasonality := Some b;
     sea_data := sea_data self;
     desea_data := desea_data self;
     model_params_attr := model_params_attr self;
     fitted := fitted self;
     weights := weights self;
     errors := errors self |}.

Definition set_components (self : ensemble) (sea desea : TimeSeriesData)
  : ensemble :=
  {| data := data self;
     freq := freq self;
     self_params := self_params self;
     decomposition_method_attr := decomposition_method_attr self;
     forecastExecutor_attr := forecastExecutor_attr self;
     fitExecutor_attr := fitExecutor_attr self;
     seasonality := seasonality self;
     sea_data := Some sea;
     desea_data := Some desea;
     model_params_attr := model_params_attr self;
     fitted := fitted self;
     weights := weights self;
     errors := errors self |}.

Definition set_model_params (self : ensemble) (ms : list BaseModelParams)
  : ensemble :=
  {| data := data self;
     freq := freq self;
     self_params := self_params self;
     decomposition_method_attr := decomposition_method_attr self;
     forecastExecutor_attr := forecastExecutor_attr self;
     fitExecutor_attr := fitExecutor_attr self;
     seasonality := seasonality self;
     sea_data := sea_data self;
     desea_data := desea_data self;
     model_params_attr := Some ms;
     fitted := fitted self;
     weights := weights self;
     errors := errors self |}.

Definition set_fitted (self : ensemble) (f : dict Fitted)
    (w : option (dict Q)) : ensemble :=
  {| data := data self;
     freq := freq self;
     self_params := self_params self;
     decomposition_method_attr := decomposition_method_attr self;
     forecastExecutor_attr := forecastExecutor_attr self;
     fitExecutor_attr := fitExecutor_attr self;
     seasonality := seasonality self;
     sea_data := sea_data self;
     desea_data := desea_data self;
     model_params_attr := model_params_attr self;
     fitted := Some f;
     weights := Some w;
     errors := errors self |}.

Definition set_errors (self : ensemble) (e : dict Q) : ensemble :=
  {| data := data self;
     freq := freq self;
     self_params := self_params self;
     decomposition_method_attr := decomposition_method_attr self;
     forecastExecutor_attr := forecastExecutor_attr self;
     fitExecutor_attr := fitExecutor_attr self;
     seasonality := seasonality self;
     sea_data := sea_data self;
     desea_data := desea_data self;
     model_params_attr := model_params_attr self;
     fitted := fitted self;
     weights := weights self;
     errors := Some e |}.

(** *** Methods that return a value and may assign attributes *)

Inductive run (A : Type) : Type :=
| Done (a : A) (self : ensemble)
| Fail (e : exn) (self : ensemble).

Arguments Done {A} a self.
Arguments Fail {A} e self.

Definition lift {A : Type} (r : result A) (self : ensemble) : run A :=
  match r with
  | Ok a => Done a self
  | Raise e => Fail e self
  end.

Definition and_then {A B : Type} (r : run A) (k : A -> ensemble -> run B)
  : run B :=
  match r with
  | Done a self => k a self
  | Fail e self => Fail e self
  end.

(** *** Decomposition *)

Definition cell_sub (a b : Frame.cell) : Frame.cell :=
  match a, b with
  | Frame.Num x, Frame.Num y => Frame.Num (x - y)
  | _, _ => Frame.NaN
  end.

(** A zero divisor gives an infinity or not-a-number, never an exception;
    the model has not-a-number for both. *)
Definition cell_div (a b : Frame.cell) : Frame.cell :=
  match a, b with
  | Frame.Num x, Frame.Num y =>
      if Qeq_bool y 0 then Frame.NaN else Frame.Num (x / y)
  | _, _ => Frame.NaN
  end.

(** [deseasonalize]: the seasonal component and the series without it *)
Definition deseasonalize (d : TimeSeriesData) (method : string)
  : TimeSeriesData * TimeSeriesData :=
  let seasonal := decomposed_seasonal d method in
  let desea_value :=
    if String.eqb method "additive"
    then Frame.zip_with cell_sub (ts_value d) (ts_value seasonal)
    else Frame.zip_with cell_div (ts_value d) (ts_value seasonal) in
  (seasonal, {| ts_time := ts_time d; ts_value := desea_value |}).

(** *** The default executors *)

(** [model.model_name.split("_")[0].lower()] *)
Definition family (name : string) : string :=
  PyStr.lower (PyStr.split_first name).

(** [MODELS[family]] *)
Definition lookup_model (name : string) : result model_class :=
  match get MODELS (family name) with
  | Some cls => Ok cls
  | None => Raise (KeyError (family name))
  end.

(** The loop that hands one task per model to the pool, keyed by model
    name: a later model of the same name replaces the earlier task. *)
Definition submit_all (ms : list BaseModelParams)
  : result (dict (model_class * Params)) :=
  fold_left
    (fun acc m =>
       a <- acc ;;
       cls <- lookup_model (model_name m) ;;
       Ok (set a (model_name m) (cls, model_params m)))
    ms (Ok []).

(** [_fit_single] *)
Definition fit_single (d : TimeSeriesData) (model_func : model_class)
    (model_param : Params) : result Fitted :=
  model_fit model_func model_param d.

(** [_backtester_single], with the default error method *)
Definition backtester_single (self : ensemble) (p : Params)
    (cls : model_class) : result Q :=
  backtest_error (data self) p cls.

(** [_backtester_all]: the weights and the errors *)
Definition backtester_all (self : ensemble) : run (dict Q * dict Q) :=
  and_then (lift (Pool.make_pool (Pool.backtester_all_num_process cpu_count))
              self)
    (fun _ self =>
       match model_params_attr self with
       | None => Fail (AttributeError "model_params") self
       | Some ms =>
           and_then (lift (submit_all ms) self)
             (fun backtesters self =>
                and_then
                  (lift (comp_res
                           (fun _ t => backtester_single self (snd t) (fst t))
                           backtesters) self)
                  (fun errs self =>
                     let self := set_errors self errs in
                     and_then (lift (Weights.backtester_weights errs) self)
                       (fun ws self => Done (ws, errs) self)))
       end).

(** [backTestExecutor] *)
Definition backTestExecutor (self : ensemble) : run (dict Q) :=
  and_then (backtester_all self) (fun we self => Done (fst we) self).

(** [fitExecutor], the method of the class *)
Definition fitExecutor (self : ensemble) (d : TimeSeriesData)
    (ms : list BaseModelParams) (should_auto_backtest : bool)
  : run fit_result :=
  and_then (lift (Pool.make_pool (Pool.fitExecutor_num_process cpu_count))
              self)
    (fun _ self =>
       and_then (lift (submit_all ms) self)
         (fun fitted_models self =>
            and_then
              (lift (comp_res
                       (fun _ t => fit_single d (fst t) (snd t))
                       fitted_models) self)
              (fun fitted self =>
                 if should_auto_backtest
                 then and_then (backTestExecutor self)
                        (fun ws self => Done (fitted, Some ws) self)
                 else Done (fitted, None) self))).

(** A call of [self.fitExecutor] as [fit] has read it: the instance
    attribute when there is one, the method otherwise. *)
Definition call_fitExecutor (ex : option fit_executor) (self : ensemble)
    (d : TimeSeriesData) (ms : list BaseModelParams) (auto : bool)
  : run fit_result :=
  match ex with
  | Some custom => lift (custom d ms auto) self
  | None => fitExecutor self d ms auto
  end.

(** *** [fit] *)

Definition fit_message : string :=
  "The given time series contains seasonality,            a `seasonality_length` must be given in params".

(** [m.model_name.lower() in SMODELS.keys()] *)
Definition seasonal_capable (m : BaseModelParams) : bool :=
  mem SMODELS (PyStr.lower (model_name m)).

(** [tmp = copy(m); tmp.model_name = m.model_name + "_smodel"] *)
Definition smodel_copy (m : BaseModelParams) : BaseModelParams :=
  {| model_name := model_name m ++ "_smodel";
     model_params := model_params m |}.

(** [given_models = copy(models)], then the loop that appends the copies *)
Definition seasonal_batch (ms : list BaseModelParams)
  : list BaseModelParams :=
  fold_left
    (fun given_models m =>
       if seasonal_capable m then (given_models ++ [smodel_copy m])%list
       else given_models)
    ms ms.

(** The local variable [fitExecutor] of [fit]: assigned only when the key
    is not in [params]. *)
Definition local_fitExecutor (self : ensemble)
  : option (option fit_executor) :=
  match fitExecutor_key (self_params self) with
  | Absent => Some (fitExecutor_attr self)
  | _ => None
  end.

(** The statement [self.fitted, self.weights = fitExecutor(...)] *)
Definition fit_call (local : option (option fit_executor)) (self : ensemble)
    (d : TimeSeriesData) (ms : list BaseModelParams) (auto : bool)
  : outcome :=
  match local with
  | None => Raised (UnboundLocalError "fitExecutor") self
  | Some ex =>
      match call_fitExecutor ex self d ms auto with
      | Done fw self => Returned (set_fitted self (fst fw) (snd fw))
      | Fail e self => Raised e self
      end
  end.

Definition fit (self : ensemble) : outcome :=
  let p := self_params self in
  let seasonal := seasonality_detected (data self) in
  let self := set_seasonality self seasonal in
  if seasonal
     && match seasonality_length p with None => true | Some _ => false end
  then Raised (ValueError fit_message) self
  else
    let auto_backtesting := negb (String.eqb (aggregation p) "median") in
    let local := local_fitExecutor self in
    if seasonal then
      let sd := deseasonalize (data self) (decomposition_method_attr self) in
      let self := set_components self (fst sd) (snd sd) in
      let given_models := seasonal_batch (models p) in
      let self := set_model_params self given_models in
      fit_call local self (snd sd) given_models auto_backtesting
    else
      let self := set_model_params self (models p) in
      fit_call local self (data self) (models p) auto_backtesting.

(** *** Validation *)

Definition valid_aggregation (p : params) : Prop :=
  aggregation p = "median" \/ aggregation p = "weightedavg".

Lemma valid_aggregation_test (p : params) :
  valid_aggregation p ->
  negb (String.eqb (aggregation p) "median"
        || String.eqb (aggregation p) "weightedavg") = false.
Proof. intros [-> | ->]; reflexivity. Qed.

Lemma infer_freq_ok (d : TimeSeriesData) :
  3 <= len_time d ->
  infer_freq (ts_time d) = Ok (inferred_freq (ts_time d)).
Proof.
  intros H. unfold infer_freq. fold (len_time d).
  destruct (Z.ltb_spec (len_time d) 3); [lia | reflexivity].
Qed.

Lemma infer_freq_short (d : TimeSeriesData) :
  len_time d < 3 ->
  infer_freq (ts_time d) = Raise (ValueError infer_freq_message).
Proof.
  intros H. unfold infer_freq. fold (len_time d).
  destruct (Z.ltb_spec (len_time d) 3); [reflexivity | lia].
Qed.

Lemma init_short (d : TimeSeriesData) (p : params) :
  len_time d < 3 -> init d p = Raise (ValueError infer_freq_message).
Proof. intros H. unfold init. now rewrite (@infer_freq_short d H). Qed.

Lemma seasonality_test_false (d : TimeSeriesData) (p : params) :
  (forall m, seasonality_length p = Some m -> m <= len_time d / 2) ->
  match seasonality_length p with
  | Some m => m >? len_time d / 2
  | None => false
  end = false.
Proof.
  intros Hlen. destruct (seasonality_length p) as [m|]; [|reflexivity].
  specialize (Hlen m eq_refl). rewrite Z.gtb_ltb. now apply Z.ltb_ge.
Qed.

Lemma init_ok (d : TimeSeriesData) (p : params) :
  3 <= len_time d ->
  valid_aggregation p ->
  (forall m, seasonality_length p = Some m -> m <= len_time d / 2) ->
  exists self,
    init d p = Ok self
    /\ data self = d
    /\ self_params self = p
    /\ fitExecutor_attr self
       = match fitExecutor_key p with Given f => Some f | _ => None end
    /\ fitted self = None.
Proof.
  intros H3 Hag Hlen. unfold init. rewrite (@infer_freq_ok d H3).
  cbn [bind]. unfold validate_params. cbn [self_params data].
  rewrite (valid_aggregation_test Hag), (@seasonality_test_false d p Hlen).
  eexists. split; [reflexivity|].
  cbn. repeat split; reflexivity.
Qed.

(** C9. Whenever seasonality_length is set and strictly greater than
    floor(len(series)/2), constructing the ensemble raises an error, so no
    object exists on which a model could be fitted: validation raises on
    every object with this configuration, and on a series of at least three
    time stamps with a supported aggregation the error of the constructor
    is the one of this check (below three time stamps the constructor
    raises before it validates).  When the length is unset or at most
    floor(len(series)/2) this check does not raise, and on at least three
    time stamps with a supported aggregation construction succeeds, no
    model fitted. *)
Theorem init_seasonality_length (d : TimeSeriesData) (p : params) :
  (forall m, seasonality_length p = Some m -> m > len_time d / 2 ->
     (exists msg, init d p = Raise (ValueError msg))
     /\ (forall self, data self = d -> self_params self = p ->
           exists msg, validate_params self = Raise (ValueError msg))
     /\ (3 <= len_time d -> valid_aggregation p ->
         init d p = Raise (ValueError seasonality_message)))
  /\ ((seasonality_length p = None
       \/ exists m, seasonality_length p = Some m /\ m <= len_time d / 2) ->
      init d p <> Raise (ValueError seasonality_message)
      /\ (forall self, data self = d -> self_params self = p ->
            validate_params self <> Raise (ValueError seasonality_message))
      /\ (3 <= len_time d -> valid_aggregation p ->
          exists self, init d p = Ok self /\ fitted self = None)).
Proof.
  split.
  - intros m Hm Hgt.
    assert (Hv : forall self, data self = d -> self_params self = p ->
              exists msg, validate_params self = Raise (ValueError msg)).
    { intros self Hd Hp. unfold validate_params. rewrite Hp, Hd.
      destruct (negb (String.eqb (aggregation p) "median"
                      || String.eqb (aggregation p) "weightedavg")).
      - eexists. reflexivity.
      - rewrite Hm. apply Z.gt_lt, Z.ltb_lt in Hgt.
        rewrite Z.gtb_ltb, Hgt. eexists. reflexivity. }
    split; [|split; [exact Hv|]].
    + destruct (Z_lt_le_dec (len_time d) 3) as [Hs|H3].
      * rewrite (@init_short d p Hs). eexists. reflexivity.
      * unfold init. rewrite (@infer_freq_ok d H3). cbn [bind].
        apply Hv; reflexivity.
    + intros H3 Hag. unfold init. rewrite (@infer_freq_ok d H3). cbn [bind].
      unfold validate_params. cbn [self_params data].
      rewrite (valid_aggregation_test Hag), Hm.
      apply Z.gt_lt, Z.ltb_lt in Hgt. rewrite Z.gtb_ltb, Hgt. reflexivity.
  - intros Hs.
    assert (Hlen : forall m, seasonality_length p = Some m ->
                             m <= len_time d / 2).
    { intros m Hm. destruct Hs as [Hn|(m' & Hm' & Hle)]; congruence. }
    assert (Hv : forall self, data self = d -> self_params self = p ->
              validate_params self <> Raise (ValueError seasonality_message)).
    { intros self Hd Hp. unfold validate_params. rewrite Hp, Hd.
      destruct (negb (String.eqb (aggregation p) "median"
                      || String.eqb (aggregation p) "weightedavg")).
      - unfold aggregation_message, seasonality_message. simpl. discriminate.
      - rewrite (@seasonality_test_false d p Hlen). discriminate. }
    split; [|split; [exact Hv|]].
    + destruct (Z_lt_le_dec (len_time d) 3) as [Hsh|H3].
      * rewrite (@init_short d p Hsh).
        unfold infer_freq_message, seasonality_message. discriminate.
      * unfold init. rewrite (@infer_freq_ok d H3). cbn [bind].
        apply Hv; reflexivity.
    + intros H3 Hag.
      destruct (@init_ok d p H3 Hag Hlen) as (self & H & _ & _ & _ & Hf).
      now exists self.
Qed.

(** *** [fit] with the key ["fitExecutor"] in [params] *)

(** C10. With ["fitExecutor"] in [params] mapped to None, construction
    succeeds (on a series of at least three time stamps, with an otherwise
    valid configuration) and leaves the method of the class in place, yet
    [fit] raises an unbound-local error at the call of the executor, before
    any model is fitted: [fit] assigns its local variable only when the key
    is absent, and validation assigns the attribute only for a value other
    than None. *)
Theorem fit_with_fitExecutor_none (d : TimeSeriesData) (p : params) :
  fitExecutor_key p = IsNone ->
  3 <= len_time d ->
  valid_aggregation p ->
  (forall m, seasonality_length p = Some m -> m <= len_time d / 2) ->
  (seasonality_detected d = true -> seasonality_length p <> None) ->
  exists self,
    init d p = Ok self
    /\ fitExecutor_attr self = None
    /\ local_fitExecutor self = None
    /\ (exists self',
         fit self = Raised (UnboundLocalError "fitExecutor") self'
         /\ fitted self' = None)
    /\ (forall s, local_fitExecutor s <> None
                  <-> fitExecutor_key (self_params s) = Absent).
Proof.
  intros Hkey H3 Hag Hlen Hsea.
  destruct (@init_ok d p H3 Hag Hlen) as (self & Hi & Hd & Hp & Hattr & Hf).
  exists self. split; [exact Hi|]. rewrite Hkey in Hattr.
  split; [exact Hattr|].
  assert (Hloc : local_fitExecutor self = None).
  { unfold local_fitExecutor. now rewrite Hp, Hkey. }
  split; [exact Hloc|]. split.
  - unfold fit. rewrite Hd, Hp.
    assert (Hloc' : forall b,
              local_fitExecutor (set_seasonality self b) = None).
    { intros b. unfold local_fitExecutor. cbn [self_params set_seasonality].
      now rewrite Hp, Hkey. }
    rewrite Hloc'.
    destruct (seasonality_detected d) eqn:Es.
    + destruct (seasonality_length p) as [m|] eqn:Em;
        [|exfalso; now apply Hsea].
      cbn [andb fit_call]. eexists. split; [reflexivity|]. exact Hf.
    + cbn [andb fit_call]. eexists. split; [reflexivity|]. exact Hf.
  - intros s. unfold local_fitExecutor.
    destruct (fitExecutor_key (self_params s)); split; congruence.
Qed.

(** *** The batch that [fit] fits on a seasonal series *)

(** The batch in the words of the specification, with "seasonal-capable"
    read as the code tests it: every configured model, then, for each
    configured model whose lower-cased name is one of the keys of
    [SMODELS], a copy with the same parameters whose name is the original
    name followed by ["_smodel"]. *)
Definition smodel_named (m : BaseModelParams) : bool :=
  existsb (String.eqb (PyStr.lower (model_name m))) (keys SMODELS).

Definition suffixed (m : BaseModelParams) : BaseModelParams :=
  {| model_name := model_name m ++ "_smodel";
     model_params := model_params m |}.

Definition spec_batch (ms : list BaseModelParams) : list BaseModelParams :=
  (ms ++ map suffixed (filter smodel_named ms))%list.

Lemma seasonal_capable_named (m : BaseModelParams) :
  seasonal_capable m = smodel_named m.
Proof.
  unfold seasonal_capable, smodel_named, mem, SMODELS.
  cbn [get keys map fst existsb].
  rewrite (String.eqb_sym "prophet"), (String.eqb_sym "theta").
  destruct (String.eqb (PyStr.lower (model_name m)) "prophet");
    [reflexivity|].
  destruct (String.eqb (PyStr.lower (model_name m)) "theta"); reflexivity.
Qed.

Lemma seasonal_batch_acc (ms acc : list BaseModelParams) :
  fold_left
    (fun given_models m =>
       if seasonal_capable m then (given_models ++ [smodel_copy m])%list
       else given_models)
    ms acc
  = (acc ++ map smodel_copy (filter seasonal_capable ms))%list.
Proof.
  revert acc. induction ms as [|m ms IH]; simpl; intros acc.
  - now rewrite app_nil_r.
  - rewrite IH. destruct (seasonal_capable m); simpl; [|reflexivity].
    now rewrite <- app_assoc.
Qed.

Lemma seasonal_batch_spec (ms : list BaseModelParams) :
  seasonal_batch ms = spec_batch ms.
Proof.
  unfold seasonal_batch, spec_batch. rewrite seasonal_batch_acc.
  f_equal. rewrite (filter_ext _ _ seasonal_capable_named).
  reflexivity.
Qed.

Lemma lookup_model_ok (name : string) (cls : model_class) :
  lookup_model name = Ok cls <-> get MODELS (family name) = Some cls.
Proof.
  unfold lookup_model. destruct (get MODELS (family name)); split; congruence.
Qed.

Lemma submit_raise (ms : list BaseModelParams) (e : exn) :
  fold_left
    (fun acc m =>
       a <- acc ;;
       cls <- lookup_model (model_name m) ;;
       Ok (set a (model_name m) (cls, model_params m)))
    ms (Raise e) = Raise e.
Proof. induction ms as [|m ms IH]; simpl; [reflexivity | exact IH]. Qed.

Lemma submit_acc (ms : list BaseModelParams)
    (acc tasks : dict (model_class * Params)) :
  wf acc ->
  fold_left
    (fun acc m =>
       a <- acc ;;
       cls <- lookup_model (model_name m) ;;
       Ok (set a (model_name m) (cls, model_params m)))
    ms (Ok acc) = Ok tasks ->
  wf tasks
  /\ (forall n, In n (keys tasks)
                <-> In n (keys acc) \/ In n (map model_name ms))
  /\ (forall n t, get tasks n = Some t ->
        get acc n = Some t
        \/ exists m, In m ms /\ model_name m = n
                     /\ lookup_model n = Ok (fst t)
                     /\ snd t = model_params m).
Proof.
  revert acc. induction ms as [|m ms IH]; simpl; intros acc Hwf H.
  - injection H as <-. split; [exact Hwf|]. split; [tauto | auto].
  - destruct (lookup_model (model_name m)) as [cls|e] eqn:E; simpl in H.
    + apply IH in H; [|now apply set_wf].
      destruct H as (Hw & Hk & Hg). split; [exact Hw|]. split.
      * intros n. rewrite Hk, in_keys_set. intuition congruence.
      * intros n t G. destruct (Hg n t G) as [G'|(m' & I & Hn & Hl & Hp)].
        -- rewrite get_set in G'.
           destruct (String.eqb_spec (model_name m) n) as [<-|Hne].
           ++ injection G' as <-. right. exists m. simpl. tauto.
           ++ now left.
        -- right. exists m'. tauto.
    + now rewrite submit_raise in H.
Qed.

Lemma submit_all_defined (ms : list BaseModelParams) acc :
  (forall m, In m ms -> exists cls, lookup_model (model_name m) = Ok cls) ->
  exists tasks,
    fold_left
      (fun acc m =>
         a <- acc ;;
         cls <- lookup_model (model_name m) ;;
         Ok (set a (model_name m) (cls, model_params m)))
      ms (Ok acc) = Ok tasks.
Proof.
  revert acc. induction ms as [|m ms IH]; simpl; intros acc H.
  - now exists acc.
  - destruct (H m (or_introl eq_refl)) as [cls ->]. simpl.
    apply IH. intros m' I. apply H. now right.
Qed.

Lemma submit_all_returns (ms : list BaseModelParams) :
  (forall m, In m ms -> exists cls, lookup_model (model_name m) = Ok cls) ->
  exists tasks, submit_all ms = Ok tasks.
Proof. intros H. unfold submit_all. now apply submit_all_defined. Qed.

Lemma backTestExecutor_keeps (self s : ensemble) (ws : dict Q) :
  backTestExecutor self = Done ws s ->
  model_params_attr s = model_params_attr self.
Proof.
  unfold backTestExecutor, backtester_all, and_then, lift.
  destruct (Pool.make_pool _); [|discriminate].
  destruct (model_params_attr self) as [ms|] eqn:Em; [|discriminate].
  destruct (submit_all ms); [|discriminate].
  destruct (comp_res _ _); [|discriminate].
  destruct (Weights.backtester_weights _); [|discriminate].
  intros [= _ <-]. cbn. exact Em.
Qed.

(** What a returning call of the default executor has done. *)
Lemma fitExecutor_done (self s : ensemble) (d : TimeSeriesData)
    (ms : list BaseModelParams) (auto : bool) (fw : fit_result) :
  fitExecutor self d ms auto = Done fw s ->
  model_params_attr s = model_params_attr self
  /\ exists tasks,
       submit_all ms = Ok tasks
       /\ comp_res (fun _ t => fit_single d (fst t) (snd t)) tasks
          = Ok (fst fw).
Proof.
  unfold fitExecutor, and_then, lift.
  destruct (Pool.make_pool _); [|discriminate].
  destruct (submit_all ms) as [tasks|]; [|discriminate].
  destruct (comp_res _ tasks) as [fs|] eqn:Ef; [|discriminate].
  destruct auto.
  - destruct (backTestExecutor self) as [ws s'|] eqn:Eb; [|discriminate].
    intros [= <- <-]. split; [now apply backTestExecutor_keeps with ws|].
    now exists tasks.
  - intros [= <- <-]. split; [reflexivity|]. now exists tasks.
Qed.

Lemma init_inv (d : TimeSeriesData) (p : params) (self : ensemble) :
  init d p = Ok self ->
  data self = d
  /\ self_params self = p
  /\ fitExecutor_attr self
     = match fitExecutor_key p with Given f => Some f | _ => None end
  /\ fitted self = None.
Proof.
  unfold init. destruct (infer_freq (ts_time d)) as [f|]; [|discriminate].
  cbn [bind]. unfold validate_params. cbn [self_params data].
  destruct (negb _); [discriminate|].
  destruct (match seasonality_length p with Some _ => _ | None => _ end);
    [discriminate|].
  intros [= <-]. cbn. repeat split; reflexivity.
Qed.

Lemma seasonal_capable_no_underscore (m : BaseModelParams) :
  seasonal_capable m = true -> PyStr.has_underscore (model_name m) = false.
Proof.
  unfold seasonal_capable, mem, SMODELS. cbn [get]. intros H.
  rewrite <- PyStr.has_underscore_lower.
  destruct (String.eqb_spec "prophet" (PyStr.lower (model_name m)))
    as [<-|_]; [reflexivity|].
  destruct (String.eqb_spec "theta" (PyStr.lower (model_name m)))
    as [<-|_]; [reflexivity | discriminate].
Qed.

(** The suffixed copy belongs to the family of its original. *)
Lemma family_smodel_copy (m : BaseModelParams) :
  seasonal_capable m = true ->
  family (model_name (smodel_copy m)) = family (model_name m).
Proof.
  intros H. apply seasonal_capable_no_underscore in H.
  unfold family, smodel_copy. cbn [model_name].
  change "_smodel" with (String "_" "smodel").
  now rewrite PyStr.split_first_suffixed, PyStr.split_first_whole.
Qed.

Lemma family_suffixed (m : BaseModelParams) :
  smodel_named m = true ->
  family (model_name (suffixed m)) = family (model_name m).
Proof.
  rewrite <- seasonal_capable_named. exact (family_smodel_copy m).
Qed.

(** Two models of distinct families, the first one named in [SMODELS]. *)
Lemma two_families_first (m1 m2 : BaseModelParams) :
  family (model_name m1) <> family (model_name m2) ->
  smodel_named m1 = true -> smodel_named m2 = false ->
  spec_batch [m1; m2] = [m1; m2; suffixed m1]
  /\ NoDup (map model_name [m1; m2; suffixed m1]).
Proof.
  intros Hfam H1 H2. unfold spec_batch. cbn [filter]. rewrite H1, H2.
  split; [reflexivity|].
  assert (H12 : model_name m1 <> model_name m2) by congruence.
  assert (Hs2 : model_name m2 <> model_name m1 ++ "_smodel").
  { intros E. apply Hfam. rewrite E. symmetry.
    exact (family_suffixed m1 H1). }
  assert (Hs1 : model_name m1 <> model_name m1 ++ "_smodel")
    by apply PyStr.append_nonempty_neq.
  repeat constructor; simpl; intuition congruence.
Qed.

Lemma two_families_second (m1 m2 : BaseModelParams) :
  family (model_name m1) <> family (model_name m2) ->
  smodel_named m1 = false -> smodel_named m2 = true ->
  spec_batch [m1; m2] = [m1; m2; suffixed m2]
  /\ NoDup (map model_name [m1; m2; suffixed m2]).
Proof.
  intros Hfam H1 H2. unfold spec_batch. cbn [filter]. rewrite H1, H2.
  split; [reflexivity|].
  assert (H12 : model_name m1 <> model_name m2) by congruence.
  assert (Hs1 : model_name m1 <> model_name m2 ++ "_smodel").
  { intros E. apply Hfam. rewrite E.
    exact (family_suffixed m2 H2). }
  assert (Hs2 : model_name m2 <> model_name m2 ++ "_smodel")
    by apply PyStr.append_nonempty_neq.
  repeat constructor; simpl; intuition congruence.
Qed.

Lemma same_keys_length (A : Type) (fs : dict A) (names : list string) :
  NoDup (keys fs) -> NoDup names ->
  (forall n, In n (keys fs) <-> In n names) ->
  List.length fs = List.length names.
Proof.
  intros H1 H2 H. replace (List.length fs) with (List.length (keys fs))
    by apply length_map.
  apply Nat.le_antisymm; apply NoDup_incl_length; try assumption;
    intros n I; now apply H.
Qed.

(** [fit] on a seasonal series with the default executor. *)
Lemma fit_seasonal_eq (d : TimeSeriesData) (p : params) (self : ensemble) :
  init d p = Ok self ->
  seasonality_detected d = true ->
  fitExecutor_key p = Absent ->
  seasonality_length p <> None ->
  let sd := deseasonalize d (decomposition_method_attr self) in
  let self3 :=
    set_model_params
      (set_components (set_seasonality self true) (fst sd) (snd sd))
      (spec_batch (models p)) in
  fit self
  = match fitExecutor self3 (snd sd) (spec_batch (models p))
            (negb (String.eqb (aggregation p) "median")) with
    | Done fw s => Returned (set_fitted s (fst fw) (snd fw))
    | Fail e s => Raised e s
    end.
Proof.
  intros Hinit Hsea Hkey Hlen sd self3.
  destruct (@init_inv _ _ _ Hinit) as (Hd & Hp & Hattr & Hf). rewrite Hkey in Hattr.
  unfold fit. rewrite Hd, Hp, Hsea.
  destruct (seasonality_length p) as [m|]; [|congruence].
  cbn [andb]. unfold local_fitExecutor.
  cbn [set_seasonality self_params fitExecutor_attr
       decomposition_method_attr data].
  rewrite Hp, Hkey, Hattr, Hd, seasonal_batch_spec.
  reflexivity.
Qed.

(** C8. When [fit] detects seasonality, the batch it fits is every
    configured model followed by one copy, named with the suffix
    [_smodel], of each configured model whose lower-cased name is a key of
    [SMODELS] (the whole name is tested, not its family prefix); every
    fitted artifact is the fit of a model of this batch on the
    de-seasonalized data; hence two configured models of distinct families
    of which exactly one is so named give exactly 3 fitted artifacts: the
    two models and the suffixed copy.  In median mode, with a pool that can
    be created and fits that succeed, [fit] returns. *)
Theorem fit_seasonal_batch (d : TimeSeriesData) (p : params)
    (self : ensemble) :
  init d p = Ok self ->
  seasonality_detected d = true ->
  fitExecutor_key p = Absent ->
  (forall self', fit self = Returned self' ->
     model_params_attr self' = Some (spec_batch (models p))
     /\ exists fs,
          fitted self' = Some fs
          /\ NoDup (keys fs)
          /\ (forall name,
                In name (keys fs)
                <-> In name (map model_name (spec_batch (models p))))
          /\ (forall name a, get fs name = Some a ->
                exists m cls,
                  In m (spec_batch (models p))
                  /\ model_name m = name
                  /\ get MODELS (family name) = Some cls
                  /\ model_fit cls (model_params m)
                       (snd (deseasonalize d (decomposition_method_attr self)))
                     = Ok a)
          /\ (forall m1 m2,
                models p = [m1; m2] ->
                family (model_name m1) <> family (model_name m2) ->
                smodel_named m1 = negb (smodel_named m2) ->
                List.length fs = 3%nat
                /\ forall name,
                     In name (keys fs)
                     <-> name = model_name m1
                         \/ name = model_name m2
                         \/ name = model_name
                                     (if smodel_named m1 then m1 else m2)
                                   ++ "_smodel"))
  /\ (aggregation p = "median" ->
      3 <= cpu_count ->
      seasonality_length p <> None ->
      (forall m, In m (spec_batch (models p)) ->
         exists cls a,
           get MODELS (family (model_name m)) = Some cls
           /\ model_fit cls (model_params m)
                (snd (deseasonalize d (decomposition_method_attr self)))
              = Ok a) ->
      exists self', fit self = Returned self').
Proof.
  intros Hinit Hsea Hkey. split.
  - intros self' Hfit.
    assert (Hlen : seasonality_length p <> None).
    { intros Hn. destruct (@init_inv _ _ _ Hinit) as (Hd & Hp & _).
      unfold fit in Hfit. rewrite Hd, Hp, Hsea, Hn in Hfit. discriminate. }
    rewrite (@fit_seasonal_eq _ _ _ Hinit Hsea Hkey Hlen) in Hfit.
    destruct (fitExecutor _ _ _ _) as [fw s|] eqn:Ex; [|discriminate].
    injection Hfit as <-.
    apply fitExecutor_done in Ex.
    destruct Ex as (Hmp & tasks & Hsub & Hcomp).
    split; [cbn; rewrite Hmp; reflexivity|].
    exists (fst fw). split; [reflexivity|].
    unfold submit_all in Hsub.
    apply submit_acc in Hsub; [|constructor].
    destruct Hsub as (Hwf & Hk & Hg).
    destruct (@comp_res_items _ _ _ _ _ Hwf Hcomp) as [Hkeys Hitems].
    assert (Hnd : NoDup (keys (fst fw))) by (rewrite Hkeys; exact Hwf).
    assert (Hin : forall name,
              In name (keys (fst fw))
              <-> In name (map model_name (spec_batch (models p)))).
    { intros name. rewrite Hkeys, Hk. simpl. tauto. }
    split; [exact Hnd|]. split; [exact Hin|]. split.
    + intros name a G. destruct (Hitems name a G) as ([cls pr] & Gt & Hfs).
      destruct (Hg name _ Gt) as [G'|(m & I & Hn & Hl & Hpr)];
        [discriminate|].
      exists m, cls. simpl in Hl, Hpr, Hfs. subst pr.
      split; [exact I|]. split; [exact Hn|].
      split; [now apply lookup_model_ok | exact Hfs].
    + intros m1 m2 Hm Hfam Hsc. rewrite Hm in Hin.
      destruct (smodel_named m2) eqn:E2; cbn [negb] in Hsc.
      * destruct (@two_families_second _ _ Hfam Hsc E2) as [Hb Hn3].
        rewrite Hb in Hin. rewrite Hsc. split.
        -- now rewrite (@same_keys_length _ _ _ Hnd Hn3 Hin), length_map.
        -- intros name. rewrite Hin. simpl. intuition congruence.
      * destruct (@two_families_first _ _ Hfam Hsc E2) as [Hb Hn3].
        rewrite Hb in Hin. rewrite Hsc. split.
        -- now rewrite (@same_keys_length _ _ _ Hnd Hn3 Hin), length_map.
        -- intros name. rewrite Hin. simpl. intuition congruence.
  - intros Hmed Hcpu Hlen Hfits.
    rewrite (@fit_seasonal_eq _ _ _ Hinit Hsea Hkey Hlen), Hmed.
    change (negb (String.eqb "median" "median")) with false.
    unfold fitExecutor, and_then, lift.
    assert (Hpool : Pool.make_pool (Pool.fitExecutor_num_process cpu_count)
                    = Ok (Pool.fitExecutor_num_process cpu_count)).
    { now apply Pool.make_pool_ok. }
    rewrite Hpool.
    destruct (@submit_all_returns (spec_batch (models p))) as [tasks Ht].
    { intros m I. destruct (Hfits m I) as (cls & a & Hc & _).
      exists cls. now apply lookup_model_ok. }
    rewrite Ht.
    pose proof Ht as Hsub. unfold submit_all in Hsub.
    apply submit_acc in Hsub; [|constructor].
    destruct Hsub as (Hwf & Hk & Hg).
    destruct (@comp_res_returns _ _
                (fun _ t =>
                   fit_single
                     (snd (deseasonalize d (decomposition_method_attr self)))
                     (fst t) (snd t))
                tasks) as [fs Hfs].
    { intros n [cls pr] I. apply (@in_get _ _ _ _ Hwf) in I.
      destruct (Hg n _ I) as [G'|(m & Im & Hn & Hl & Hpr)]; [discriminate|].
      simpl in Hl, Hpr. subst pr.
      destruct (Hfits m Im) as (cls' & a & Hc & Ha).
      apply lookup_model_ok in Hl. rewrite Hn in Hc.
      assert (cls' = cls) by congruence. subst cls'.
      exists a. exact Ha. }
    rewrite Hfs. eexists. reflexivity.
Qed.

(** *** Further properties of validation and [fit] *)

Lemma invalid_aggregation_test (p : params) :
  ~ valid_aggregation p ->
  negb (String.eqb (aggregation p) "median"
        || String.eqb (aggregation p) "weightedavg") = true.
Proof.
  intros H. unfold valid_aggregation in H.
  destruct (String.eqb_spec (aggregation p) "median") as [E|_]; [tauto|].
  destruct (String.eqb_spec (aggregation p) "weightedavg") as [E|_];
    [tauto | reflexivity].
Qed.

Lemma valid_aggregation_dec (p : params) :
  valid_aggregation p \/ ~ valid_aggregation p.
Proof.
  unfold valid_aggregation.
  destruct (string_dec (aggregation p) "median") as [E|N1]; [tauto|].
  destruct (string_dec (aggregation p) "weightedavg") as [E|N2]; tauto.
Qed.

(** X2. Construction raises the error of the aggregation check exactly
    when the series has at least three time stamps and the aggregation is
    neither ["median"] nor ["weightedavg"], whatever the other parameters
    are: this check is the first of the validation, so an unsupported
    aggregation is reported even when the seasonality length is also
    inadmissible.  On fewer than three time stamps the constructor raises
    the error of the frequency inference, before it validates. *)
Theorem init_aggregation (d : TimeSeriesData) (p : params) :
  (init d p = Raise (ValueError (aggregation_message (aggregation p)))
   <-> 3 <= len_time d /\ ~ valid_aggregation p)
  /\ (len_time d < 3 -> init d p = Raise (ValueError infer_freq_message)).
Proof.
  split; [|apply init_short]. split.
  - intros H. destruct (Z_lt_le_dec (len_time d) 3) as [Hs|H3].
    + rewrite (@init_short d p Hs) in H.
      unfold aggregation_message, infer_freq_message in H. simpl in H.
      discriminate.
    + split; [exact H3|]. intros Hv. unfold init in H.
      rewrite (@infer_freq_ok d H3) in H. cbn [bind] in H.
      unfold validate_params in H. cbn [self_params data] in H.
      rewrite (valid_aggregation_test Hv) in H.
      destruct (match seasonality_length p with
                | Some m => m >? len_time d / 2
                | None => false
                end); [|discriminate].
      unfold aggregation_message, seasonality_message in H. simpl in H.
      discriminate.
  - intros [H3 Hn]. unfold init. rewrite (@infer_freq_ok d H3). cbn [bind].
    unfold validate_params. cbn [self_params data].
    now rewrite (invalid_aggregation_test Hn).
Qed.

(** X3. The decomposition method never makes construction fail: on a
    series of at least three time stamps, with a supported aggregation and
    an admissible seasonality length, construction succeeds whatever the
    configured method is, and the ensemble decomposes additively or
    multiplicatively: by the configured method when it is one of the two,
    and additively for any other string. *)
Theorem init_decomposition_method (d : TimeSeriesData) (p : params) :
  3 <= len_time d ->
  valid_aggregation p ->
  (forall m, seasonality_length p = Some m -> m <= len_time d / 2) ->
  exists self,
    init d p = Ok self
    /\ (decomposition_method_attr self = "additive"
        \/ decomposition_method_attr self = "multiplicative")
    /\ (decomposition_method p = "additive"
        \/ decomposition_method p = "multiplicative" ->
        decomposition_method_attr self = decomposition_method p)
    /\ (decomposition_method p <> "additive" ->
        decomposition_method p <> "multiplicative" ->
        decomposition_method_attr self = "additive").
Proof.
  intros H3 Hag Hlen. unfold init. rewrite (@infer_freq_ok d H3).
  cbn [bind]. unfold validate_params. cbn [self_params data].
  rewrite (valid_aggregation_test Hag), (@seasonality_test_false d p Hlen).
  eexists. split; [reflexivity|]. cbn [decomposition_method_attr].
  destruct (String.eqb_spec (decomposition_method p) "additive") as [E|N1].
  - rewrite E. cbn [orb]. repeat split; auto; congruence.
  - destruct (String.eqb_spec (decomposition_method p) "multiplicative")
      as [E|N2]; cbn [orb].
    + rewrite E. repeat split; auto; congruence.
    + repeat split; auto; intros [E|E]; congruence.
Qed.

(** X4. [fit] can return only when [params] has no ["fitExecutor"] key.
    With a customized executor under that key and an otherwise valid
    configuration, on a series of at least three time stamps, construction
    stores the executor as [self.fitExecutor], yet [fit] raises an
    unbound-local error without calling it and without fitting a model. *)
Theorem fit_with_custom_fitExecutor (d : TimeSeriesData) (p : params)
    (custom : fit_executor) :
  fitExecutor_key p = Given custom ->
  3 <= len_time d ->
  valid_aggregation p ->
  (forall m, seasonality_length p = Some m -> m <= len_time d / 2) ->
  (seasonality_detected d = true -> seasonality_length p <> None) ->
  (exists self,
     init d p = Ok self
     /\ fitExecutor_attr self = Some custom
     /\ exists self',
          fit self = Raised (UnboundLocalError "fitExecutor") self'
          /\ fitted self' = None)
  /\ (forall s s', fit s = Returned s' ->
        fitExecutor_key (self_params s) = Absent).
Proof.
  intros Hkey H3 Hag Hlen Hsea. split.
  - destruct (@init_ok d p H3 Hag Hlen) as (self & Hi & Hd & Hp & Hattr & Hf).
    exists self. split; [exact Hi|]. rewrite Hkey in Hattr.
    split; [exact Hattr|].
    unfold fit. rewrite Hd, Hp.
    assert (Hloc : forall b,
              local_fitExecutor (set_seasonality self b) = None).
    { intros b. unfold local_fitExecutor.
      cbn [self_params set_seasonality]. now rewrite Hp, Hkey. }
    rewrite Hloc.
    destruct (seasonality_detected d) eqn:Es.
    + destruct (seasonality_length p) as [m|] eqn:Em;
        [|exfalso; now apply Hsea].
      cbn [andb fit_call]. eexists. split; [reflexivity|]. exact Hf.
    + cbn [andb fit_call]. eexists. split; [reflexivity|]. exact Hf.
  - intros s s'. unfold fit, local_fitExecutor.
    cbn [self_params set_seasonality].
    destruct (fitExecutor_key (self_params s)); [reflexivity| |].
    + destruct (seasonality_detected (data s)
                && match seasonality_length (self_params s) with
                   | Some _ => false
                   | None => true
                   end); [discriminate|].
      destruct (seasonality_detected (data s)); discriminate.
    + destruct (seasonality_detected (data s)
                && match seasonality_length (self_params s) with
                   | Some _ => false
                   | None => true
                   end); [discriminate|].
      destruct (seasonality_detected (data s)); discriminate.
Qed.

(** X5. Validation cannot know whether the series is seasonal: on a
    series of at least three time stamps a configuration without
    seasonality length is constructed, and when the series is found
    seasonal [fit] then raises, whatever the executor key, before the
    series is decomposed and before any model is fitted. *)
Theorem fit_seasonal_without_length (d : TimeSeriesData) (p : params) :
  3 <= len_time d ->
  valid_aggregation p ->
  seasonality_length p = None ->
  seasonality_detected d = true ->
  exists self,
    init d p = Ok self
    /\ exists self',
         fit self = Raised (ValueError fit_message) self'
         /\ seasonality self' = Some true
         /\ sea_data self' = None
         /\ desea_data self' = None
         /\ model_params_attr self' = None
         /\ fitted self' = None.
Proof.
  intros H3 Hag Hlen Hsea.
  assert (Hl : forall m, seasonality_length p = Some m ->
                         m <= len_time d / 2) by (intros m; congruence).
  destruct (@init_ok d p H3 Hag Hl) as (self & Hi & Hd & Hp & Hattr & Hf).
  exists self. split; [exact Hi|].
  unfold fit. rewrite Hd, Hp, Hsea, Hlen. cbn [andb].
  eexists. split; [reflexivity|].
  unfold init in Hi. rewrite (@infer_freq_ok d H3) in Hi. cbn [bind] in Hi.
  unfold validate_params in Hi. cbn [self_params data] in Hi.
  destruct (negb _); [discriminate|].
  destruct (match seasonality_length p with Some _ => _ | None => _ end);
    [discriminate|].
  injection Hi as <-. cbn. repeat split; reflexivity.
Qed.

(** *** The default executor on the batch it is given *)

Lemma make_pool_fails (c : Z) :
  c < 3 ->
  exists e,
    Pool.make_pool (Pool.fitExecutor_num_process c) = Raise e.
Proof.
  intros H. unfold Pool.make_pool, Pool.fitExecutor_num_process.
  change (Pool.len MODELS) with 7.
  destruct (Z.ltb_spec (Z.min 7 ((c - 1) / 2)) 1) as [_|Hge].
  - eexists. reflexivity.
  - assert ((c - 1) / 2 < 1) by (apply Z.div_lt_upper_bound; lia). lia.
Qed.

Lemma fit_nonseasonal_eq (d : TimeSeriesData) (p : params) (self : ensemble) :
  init d p = Ok self ->
  seasonality_detected d = false ->
  fitExecutor_key p = Absent ->
  fit self
  = match fitExecutor
            (set_model_params (set_seasonality self false) (models p))
            d (models p) (negb (String.eqb (aggregation p) "median")) with
    | Done fw s => Returned (set_fitted s (fst fw) (snd fw))
    | Fail e s => Raised e s
    end.
Proof.
  intros Hinit Hsea Hkey.
  destruct (@init_inv _ _ _ Hinit) as (Hd & Hp & Hattr & Hf).
  rewrite Hkey in Hattr. unfold fit. rewrite Hd, Hp, Hsea.
  cbn [andb]. unfold local_fitExecutor.
  cbn [set_seasonality set_model_params self_params fitExecutor_attr data].
  rewrite Hp, Hkey, Hattr, Hd. reflexivity.
Qed.

(** X6. With the default executor on a machine with fewer than three
    processors, the pool cannot be created: [fit] raises and no model is
    fitted, on a seasonal and on a non-seasonal series alike. *)
Theorem fit_needs_three_processors (d : TimeSeriesData) (p : params)
    (self : ensemble) :
  init d p = Ok self ->
  fitExecutor_key p = Absent ->
  cpu_count < 3 ->
  exists e self', fit self = Raised e self' /\ fitted self' = None.
Proof.
  intros Hinit Hkey Hcpu.
  destruct (@init_inv _ _ _ Hinit) as (Hd & Hp & Hattr & Hf).
  destruct (make_pool_fails Hcpu) as [e He].
  destruct (seasonality_detected d) eqn:Es.
  - destruct (seasonality_length p) as [m|] eqn:Em.
    + rewrite (@fit_seasonal_eq _ _ _ Hinit Es Hkey)
        by (rewrite Em; discriminate).
      unfold fitExecutor, and_then, lift. rewrite He.
      eexists. eexists. split; [reflexivity|]. exact Hf.
    + unfold fit. rewrite Hd, Hp, Es, Em. cbn [andb].
      eexists. eexists. split; [reflexivity|]. exact Hf.
  - rewrite (@fit_nonseasonal_eq _ _ _ Hinit Es Hkey).
    unfold fitExecutor, and_then, lift. rewrite He.
    eexists. eexists. split; [reflexivity|]. exact Hf.
Qed.

(** The default executor assigns no attribute but [self.errors]. *)
Lemma fitExecutor_state (self s : ensemble) (d : TimeSeriesData)
    (ms : list BaseModelParams) (auto : bool) (fw : fit_result) :
  fitExecutor self d ms auto = Done fw s ->
  (auto = false /\ s = self /\ snd fw = None)
  \/ (auto = true /\ exists errs, s = set_errors self errs).
Proof.
  unfold fitExecutor, and_then, lift.
  destruct (Pool.make_pool _); [|discriminate].
  destruct (submit_all ms) as [tasks|]; [|discriminate].
  destruct (comp_res _ tasks) as [fs|]; [|discriminate].
  destruct auto.
  - unfold backTestExecutor, backtester_all, and_then, lift.
    destruct (Pool.make_pool _); [|discriminate].
    destruct (model_params_attr self) as [ms'|]; [|discriminate].
    destruct (submit_all ms'); [|discriminate].
    destruct (comp_res _ _) as [errs|]; [|discriminate].
    destruct (Weights.backtester_weights errs); [|discriminate].
    intros [= <- <-]. right. split; [reflexivity|]. now exists errs.
  - intros [= <- <-]. left. repeat split; reflexivity.
Qed.

(** X7. On a series without seasonality, [fit] with the default executor
    fits exactly the configured models, on the original data, and leaves
    the decomposition unset; in median mode, when the pool can be created
    and every fit succeeds, it returns without weights and without running
    a backtest. *)
Theorem fit_nonseasonal (d : TimeSeriesData) (p : params) (self : ensemble) :
  init d p = Ok self ->
  seasonality_detected d = false ->
  fitExecutor_key p = Absent ->
  (forall self', fit self = Returned self' ->
     model_params_attr self' = Some (models p)
     /\ sea_data self' = None
     /\ desea_data self' = None
     /\ exists fs,
          fitted self' = Some fs
          /\ (forall name,
                In name (keys fs) <-> In name (map model_name (models p)))
          /\ (forall name a, get fs name = Some a ->
                exists m cls,
                  In m (models p)
                  /\ model_name m = name
                  /\ get MODELS (family name) = Some cls
                  /\ model_fit cls (model_params m) d = Ok a))
  /\ (aggregation p = "median" ->
      3 <= cpu_count ->
      (forall m, In m (models p) ->
         exists cls a,
           get MODELS (family (model_name m)) = Some cls
           /\ model_fit cls (model_params m) d = Ok a) ->
      exists self',
        fit self = Returned self'
        /\ weights self' = Some None
        /\ errors self' = None).
Proof.
  intros Hinit Hsea Hkey.
  assert (Hi := Hinit). unfold init in Hi.
  destruct (infer_freq (ts_time d)) as [f|]; [|discriminate].
  cbn [bind] in Hi. unfold validate_params in Hi.
  cbn [self_params data] in Hi.
  destruct (negb _); [discriminate|].
  destruct (match seasonality_length p with Some _ => _ | None => _ end);
    [discriminate|].
  injection Hi as Hself.
  split.
  - intros self' Hfit.
    rewrite (@fit_nonseasonal_eq _ _ _ Hinit Hsea Hkey) in Hfit.
    destruct (fitExecutor _ _ _ _) as [fw s|] eqn:Ex; [|discriminate].
    injection Hfit as <-.
    pose proof (fitExecutor_state _ _ _ _ Ex) as Hst.
    apply fitExecutor_done in Ex.
    destruct Ex as (Hmp & tasks & Hsub & Hcomp).
    assert (Hs : sea_data s = None /\ desea_data s = None).
    { destruct Hst as [(_ & -> & _)|(_ & errs & ->)];
        rewrite <- Hself; cbn; split; reflexivity. }
    split; [cbn; rewrite Hmp; reflexivity|].
    split; [cbn; apply Hs|]. split; [cbn; apply Hs|].
    exists (fst fw). split; [reflexivity|].
    unfold submit_all in Hsub.
    apply submit_acc in Hsub; [|constructor].
    destruct Hsub as (Hwf & Hk & Hg).
    destruct (@comp_res_items _ _ _ _ _ Hwf Hcomp) as [Hkeys Hitems].
    split.
    + intros name. rewrite Hkeys, Hk. simpl. tauto.
    + intros name a G. destruct (Hitems name a G) as ([cls pr] & Gt & Hfs).
      destruct (Hg name _ Gt) as [G'|(m & I & Hn & Hl & Hpr)];
        [discriminate|].
      exists m, cls. simpl in Hl, Hpr, Hfs. subst pr.
      split; [exact I|]. split; [exact Hn|].
      split; [now apply lookup_model_ok | exact Hfs].
  - intros Hmed Hcpu Hfits.
    rewrite (@fit_nonseasonal_eq _ _ _ Hinit Hsea Hkey), Hmed.
    change (negb (String.eqb "median" "median")) with false.
    unfold fitExecutor, and_then, lift.
    rewrite (Pool.make_pool_ok Hcpu).
    destruct (@submit_all_returns (models p)) as [tasks Ht].
    { intros m I. destruct (Hfits m I) as (cls & a & Hc & _).
      exists cls. now apply lookup_model_ok. }
    rewrite Ht.
    pose proof Ht as Hsub. unfold submit_all in Hsub.
    apply submit_acc in Hsub; [|constructor].
    destruct Hsub as (Hwf & Hk & Hg).
    destruct (@comp_res_returns _ _
                (fun _ t => fit_single d (fst t) (snd t)) tasks)
      as [fs Hfs].
    { intros n [cls pr] I. apply (@in_get _ _ _ _ Hwf) in I.
      destruct (Hg n _ I) as [G'|(m & Im & Hn & Hl & Hpr)]; [discriminate|].
      simpl in Hl, Hpr. subst pr.
      destruct (Hfits m Im) as (cls' & a & Hc & Ha).
      apply lookup_model_ok in Hl. rewrite Hn in Hc.
      assert (cls' = cls) by congruence. subst cls'.
      exists a. exact Ha. }
    rewrite Hfs. eexists. split; [reflexivity|].
    rewrite <- Hself. cbn. split; reflexivity.
Qed.

(** X8. When the family of a model of the batch is not a key of [MODELS]
    (and the families of the models before it are), the default executor
    raises the key error of that family while handing out the tasks: it
    returns no artifact, not even for the models before. *)
Theorem fitExecutor_unknown_family (self : ensemble) (d : TimeSeriesData)
    (before after : list BaseModelParams) (m : BaseModelParams)
    (auto : bool) :
  3 <= cpu_count ->
  (forall m', In m' before ->
     exists cls, get MODELS (family (model_name m')) = Some cls) ->
  get MODELS (family (model_name m)) = None ->
  fitExecutor self d (before ++ m :: after) auto
  = Fail (KeyError (family (model_name m))) self.
Proof.
  intros Hcpu Hb Hm. unfold fitExecutor, and_then, lift.
  rewrite (Pool.make_pool_ok Hcpu).
  destruct (@submit_all_returns before) as [tasks Ht].
  { intros m' I. destruct (Hb m' I) as [cls Hc]. exists cls.
    now apply lookup_model_ok. }
  assert (Hl : lookup_model (model_name m)
               = Raise (KeyError (family (model_name m)))).
  { unfold lookup_model. now rewrite Hm. }
  unfold submit_all in *. rewrite fold_left_app, Ht. cbn [fold_left bind].
  rewrite Hl. cbn [bind]. now rewrite submit_raise.
Qed.

(** The last model of a batch that has a given name. *)
Fixpoint last_named (name : string) (ms : list BaseModelParams)
  : option BaseModelParams :=
  match ms with
  | [] => None
  | m :: ms' =>
      match last_named name ms' with
      | Some m' => Some m'
      | None => if String.eqb (model_name m) name then Some m else None
      end
  end.

Lemma submit_get (ms : list BaseModelParams)
    (acc tasks : dict (model_class * Params)) :
  fold_left
    (fun acc m =>
       a <- acc ;;
       cls <- lookup_model (model_name m) ;;
       Ok (set a (model_name m) (cls, model_params m)))
    ms (Ok acc) = Ok tasks ->
  (List.length tasks <= List.length acc + List.length ms)%nat
  /\ forall n,
       get tasks n
       = match last_named n ms with
         | Some m =>
             match lookup_model n with
             | Ok cls => Some (cls, model_params m)
             | Raise _ => None
             end
         | None => get acc n
         end.
Proof.
  revert acc. induction ms as [|m ms IH]; simpl; intros acc H.
  - injection H as <-. split; [lia | reflexivity].
  - destruct (lookup_model (model_name m)) as [cls|e] eqn:E; simpl in H;
      [|now rewrite submit_raise in H].
    apply IH in H. destruct H as [Hlen Hget]. split.
    + assert (List.length (set acc (model_name m) (cls, model_params m))
              <= S (List.length acc))%nat.
      { clear. induction acc as [|[k v] acc IHa]; simpl; [lia|].
        destruct (String.eqb k (model_name m)); simpl; lia. }
      lia.
    + intros n. rewrite Hget. destruct (last_named n ms); [reflexivity|].
      rewrite get_set.
      destruct (String.eqb_spec (model_name m) n) as [<-|Hne];
        [now rewrite E | reflexivity].
Qed.

(** X9. The artifacts of the default executor are keyed by model name:
    there are at most as many as models, and when two models of the batch
    share a name only the last one is fitted under it. *)
Theorem fitExecutor_last_name_wins (self s : ensemble) (d : TimeSeriesData)
    (ms : list BaseModelParams) (auto : bool) (fw : fit_result) :
  fitExecutor self d ms auto = Done fw s ->
  NoDup (keys (fst fw))
  /\ (List.length (fst fw) <= List.length ms)%nat
  /\ forall name a, get (fst fw) name = Some a ->
       exists m cls,
         last_named name ms = Some m
         /\ get MODELS (family name) = Some cls
         /\ model_fit cls (model_params m) d = Ok a.
Proof.
  intros Ex. apply fitExecutor_done in Ex.
  destruct Ex as (_ & tasks & Hsub & Hcomp).
  unfold submit_all in Hsub. pose proof (submit_get _ _ Hsub) as [Hlen Hget].
  apply submit_acc in Hsub; [|constructor].
  destruct Hsub as (Hwf & _ & _).
  destruct (@comp_res_items _ _ _ _ _ Hwf Hcomp) as [Hkeys Hitems].
  split; [rewrite Hkeys; exact Hwf|]. split.
  - replace (List.length (fst fw)) with (List.length (keys (fst fw)))
      by apply length_map.
    rewrite Hkeys. unfold keys. rewrite length_map. simpl in Hlen. exact Hlen.
  - intros name a G. destruct (Hitems name a G) as ([cls pr] & Gt & Hfs).
    rewrite Hget in Gt. destruct (last_named name ms) as [m|];
      [|discriminate].
    destruct (lookup_model name) as [cls'|] eqn:El; [|discriminate].
    injection Gt as -> <-. exists m, cls.
    split; [reflexivity|]. split; [now apply lookup_model_ok | exact Hfs].
Qed.

(** X10. The suffixed copy of a seasonal-capable model is looked up in
    [MODELS] under the family of its original, and finds the class that
    [SMODELS] has for it: the suffix never makes the lookup fail. *)
Theorem smodel_copy_lookup (m : BaseModelParams) :
  seasonal_capable m = true ->
  exists cls,
    get SMODELS (PyStr.lower (model_name m)) = Some cls
    /\ lookup_model (model_name m) = Ok cls
    /\ lookup_model (model_name (smodel_copy m)) = Ok cls.
Proof.
  intros H. pose proof (seasonal_capable_no_underscore m H) as Hu.
  unfold lookup_model. rewrite (family_smodel_copy m H).
  unfold family. rewrite (PyStr.split_first_whole _ Hu).
  unfold seasonal_capable, mem, SMODELS in H. cbn [get] in H.
  unfold SMODELS, MODELS. cbn [get].
  destruct (String.eqb_spec "prophet" (PyStr.lower (model_name m)))
    as [<-|_].
  - exists ProphetModel. repeat split; reflexivity.
  - destruct (String.eqb_spec "theta" (PyStr.lower (model_name m)))
      as [<-|_]; [|discriminate].
    exists ThetaModel. repeat split; reflexivity.
Qed.

(** *** [predict] *)

(** [fitted_model.predict(steps)]: a table with a time column *)
Variable model_predict : Fitted -> Z -> result Frame.frame.

(** [v.predict(self.steps).set_index("time")] *)
Definition predict_indexed (v : Fitted) (steps : Z) : result Frame.frame :=
  f <- model_predict v steps ;; Frame.set_index_time f.

(** ["_smodel" in k] *)
Definition is_smodel (k : string) : bool := PyStr.contains "_smodel" k.

(** ["fcst_lower" not in v.columns or "fcst_upper" not in v.columns] *)
Definition lacks_bounds (v : Frame.frame) : bool :=
  negb (Frame.has_column v "fcst_lower")
  || negb (Frame.has_column v "fcst_upper").

(** [tmp_v = copy(v); tmp_v["fcst_lower"] = np.nan;
    tmp_v["fcst_upper"] = np.nan] *)
Definition add_dummy_CI (v : Frame.frame) : Frame.frame :=
  {| Frame.index := Frame.index v;
     Frame.columns :=
       set (set (Frame.columns v) "fcst_lower"
              (repeat Frame.NaN (Frame.nrows v)))
           "fcst_upper" (repeat Frame.NaN (Frame.nrows v)) |}.

(** The loop over [predicted.items()] that assigns [predicted[k] = tmp_v]
    for each forecast without both bounds. *)
Definition backfill (predicted : dict Frame.frame) : dict Frame.frame :=
  fold_left
    (fun acc kv =>
       if lacks_bounds (snd kv)
       then set acc (fst kv) (add_dummy_CI (snd kv))
       else acc)
    predicted predicted.

(** The branch of [predict] for a series without seasonality; the result
    is what is assigned to [self.predicted]. *)
Definition predict_flat (self : ensemble) (steps : Z)
  : result (dict Frame.frame) :=
  match fitted self with
  | None => Raise (AttributeError "fitted")
  | Some fs =>
      predicted <- comp_res (fun k v => predict_indexed v steps) fs ;;
      Ok (backfill predicted)
  end.

(** The branch of [predict] for a seasonal series, [m] being
    [self.params["seasonality_length"]]. *)
Definition predict_seasonal (self : ensemble) (m steps : Z)
  : result (dict Frame.frame) :=
  match fitted self with
  | None => Raise (AttributeError "fitted")
  | Some fs =>
      desea_predict <-
        comp_res (fun k v => predict_indexed v steps)
          (filter_keys (fun k => negb (is_smodel k)) fs) ;;
      match sea_data self with
      | None => Raise (AttributeError "sea_data")
      | Some sea =>
          predicted <-
            Frame.reseasonalize (ts_value sea) desea_predict
              (decomposition_method_attr self) m steps ;;
          extra_predict <-
            comp_res (fun k v => predict_indexed v steps)
              (filter_keys is_smodel fs) ;;
          Ok (update predicted extra_predict)
      end
  end.

(** What the loop makes of one forecast. *)
Definition with_dummy_CI (v : Frame.frame) : Frame.frame :=
  if lacks_bounds v then add_dummy_CI v else v.

Lemma backfill_acc (l acc : dict Frame.frame) :
  NoDup (keys l) ->
  (forall k v, get l k = Some v -> get acc k = Some v) ->
  keys (fold_left
          (fun acc kv =>
             if lacks_bounds (snd kv)
             then set acc (fst kv) (add_dummy_CI (snd kv))
             else acc) l acc) = keys acc
  /\ forall k,
       get (fold_left
              (fun acc kv =>
                 if lacks_bounds (snd kv)
                 then set acc (fst kv) (add_dummy_CI (snd kv))
                 else acc) l acc) k
       = match get l k with
         | Some v => Some (with_dummy_CI v)
         | None => get acc k
         end.
Proof.
  revert acc. induction l as [|[k0 v0] l IH]; intros acc Hnd Hag; simpl.
  - split; [reflexivity | reflexivity].
  - inversion Hnd as [|? ? Hni Hnd']; subst.
    assert (G0 : get acc k0 = Some v0).
    { apply Hag. simpl. now rewrite String.eqb_refl. }
    assert (Hl0 : get l k0 = None) by now apply get_none_notin.
    set (acc' := if lacks_bounds v0 then set acc k0 (add_dummy_CI v0)
                 else acc).
    assert (Hk' : keys acc' = keys acc).
    { unfold acc'. destruct (lacks_bounds v0); [|reflexivity].
      rewrite keys_set. unfold mem. now rewrite G0. }
    assert (Hg' : forall k, get acc' k
                  = if String.eqb k0 k then Some (with_dummy_CI v0)
                    else get acc k).
    { intros k. unfold acc', with_dummy_CI.
      destruct (lacks_bounds v0).
      - apply get_set.
      - destruct (String.eqb_spec k0 k) as [<-|_]; [exact G0|reflexivity]. }
    destruct (IH acc' Hnd') as [IHk IHg].
    { intros k v G. rewrite Hg'.
      destruct (String.eqb_spec k0 k) as [<-|Hne]; [congruence|].
      apply Hag. simpl.
      destruct (String.eqb_spec k0 k); [congruence | exact G]. }
    split; [now rewrite IHk|].
    intros k. rewrite IHg, Hg'.
    destruct (String.eqb_spec k0 k) as [<-|Hne].
    + now rewrite Hl0.
    + reflexivity.
Qed.

Lemma backfill_get (d : dict Frame.frame) :
  wf d ->
  keys (backfill d) = keys d
  /\ forall k, get (backfill d) k = option_map with_dummy_CI (get d k).
Proof.
  intros Hwf. destruct (@backfill_acc d d Hwf (fun k v G => G)) as [Hk Hg].
  split; [exact Hk|]. intros k. unfold backfill. rewrite Hg.
  now destruct (get d k).
Qed.

Lemma with_dummy_CI_bounds (v : Frame.frame) :
  Frame.has_column (with_dummy_CI v) "fcst_lower" = true
  /\ Frame.has_column (with_dummy_CI v) "fcst_upper" = true.
Proof.
  unfold with_dummy_CI. destruct (lacks_bounds v) eqn:E.
  - unfold add_dummy_CI, Frame.has_column, mem. cbn [Frame.columns].
    rewrite !get_set. split; reflexivity.
  - unfold lacks_bounds in E. apply orb_false_iff in E.
    destruct E as [E1 E2]. apply negb_false_iff in E1, E2. now split.
Qed.

(** X18. On a series without seasonality, [predict] returns one forecast
    per fitted model, and every forecast it returns has fcst_lower and
    fcst_upper: a forecast that came with both is returned as it is, and
    one that lacks either gets both filled with not-a-number over all its
    rows (losing a single bound it had), its index and other columns
    unchanged. *)
Theorem predict_flat_bounds (self : ensemble) (steps : Z)
    (fs : dict Fitted) :
  fitted self = Some fs ->
  wf fs ->
  (forall k v, In (k, v) fs -> exists raw, predict_indexed v steps = Ok raw) ->
  exists predicted,
    predict_flat self steps = Ok predicted
    /\ keys predicted = keys fs
    /\ forall k v raw,
         get fs k = Some v -> predict_indexed v steps = Ok raw ->
         exists out,
           get predicted k = Some out
           /\ Frame.has_column out "fcst_lower" = true
           /\ Frame.has_column out "fcst_upper" = true
           /\ (Frame.with_bounds raw = true -> out = raw)
           /\ (Frame.with_bounds raw = false ->
               Frame.index out = Frame.index raw
               /\ get (Frame.columns out) "fcst_lower"
                  = Some (repeat Frame.NaN (Frame.nrows raw))
               /\ get (Frame.columns out) "fcst_upper"
                  = Some (repeat Frame.NaN (Frame.nrows raw))
               /\ forall c, c <> "fcst_lower" -> c <> "fcst_upper" ->
                    get (Frame.columns out) c = get (Frame.columns raw) c).
Proof.
  intros Hf Hwf Hok. unfold predict_flat. rewrite Hf.
  destruct (@comp_res_returns _ _ (fun _ v => predict_indexed v steps) fs Hok)
    as [raws Hr].
  rewrite Hr. cbn [bind].
  destruct (@comp_res_items _ _ _ _ _ Hwf Hr) as [Hkeys Hitems].
  assert (Hwr : wf raws) by (unfold wf; rewrite Hkeys; exact Hwf).
  destruct (@backfill_get _ Hwr) as [Hbk Hbg].
  eexists. split; [reflexivity|]. split; [congruence|].
  intros k v raw G Hp.
  assert (Gr : get raws k = Some raw).
  { destruct (get raws k) as [r|] eqn:E.
    - destruct (Hitems k r E) as (v' & G' & Hp').
      rewrite G in G'. injection G' as <-. congruence.
    - apply get_none_notin in E. rewrite Hkeys in E.
      exfalso. apply E. apply get_in in G.
      change k with (fst (k, v)). now apply in_map. }
  exists (with_dummy_CI raw). rewrite Hbg, Gr. split; [reflexivity|].
  destruct (with_dummy_CI_bounds raw) as [H1 H2].
  split; [exact H1|]. split; [exact H2|].
  unfold with_dummy_CI, lacks_bounds, Frame.with_bounds.
  destruct (Frame.has_column raw "fcst_lower");
    destruct (Frame.has_column raw "fcst_upper"); cbn [negb orb andb];
    (split; [try discriminate; reflexivity|]); try discriminate;
    intros _; unfold add_dummy_CI; cbn [Frame.index Frame.columns];
    rewrite !get_set; cbn;
    (split; [reflexivity|]); (split; [reflexivity|]);
    (split; [reflexivity|]);
    intros c Hc1 Hc2; rewrite !get_set;
    destruct (String.eqb_spec "fcst_upper" c); try congruence;
    destruct (String.eqb_spec "fcst_lower" c); try congruence; reflexivity.
Qed.

Lemma shape_has_len (n : nat) (raw : Frame.frame) :
  Frame.forecast_shape n raw = true ->
  Aggregate.has_len n "fcst" (with_dummy_CI raw) = true
  /\ Aggregate.has_len n "fcst_lower" (with_dummy_CI raw) = true
  /\ Aggregate.has_len n "fcst_upper" (with_dummy_CI raw) = true.
Proof.
  intros Hsh. destruct (Frame.shape_fcst _ _ Hsh) as [Hr [fc Hf]].
  unfold Frame.forecast_shape in Hsh. rewrite !andb_true_iff in Hsh.
  destruct Hsh as [[[_ Hc] _] _].
  assert (Hlen : forall c v, get (Frame.columns raw) c = Some v ->
                   Nat.eqb (List.length v) n = true).
  { intros c v G.
    exact (Frame.forallb_get (fun v => Nat.eqb (List.length v) n) _ _ Hc G). }
  unfold with_dummy_CI, Aggregate.has_len.
  destruct (lacks_bounds raw) eqn:E.
  - unfold add_dummy_CI. cbn [Frame.columns]. rewrite !get_set. cbn.
    rewrite Hf, repeat_length, Hr, Nat.eqb_refl.
    rewrite (Hlen _ _ Hf). repeat split; reflexivity.
  - unfold lacks_bounds in E. apply orb_false_iff in E.
    destruct E as [E1 E2]. apply negb_false_iff in E1, E2.
    unfold Frame.has_column, mem in E1, E2. rewrite Hf.
    destruct (get (Frame.columns raw) "fcst_lower") as [lo|] eqn:El;
      [|discriminate].
    destruct (get (Frame.columns raw) "fcst_upper") as [up|] eqn:Eu;
      [|discriminate].
    rewrite (Hlen _ _ Hf), (Hlen _ _ El), (Hlen _ _ Eu).
    repeat split; reflexivity.
Qed.

(** X19. A model without native interval is fatal to the weighted
    average only.  On a series without seasonality, when every fitted
    model predicts a forecast of the right shape over at least one step
    and some model's forecast lacks a bound, [aggregate] on what [predict]
    returns raises its validation error in weighted-average mode and
    returns a consensus in median mode. *)
Theorem predict_flat_then_aggregate (self : ensemble) (steps : Z)
    (fs : dict Fitted) (dates : list Z) (ws : dict Q) :
  fitted self = Some fs ->
  wf fs ->
  (forall k v, In (k, v) fs ->
     exists raw,
       predict_indexed v steps = Ok raw
       /\ Frame.forecast_shape (List.length dates) raw = true) ->
  (exists k v raw,
     In (k, v) fs
     /\ predict_indexed v steps = Ok raw
     /\ Frame.with_bounds raw = false) ->
  (0 < List.length dates)%nat ->
  List.length ws = List.length fs ->
  exists predicted,
    predict_flat self steps = Ok predicted
    /\ Aggregate.aggregate "weightedavg" dates predicted (Some ws)
       = Raise (ValueError Aggregate.ci_message)
    /\ exists out,
         Aggregate.aggregate "median" dates predicted (Some ws) = Ok out.
Proof.
  intros Hf Hwf Hok (k0 & v0 & raw0 & I0 & Hp0 & Hb0) Hn Hw.
  unfold predict_flat. rewrite Hf.
  destruct (@comp_res_returns _ _ (fun _ v => predict_indexed v steps) fs)
    as [raws Hr].
  { intros k v I. destruct (Hok k v I) as (raw & H & _). now exists raw. }
  rewrite Hr. cbn [bind].
  destruct (@comp_res_items _ _ _ _ _ Hwf Hr) as [Hkeys Hitems].
  assert (Hwr : wf raws) by (unfold wf; rewrite Hkeys; exact Hwf).
  destruct (@backfill_get _ Hwr) as [Hbk Hbg].
  assert (Hwb : wf (backfill raws)) by (unfold wf; rewrite Hbk; exact Hwr).
  exists (backfill raws). split; [reflexivity|].
  assert (Hshape : forall k raw, get raws k = Some raw ->
                     Frame.forecast_shape (List.length dates) raw = true).
  { intros k raw G. destruct (Hitems k raw G) as (v & Gv & Hp).
    apply get_in in Gv. destruct (Hok k v Gv) as (raw' & Hp' & Hs).
    congruence. }
  assert (Hag : Aggregate.aggregable (List.length dates) (backfill raws)
                = true).
  { unfold Aggregate.aggregable. apply forallb_forall. intros [k out] I.
    apply (@in_get _ _ _ _ Hwb) in I. rewrite Hbg in I.
    destruct (get raws k) as [raw|] eqn:G; [|discriminate].
    injection I as <-. cbn [snd].
    destruct (@shape_has_len _ _ (Hshape k raw G)) as (H1 & H2 & H3).
    now rewrite H1, H2, H3. }
  assert (Hne : backfill raws <> []).
  { intros E. assert (Hk := Hbk). rewrite E, Hkeys in Hk.
    destruct fs; [contradiction | discriminate]. }
  assert (Hlen : List.length ws = List.length (backfill raws)).
  { rewrite Hw. replace (List.length fs) with (List.length (keys fs))
      by apply length_map.
    rewrite <- Hkeys, <- Hbk. apply length_map. }
  split.
  - rewrite (@Aggregate.aggregate_weighted_eq _ _ _ Hne Hag Hlen).
    pose proof (@Aggregate.missing_bound_iff _ _ Hag) as Hiff.
    destruct (Aggregate.any_null _ || Aggregate.any_null _);
      [reflexivity|].
    exfalso.
    assert (Hm : Aggregate.missing_bound (backfill raws)).
    { assert (G0 : get raws k0 = Some raw0).
      { destruct (get raws k0) as [r|] eqn:E.
        - destruct (Hitems k0 r E) as (v' & G' & Hp').
          rewrite (@in_get _ _ _ _ Hwf I0) in G'. injection G' as <-.
          congruence.
        - apply get_none_notin in E. rewrite Hkeys in E.
          exfalso. apply E. change k0 with (fst (k0, v0)).
          now apply in_map. }
      exists k0, (with_dummy_CI raw0),
        (repeat Frame.NaN (List.length dates)).
      split; [apply get_in; rewrite Hbg, G0; reflexivity|].
      destruct (Frame.shape_fcst _ _ (Hshape k0 raw0 G0)) as [Hr0 _].
      split.
      - left. unfold with_dummy_CI, lacks_bounds.
        unfold Frame.with_bounds in Hb0.
        destruct (Frame.has_column raw0 "fcst_lower");
          destruct (Frame.has_column raw0 "fcst_upper");
          try discriminate; cbn [negb orb];
          unfold add_dummy_CI; cbn [Frame.columns];
          rewrite !get_set; cbn; now rewrite Hr0.
      - destruct (List.length dates); [lia|]. now left. }
    apply Hiff in Hm. discriminate.
  - eexists. now apply Aggregate.aggregate_median_ok.
Qed.

(** X20. On a seasonal series [predict] treats the fitted models in two
    ways, by their key.  The forecast of a model whose key does not
    contain ["_smodel"] is re-seasonalized, exactly as [reseasonalize]
    does with that forecast alone; the forecast of a model whose key
    contains ["_smodel"] is returned as the model predicted it, neither
    re-seasonalized nor given dummy bounds. *)
Theorem predict_seasonal_paths (self : ensemble) (m steps : Z)
    (fs : dict Fitted) (sea : TimeSeriesData) :
  fitted self = Some fs ->
  sea_data self = Some sea ->
  wf fs ->
  0 < m -> 0 <= steps ->
  m <= Z.of_nat (List.length (ts_value sea)) ->
  (forall k v, In (k, v) fs ->
     exists raw,
       predict_indexed v steps = Ok raw
       /\ (is_smodel k = false ->
           Frame.forecast_shape (Z.to_nat steps) raw = true)) ->
  exists predicted,
    predict_seasonal self m steps = Ok predicted
    /\ forall k v raw,
         get fs k = Some v -> predict_indexed v steps = Ok raw ->
         (is_smodel k = true -> get predicted k = Some raw)
         /\ (is_smodel k = false ->
             exists out,
               get predicted k = Some out
               /\ Frame.reseasonalize (ts_value sea) [(k, raw)]
                    (decomposition_method_attr self) m steps
                  = Ok [(k, out)]).
Proof.
  intros Hf Hsea Hwf Hm Hs Hl Hok.
  unfold predict_seasonal. rewrite Hf, Hsea.
  rewrite !filter_keys_filter by exact Hwf.
  set (D := filter (fun kv => negb (is_smodel (fst kv))) fs).
  set (E := filter (fun kv => is_smodel (fst kv)) fs).
  assert (HwD : wf D)
    by exact (@filter_wf _ (fun k => negb (is_smodel k)) fs Hwf).
  assert (HwE : wf E) by exact (@filter_wf _ is_smodel fs Hwf).
  destruct (@comp_res_returns _ _ (fun _ v => predict_indexed v steps) D)
    as [rawsD HrD].
  { intros k v I. apply filter_In in I. destruct I as [I _].
    destruct (Hok k v I) as (raw & H & _). now exists raw. }
  destruct (@comp_res_returns _ _ (fun _ v => predict_indexed v steps) E)
    as [rawsE HrE].
  { intros k v I. apply filter_In in I. destruct I as [I _].
    destruct (Hok k v I) as (raw & H & _). now exists raw. }
  rewrite HrD. cbn [bind].
  destruct (@comp_res_items _ _ _ _ _ HwD HrD) as [HkD HiD].
  destruct (@comp_res_items _ _ _ _ _ HwE HrE) as [HkE HiE].
  assert (HwrD : wf rawsD) by (unfold wf; rewrite HkD; exact HwD).
  assert (HwrE : wf rawsE) by (unfold wf; rewrite HkE; exact HwE).
  assert (HshD : Frame.forecasts_shape (Z.to_nat steps) rawsD = true).
  { unfold Frame.forecasts_shape. apply forallb_forall. intros [k raw] I.
    apply (@in_get _ _ _ _ HwrD) in I.
    destruct (HiD k raw I) as (v & G & Hp).
    unfold D in G. rewrite (get_filter (fun k => negb (is_smodel k))) in G.
    destruct (is_smodel k) eqn:Ek; [discriminate|]. cbn [negb] in G.
    apply get_in in G. destruct (Hok k v G) as (raw' & Hp' & Hsh).
    cbn [snd]. replace raw with raw' by congruence. now apply Hsh. }
  rewrite (Frame.reseasonalize_ok (ts_value sea) Hm Hs Hl HwrD HshD).
  cbn [bind]. rewrite HrE. cbn [bind].
  eexists. split; [reflexivity|].
  intros k v raw G Hp. rewrite (get_update _ _ HwrE).
  rewrite Frame.get_reseasonalized.
  destruct (is_smodel k) eqn:Ek.
  - split; [|discriminate]. intros _.
    assert (GE : get E k = Some v).
    { unfold E. rewrite (get_filter is_smodel), Ek. exact G. }
    destruct (comp_res_get _ _ HwE HrE GE) as (w & Gw & Hw).
    rewrite Gw. congruence.
  - split; [discriminate|]. intros _.
    assert (GE : get rawsE k = None).
    { apply get_none_notin. rewrite HkE. apply get_none_notin.
      unfold E. now rewrite (get_filter is_smodel), Ek. }
    assert (GD : get D k = Some v).
    { unfold D. rewrite (get_filter (fun k => negb (is_smodel k))), Ek.
      exact G. }
    destruct (comp_res_get _ _ HwD HrD GD) as (w & Gw & Hw).
    assert (w = raw) by congruence. subst w.
    rewrite GE, Gw. cbn [option_map]. eexists. split; [reflexivity|].
    destruct (Hok k v (get_in _ _ G)) as (raw' & Hp' & Hsh).
    assert (raw' = raw) by congruence. subst raw'.
    rewrite (Frame.reseasonalize_ok (ts_value sea) (desea_predict := [(k, raw)])
               Hm Hs Hl).
    + reflexivity.
    + apply wfb_wf. reflexivity.
    + unfold Frame.forecasts_shape. cbn [forallb snd].
      now rewrite (Hsh Ek).
Qed.

(** *** A period of zero *)

(** X22. Validation bounds the seasonality length from above only: on a
    series of at least three time stamps a length of zero passes
    construction, and on a seasonal series [predict] then raises a division
    by zero when it re-seasonalizes, once the forecasts of the
    de-seasonalized models are made. *)
Theorem zero_seasonality_length (d : TimeSeriesData) (p : params) :
  3 <= len_time d ->
  valid_aggregation p ->
  seasonality_length p = Some 0 ->
  (exists self, init d p = Ok self)
  /\ forall self steps fs sea,
       fitted self = Some fs ->
       sea_data self = Some sea ->
       wf fs ->
       (forall k v, In (k, v) fs ->
          exists raw, predict_indexed v steps = Ok raw) ->
       predict_seasonal self 0 steps = Raise ZeroDivisionError.
Proof.
  intros H3 Hag Hlen. split.
  - destruct (@init_ok d p H3 Hag) as (self & Hi & _).
    + intros m Hm. rewrite Hlen in Hm. injection Hm as <-.
      apply Z.div_pos; lia.
    + now exists self.
  - intros self steps fs sea Hf Hsea Hwf Hok.
    unfold predict_seasonal. rewrite Hf, Hsea.
    rewrite !filter_keys_filter by exact Hwf.
    destruct (@comp_res_returns _ _ (fun _ v => predict_indexed v steps)
                (filter (fun kv => negb (is_smodel (fst kv))) fs))
      as [raws Hr].
    { intros k v I. apply filter_In in I. destruct I as [I _].
      now apply (Hok k v). }
    rewrite Hr. reflexivity.
Qed.

(** *** Backtests, and the default forecast executor *)

Lemma backtester_all_done (self s : ensemble) (we : dict Q * dict Q) :
  backtester_all self = Done we s ->
  exists ms tasks,
    model_params_attr self = Some ms
    /\ submit_all ms = Ok tasks
    /\ comp_res (fun _ t => backtester_single self (snd t) (fst t)) tasks
       = Ok (snd we)
    /\ Weights.backtester_weights (snd we) = Ok (fst we)
    /\ s = set_errors self (snd we).
Proof.
  unfold backtester_all, and_then, lift.
  destruct (Pool.make_pool _); [|discriminate].
  destruct (model_params_attr self) as [ms|]; [|discriminate].
  destruct (submit_all ms) as [tasks|] eqn:Et; [|discriminate].
  destruct (comp_res _ tasks) as [errs|] eqn:Ee; [|discriminate].
  destruct (Weights.backtester_weights errs) as [ws|] eqn:Ew; [|discriminate].
  intros [= <- <-]. exists ms, tasks. cbn [fst snd]. repeat split; auto.
Qed.

Lemma tasks_items (ms : list BaseModelParams)
    (tasks : dict (model_class * Params)) :
  submit_all ms = Ok tasks ->
  wf tasks
  /\ (forall n, In n (keys tasks) <-> In n (map model_name ms))
  /\ forall n cls pr, get tasks n = Some (cls, pr) ->
       exists m,
         last_named n ms = Some m
         /\ get MODELS (family n) = Some cls
         /\ pr = model_params m.
Proof.
  intros H. unfold submit_all in H.
  pose proof (submit_get _ _ H) as [_ Hget].
  apply submit_acc in H; [|constructor]. destruct H as (Hwf & Hk & _).
  split; [exact Hwf|]. split; [intros n; rewrite Hk; simpl; tauto|].
  intros n cls pr G. rewrite Hget in G.
  destruct (last_named n ms) as [m|]; [|discriminate].
  destruct (lookup_model n) as [cls'|] eqn:El; [|discriminate].
  injection G as -> <-. exists m. split; [reflexivity|].
  split; [now apply lookup_model_ok | reflexivity].
Qed.

Lemma backtester_all_items (self s : ensemble) (ws errs : dict Q) :
  backtester_all self = Done (ws, errs) s ->
  exists ms,
    model_params_attr self = Some ms
    /\ s = set_errors self errs
    /\ NoDup (keys errs)
    /\ (forall n, In n (keys errs) <-> In n (map model_name ms))
    /\ (forall n e, get errs n = Some e ->
          exists m cls,
            last_named n ms = Some m
            /\ get MODELS (family n) = Some cls
            /\ backtest_error (data self) (model_params m) cls = Ok e)
    /\ Weights.backtester_weights errs = Ok ws.
Proof.
  intros H. apply backtester_all_done in H.
  destruct H as (ms & tasks & Hmp & Ht & He & Hw & Hs).
  cbn [fst snd] in *. exists ms.
  destruct (tasks_items _ Ht) as (Hwf & Hk & Hg).
  destruct (@comp_res_items _ _ _ _ _ Hwf He) as [Hkeys Hitems].
  split; [exact Hmp|]. split; [exact Hs|].
  split; [rewrite Hkeys; exact Hwf|].
  split; [intros n; rewrite Hkeys; apply Hk|]. split; [|exact Hw].
  intros n e G. destruct (Hitems n e G) as ([cls pr] & Gt & Hb).
  destruct (Hg n cls pr Gt) as (m & Hl & Hc & ->).
  exists m, cls. repeat split; assumption.
Qed.

(** X25. [_backtester_all] backtests the models of [self.model_params],
    each on the original series [self.data]: the errors it returns and
    assigns to [self.errors] are keyed by the distinct model names, and it
    returns with them the weights derived from them, under the same keys.
    Called before [self.model_params] is assigned, it raises an attribute
    error (on a machine where the pool can be created). *)
Theorem backtester_all_errors (self : ensemble) :
  (forall ws errs s, backtester_all self = Done (ws, errs) s ->
     exists ms,
       model_params_attr self = Some ms
       /\ s = set_errors self errs
       /\ NoDup (keys errs)
       /\ (forall n, In n (keys errs) <-> In n (map model_name ms))
       /\ (forall n e, get errs n = Some e ->
             exists m cls,
               last_named n ms = Some m
               /\ get MODELS (family n) = Some cls
               /\ backtest_error (data self) (model_params m) cls = Ok e)
       /\ Weights.backtester_weights errs = Ok ws
       /\ keys ws = keys errs)
  /\ (model_params_attr self = None -> 3 <= cpu_count ->
      backtester_all self = Fail (AttributeError "model_params") self).
Proof.
  split.
  - intros ws errs s H.
    destruct (@backtester_all_items _ _ _ _ H)
      as (ms & Hmp & Hs & Hnd & Hk & Hg & Hw).
    exists ms. repeat (split; [assumption|]).
    destruct (Weights.weights_char Hnd Hw) as [-> _].
    unfold keys, Weights.scaled. rewrite map_map. reflexivity.
  - intros Hn Hcpu. unfold backtester_all, and_then, lift.
    unfold Pool.backtester_all_num_process.
    change (Pool.len (keys MODELS)) with (Pool.len MODELS).
    fold (Pool.fitExecutor_num_process cpu_count).
    rewrite (Pool.make_pool_ok Hcpu). now rewrite Hn.
Qed.

(** [forecastExecutor], the method of the class: fit, predict, and the
    backtests when asked for; returns the forecasts and the errors. *)
Definition forecastExecutor (self : ensemble) (d : TimeSeriesData)
    (ms : list BaseModelParams) (steps : Z) (should_auto_backtest : bool)
  : run (dict Frame.frame * option (dict Q)) :=
  and_then
    (lift (Pool.make_pool (Pool.forecastExecutor_num_process cpu_count))
       self)
    (fun _ self =>
       and_then (lift (submit_all ms) self)
         (fun fitted_models self =>
            and_then
              (lift (comp_res
                       (fun _ t => fit_single d (fst t) (snd t))
                       fitted_models) self)
              (fun fitted self =>
                 and_then
                   (lift (comp_res
                            (fun _ model_fitted =>
                               predict_indexed model_fitted steps)
                            fitted) self)
                   (fun predicted self =>
                      let self := set_model_params self ms in
                      if should_auto_backtest
                      then and_then (backtester_all self)
                             (fun we self =>
                                Done (predicted, Some (snd we)) self)
                      else Done (predicted, None) self)))).

(** X26. The default forecast executor fits every model of the batch on
    the data it is given and returns its forecast for the horizon, keyed by
    model name (the last model of a name), and it assigns the batch to
    [self.model_params].  Without backtest it returns no errors; with it,
    the errors it returns and assigns to [self.errors] are those of
    backtests on the original series [self.data], whatever data was
    given. *)
Theorem forecastExecutor_result (self s : ensemble) (d : TimeSeriesData)
    (ms : list BaseModelParams) (steps : Z) (auto : bool)
    (pe : dict Frame.frame * option (dict Q)) :
  forecastExecutor self d ms steps auto = Done pe s ->
  model_params_attr s = Some ms
  /\ (forall n, In n (keys (fst pe)) <-> In n (map model_name ms))
  /\ (forall n raw, get (fst pe) n = Some raw ->
        exists m cls a,
          last_named n ms = Some m
          /\ get MODELS (family n) = Some cls
          /\ model_fit cls (model_params m) d = Ok a
          /\ predict_indexed a steps = Ok raw)
  /\ (auto = false -> snd pe = None /\ s = set_model_params self ms)
  /\ (auto = true ->
      exists errs,
        snd pe = Some errs
        /\ s = set_errors (set_model_params self ms) errs
        /\ (forall n, In n (keys errs) <-> In n (map model_name ms))
        /\ forall n e, get errs n = Some e ->
             exists m cls,
               last_named n ms = Some m
               /\ get MODELS (family n) = Some cls
               /\ backtest_error (data self) (model_params m) cls = Ok e).
Proof.
  unfold forecastExecutor, and_then, lift.
  destruct (Pool.make_pool _); [|discriminate].
  destruct (submit_all ms) as [tasks|] eqn:Et; [|discriminate].
  destruct (comp_res _ tasks) as [fitted|] eqn:Ef; [|discriminate].
  destruct (comp_res _ fitted) as [predicted|] eqn:Ep; [|discriminate].
  destruct (tasks_items _ Et) as (Hwf & Hk & Hg).
  destruct (@comp_res_items _ _ _ _ _ Hwf Ef) as [Hkf Hif].
  assert (Hwff : wf fitted) by (unfold wf; rewrite Hkf; exact Hwf).
  destruct (@comp_res_items _ _ _ _ _ Hwff Ep) as [Hkp Hip].
  assert (Hpred : forall n raw, get predicted n = Some raw ->
            exists m cls a,
              last_named n ms = Some m
              /\ get MODELS (family n) = Some cls
              /\ model_fit cls (model_params m) d = Ok a
              /\ predict_indexed a steps = Ok raw).
  { intros n raw G. destruct (Hip n raw G) as (art & Ga & Hp).
    destruct (Hif n art Ga) as ([cls pr] & Gt & Hfit).
    destruct (Hg n cls pr Gt) as (m & Hl & Hc & ->).
    exists m, cls, art. repeat split; assumption. }
  assert (Hkeys : forall n, In n (keys predicted)
                            <-> In n (map model_name ms)).
  { intros n. rewrite Hkp, Hkf. apply Hk. }
  destruct auto.
  - destruct (backtester_all (set_model_params self ms)) as [we s'|] eqn:Eb;
      [|discriminate].
    intros [= <- <-]. cbn [fst snd].
    destruct we as [ws errs].
    destruct (@backtester_all_items _ _ _ _ Eb)
      as (ms' & Hmp & Hs & Hnd & Hke & Hge & _).
    cbn [model_params_attr set_model_params] in Hmp.
    injection Hmp as <-. subst s'.
    split; [reflexivity|]. split; [exact Hkeys|]. split; [exact Hpred|].
    split; [discriminate|]. intros _. exists errs. cbn [snd].
    split; [reflexivity|]. split; [reflexivity|].
    split; [exact Hke | exact Hge].
  - intros [= <- <-]. cbn [fst snd].
    split; [reflexivity|]. split; [exact Hkeys|]. split; [exact Hpred|].
    split; [intros _; split; reflexivity | discriminate].
Qed.

End WithCollaborators.

(** *** A concrete ensemble

    Ninety daily points, a weekly period, two configured families (one of
    them seasonal-capable), collaborators that always succeed and eight
    processors. *)

Definition example_data : TimeSeriesData :=
  {| ts_time := map Z.of_nat (seq 0 90);
     ts_value := repeat (Frame.Num 1) 90 |}.

(** Daily time stamps. *)
Definition example_freq (time : list Z) : option string := Some "D".

Definition example_detector (d : TimeSeriesData) : bool := true.

Definition example_decomposer (d : TimeSeriesData) (method : string)
  : TimeSeriesData :=
  {| ts_time := ts_time d;
     ts_value := repeat (Frame.Num 0) (List.length (ts_value d)) |}.

(** The fitted artifact records the class it was fitted with. *)
Definition example_model_fit (cls : model_class) (pr : unit)
    (d : TimeSeriesData) : result model_class := Ok cls.

Definition example_backtest (d : TimeSeriesData) (pr : unit)
    (cls : model_class) : result Q := Ok (1 # 10)%Q.

Definition example_models : list (BaseModelParams unit) :=
  [ {| model_name := "arima"; model_params := tt |};
    {| model_name := "prophet"; model_params := tt |} ].

Definition example_params (key : entry (fit_executor unit model_class))
  : params unit model_class :=
  {| models := example_models;
     aggregation := "median";
     decomposition_method := "additive";
     seasonality_length := Some 7;
     forecastExecutor_key := Absent;
     fitExecutor_key := key |}.

Definition example_self (key : entry (fit_executor unit model_class))
  : ensemble unit model_class :=
  {| data := example_data;
     freq := Some "D";
     self_params := example_params key;
     decomposition_method_attr := "additive";
     forecastExecutor_attr := None;
     fitExecutor_attr := None;
     seasonality := None;
     sea_data := None;
     desea_data := None;
     model_params_attr := None;
     fitted := None;
     weights := None;
     errors := None |}.

Definition example_fit (self : ensemble unit model_class)
  : outcome unit model_class :=
  fit example_detector example_decomposer example_model_fit
    example_backtest 8 self.

(** The scenario of the specification: three fitted artifacts. *)
Example fit_three_artifacts :
  exists self',
    example_fit (example_self Absent) = Returned self'
    /\ option_map (@keys model_class) (fitted self')
       = Some ["arima"; "prophet"; "prophet_smodel"].
Proof. eexists. split; reflexivity. Qed.

(** A period of 46 on 90 points is refused, 45 is accepted. *)
Example init_refuses_46 :
  init (Fitted := model_class) example_freq example_data
    {| models := example_models;
       aggregation := "median";
       decomposition_method := "additive";
       seasonality_length := Some 46;
       forecastExecutor_key := Absent;
       fitExecutor_key := Absent |}
  = Raise (ValueError seasonality_message).
Proof. reflexivity. Qed.

Example init_accepts_45 :
  exists self,
    init (Fitted := model_class) example_freq example_data
      {| models := example_models;
         aggregation := "median";
         decomposition_method := "additive";
         seasonality_length := Some 45;
         forecastExecutor_key := Absent;
         fitExecutor_key := Absent |}
    = Ok self.
Proof. eexists. reflexivity. Qed.

Lemma fit_seasonal_batch_witness :
  (forall self', example_fit (example_self Absent) = Returned self' ->
     model_params_attr self' = Some (spec_batch example_models)
     /\ exists fs,
          fitted self' = Some fs
          /\ NoDup (keys fs)
          /\ (forall name,
                In name (keys fs)
                <-> In name (map (@model_name unit)
                               (spec_batch example_models)))
          /\ (forall name a, get fs name = Some a ->
                exists m cls,
                  In m (spec_batch example_models)
                  /\ model_name m = name
                  /\ get MODELS (family name) = Some cls
                  /\ example_model_fit cls (model_params m)
                       (snd (deseasonalize example_decomposer example_data
                               "additive"))
                     = Ok a)
          /\ (forall m1 m2,
                example_models = [m1; m2] ->
                family (model_name m1) <> family (model_name m2) ->
                smodel_named m1 = negb (smodel_named m2) ->
                List.length fs = 3%nat
                /\ forall name,
                     In name (keys fs)
                     <-> name = model_name m1
                         \/ name = model_name m2
                         \/ name = model_name
                                     (if smodel_named m1 then m1 else m2)
                                   ++ "_smodel"))
  /\ ("median" = "median" ->
      3 <= 8 ->
      Some 7 <> None ->
      (forall m, In m (spec_batch example_models) ->
         exists cls a,
           get MODELS (family (model_name m)) = Some cls
           /\ example_model_fit cls (model_params m)
                (snd (deseasonalize example_decomposer example_data
                        "additive"))
              = Ok a) ->
      exists self', example_fit (example_self Absent) = Returned self').
Proof.
  apply (@fit_seasonal_batch unit model_class example_detector
           example_decomposer example_model_fit example_backtest 8
           example_freq example_data (example_params Absent) (example_self Absent)).
  - reflexivity.
  - reflexivity.
  - reflexivity.
Defined.

(** Two configured families, [prophet] and [arima], of which exactly
    [prophet] is seasonal-capable; its model carries a version in its
    name. *)
Definition example_params_versioned : params unit model_class :=
  {| models :=
       [ {| model_name := "prophet_v2"; model_params := tt |};
         {| model_name := "arima"; model_params := tt |} ];
     aggregation := "median";
     decomposition_method := "additive";
     seasonality_length := Some 7;
     forecastExecutor_key := Absent;
     fitExecutor_key := Absent |}.

(** C8, as stated, fails: whether a model gets a suffixed copy is decided
    by its whole lower-cased name, not by its family, so here [fit] makes
    no copy and fits exactly 2 artifacts. *)
Lemma fit_tests_name_not_family :
  family "prophet_v2" = "prophet"
  /\ family "arima" = "arima"
  /\ mem SMODELS (family "prophet_v2") = true
  /\ mem SMODELS (family "arima") = false
  /\ exists self self' fs,
       init example_freq example_data example_params_versioned = Ok self
       /\ example_fit self = Returned self'
       /\ fitted self' = Some fs
       /\ keys fs = ["prophet_v2"; "arima"]
       /\ List.length fs = 2%nat.
Proof.
  repeat split; try reflexivity.
  eexists. eexists. eexists. repeat split; reflexivity.
Qed.

(** Below three time stamps the constructor raises in the frequency
    inference, whatever the parameters. *)
Example init_two_points :
  init (Fitted := model_class) example_freq
    {| ts_time := [1; 2]; ts_value := [Frame.Num 1; Frame.Num 2] |}
    (example_params Absent)
  = Raise (ValueError infer_freq_message).
Proof. reflexivity. Qed.

Lemma fit_with_fitExecutor_none_witness :
  exists self,
    init example_freq example_data (example_params IsNone) = Ok self
    /\ fitExecutor_attr self = None
    /\ local_fitExecutor self = None
    /\ (exists self',
         example_fit self = Raised (UnboundLocalError "fitExecutor") self'
         /\ fitted self' = None)
    /\ (forall s : ensemble unit model_class,
          local_fitExecutor s <> None
          <-> fitExecutor_key (self_params s) = Absent).
Proof.
  apply (@fit_with_fitExecutor_none unit model_class example_detector
           example_decomposer example_model_fit example_backtest 8
           example_freq example_data (example_params IsNone)).
  - reflexivity.
  - vm_compute. discriminate.
  - left. reflexivity.
  - intros m [= <-]. vm_compute. discriminate.
  - intros _. discriminate.
Defined.

(** *** Further concrete instances *)

Definition example_flat_detector (d : TimeSeriesData) : bool := false.

Definition example_custom : fit_executor unit model_class :=
  fun d ms auto => Ok ([], None).

(** A method that is neither of the two. *)
Definition example_params_stl : params unit model_class :=
  {| models := example_models;
     aggregation := "median";
     decomposition_method := "stl";
     seasonality_length := Some 7;
     forecastExecutor_key := Absent;
     fitExecutor_key := Absent |}.

Lemma init_decomposition_method_witness :
  exists self,
    init example_freq example_data example_params_stl = Ok self
    /\ (decomposition_method_attr self = "additive"
        \/ decomposition_method_attr self = "multiplicative")
    /\ (decomposition_method example_params_stl = "additive"
        \/ decomposition_method example_params_stl = "multiplicative" ->
        decomposition_method_attr self
        = decomposition_method example_params_stl)
    /\ (decomposition_method example_params_stl <> "additive" ->
        decomposition_method example_params_stl <> "multiplicative" ->
        decomposition_method_attr self = "additive").
Proof.
  apply (@init_decomposition_method unit model_class example_freq
           example_data example_params_stl).
  - vm_compute. discriminate.
  - left. reflexivity.
  - intros m [= <-]. vm_compute. discriminate.
Defined.

Lemma fit_with_custom_fitExecutor_witness :
  (exists self,
     init example_freq example_data (example_params (Given example_custom))
     = Ok self
     /\ fitExecutor_attr self = Some example_custom
     /\ exists self',
          example_fit self = Raised (UnboundLocalError "fitExecutor") self'
          /\ fitted self' = None)
  /\ (forall s s', example_fit s = Returned s' ->
        fitExecutor_key (self_params s) = Absent).
Proof.
  apply (@fit_with_custom_fitExecutor unit model_class example_detector
           example_decomposer example_model_fit example_backtest 8
           example_freq example_data (example_params (Given example_custom))
           example_custom).
  - reflexivity.
  - vm_compute. discriminate.
  - left. reflexivity.
  - intros m [= <-]. vm_compute. discriminate.
  - intros _. discriminate.
Defined.

Definition example_params_no_length : params unit model_class :=
  {| models := example_models;
     aggregation := "weightedavg";
     decomposition_method := "additive";
     seasonality_length := None;
     forecastExecutor_key := Absent;
     fitExecutor_key := Absent |}.

Lemma fit_seasonal_without_length_witness :
  exists self,
    init example_freq example_data example_params_no_length = Ok self
    /\ exists self',
         example_fit self = Raised (ValueError fit_message) self'
         /\ seasonality self' = Some true
         /\ sea_data self' = None
         /\ desea_data self' = None
         /\ model_params_attr self' = None
         /\ fitted self' = None.
Proof.
  apply (@fit_seasonal_without_length unit model_class example_detector
           example_decomposer example_model_fit example_backtest 8
           example_freq example_data example_params_no_length).
  - vm_compute. discriminate.
  - right. reflexivity.
  - reflexivity.
  - reflexivity.
Defined.

Lemma fit_needs_three_processors_witness :
  exists e self',
    fit example_detector example_decomposer example_model_fit
      example_backtest 2 (example_self Absent) = Raised e self'
    /\ fitted self' = None.
Proof.
  apply (@fit_needs_three_processors unit model_class example_detector
           example_decomposer example_model_fit example_backtest 2
           example_freq example_data (example_params Absent) (example_self Absent)).
  - reflexivity.
  - reflexivity.
  - reflexivity.
Defined.

Lemma fit_nonseasonal_witness :
  (forall self',
     fit example_flat_detector example_decomposer example_model_fit
       example_backtest 8 (example_self Absent) = Returned self' ->
     model_params_attr self' = Some example_models
     /\ sea_data self' = None
     /\ desea_data self' = None
     /\ exists fs,
          fitted self' = Some fs
          /\ (forall name,
                In name (keys fs)
                <-> In name (map (@model_name unit) example_models))
          /\ (forall name a, get fs name = Some a ->
                exists m cls,
                  In m example_models
                  /\ model_name m = name
                  /\ get MODELS (family name) = Some cls
                  /\ example_model_fit cls (model_params m) example_data
                     = Ok a))
  /\ ("median" = "median" ->
      3 <= 8 ->
      (forall m, In m example_models ->
         exists cls a,
           get MODELS (family (model_name m)) = Some cls
           /\ example_model_fit cls (model_params m) example_data = Ok a) ->
      exists self',
        fit example_flat_detector example_decomposer example_model_fit
          example_backtest 8 (example_self Absent) = Returned self'
        /\ weights self' = Some None
        /\ errors self' = None).
Proof.
  apply (@fit_nonseasonal unit model_class example_flat_detector
           example_decomposer example_model_fit example_backtest 8
           example_freq example_data (example_params Absent) (example_self Absent)).
  - reflexivity.
  - reflexivity.
  - reflexivity.
Defined.

Definition example_unknown : BaseModelParams unit :=
  {| model_name := "lstm_1"; model_params := tt |}.

Lemma fitExecutor_unknown_family_witness :
  fitExecutor example_model_fit example_backtest 8 (example_self Absent)
    example_data (example_models ++ example_unknown :: example_models) true
  = @Fail _ _ _ (KeyError (family (model_name example_unknown)))
      (example_self Absent).
Proof.
  apply (@fitExecutor_unknown_family unit model_class example_model_fit
           example_backtest 8 (example_self Absent) example_data
           example_models example_models example_unknown true).
  - discriminate.
  - intros m' [<-|[<-|[]]]; eexists; reflexivity.
  - reflexivity.
Defined.

(** Two models named alike: one artifact. *)
Definition example_twice : list (BaseModelParams unit) :=
  [ {| model_name := "arima"; model_params := tt |};
    {| model_name := "prophet"; model_params := tt |};
    {| model_name := "arima"; model_params := tt |} ].

Lemma fitExecutor_last_name_wins_witness :
  exists fw s,
    fitExecutor example_model_fit example_backtest 8 (example_self Absent)
      example_data example_twice false = @Done _ _ _ fw s
    /\ NoDup (keys (fst fw))
    /\ (List.length (fst fw) <= List.length example_twice)%nat
    /\ forall name a, get (fst fw) name = Some a ->
         exists m cls,
           last_named name example_twice = Some m
           /\ get MODELS (family name) = Some cls
           /\ example_model_fit cls (model_params m) example_data = Ok a.
Proof.
  eexists. eexists. split; [reflexivity|].
  apply (@fitExecutor_last_name_wins unit model_class example_model_fit
           example_backtest 8 (example_self Absent) (example_self Absent)
           example_data example_twice false).
  reflexivity.
Defined.

Lemma smodel_copy_lookup_witness :
  exists cls,
    get SMODELS
      (PyStr.lower (model_name {| model_name := "Prophet";
                                  model_params := tt |})) = Some cls
    /\ lookup_model "Prophet" = Ok cls
    /\ lookup_model
         (model_name (smodel_copy {| model_name := "Prophet";
                                     model_params := tt |})) = Ok cls.
Proof.
  apply (@smodel_copy_lookup unit
           {| model_name := "Prophet"; model_params := tt |}).
  reflexivity.
Defined.

(** Predictions over [steps] rows, with a time column; the linear and the
    quadratic model have no native interval. *)
Definition example_model_predict (cls : model_class) (steps : Z)
  : result Frame.frame :=
  let n := Z.to_nat steps in
  let stamps :=
    map (fun i => Frame.Num (inject_Z (200 + Z.of_nat i))) (seq 1 n) in
  let point := [("time", stamps); ("fcst", repeat (Frame.Num 10) n)] in
  let interval :=
    [ ("fcst_lower", repeat (Frame.Num 8) n);
      ("fcst_upper", repeat (Frame.Num 12) n) ] in
  Ok {| Frame.index := map (fun i => Frame.Num (inject_Z (Z.of_nat i)))
                           (seq 0 n);
        Frame.columns :=
          match cls with
          | LinearModel | QuadraticModel => point
          | _ => (point ++ interval)%list
          end |}.

Definition example_fitted_self (fs : dict model_class)
  : ensemble unit model_class :=
  {| data := example_data;
     freq := Some "D";
     self_params := example_params Absent;
     decomposition_method_attr := "additive";
     forecastExecutor_attr := None;
     fitExecutor_attr := None;
     seasonality := Some true;
     sea_data :=
       Some {| ts_time := [1; 2; 3; 4; 5];
               ts_value := Frame.example_seasonal |};
     desea_data := None;
     model_params_attr := None;
     fitted := Some fs;
     weights := Some None;
     errors := None |}.

Definition example_fitted : dict model_class :=
  [ ("arima", ARIMAModel); ("linear", LinearModel);
    ("prophet_smodel", ProphetModel) ].

Lemma predict_flat_bounds_witness :
  exists predicted,
    predict_flat example_model_predict (example_fitted_self example_fitted) 3
    = Ok predicted
    /\ keys predicted = keys example_fitted
    /\ forall k v raw,
         get example_fitted k = Some v ->
         predict_indexed example_model_predict v 3 = Ok raw ->
         exists out,
           get predicted k = Some out
           /\ Frame.has_column out "fcst_lower" = true
           /\ Frame.has_column out "fcst_upper" = true
           /\ (Frame.with_bounds raw = true -> out = raw)
           /\ (Frame.with_bounds raw = false ->
               Frame.index out = Frame.index raw
               /\ get (Frame.columns out) "fcst_lower"
                  = Some (repeat Frame.NaN (Frame.nrows raw))
               /\ get (Frame.columns out) "fcst_upper"
                  = Some (repeat Frame.NaN (Frame.nrows raw))
               /\ forall c, c <> "fcst_lower" -> c <> "fcst_upper" ->
                    get (Frame.columns out) c = get (Frame.columns raw) c).
Proof.
  apply (@predict_flat_bounds unit model_class example_model_predict
           (example_fitted_self example_fitted) 3 example_fitted).
  - reflexivity.
  - apply wfb_wf. reflexivity.
  - intros k v [[= <- <-]|[[= <- <-]|[[= <- <-]|[]]]];
      eexists; reflexivity.
Defined.

Lemma predict_flat_then_aggregate_witness :
  exists predicted,
    predict_flat example_model_predict (example_fitted_self example_fitted) 3
    = Ok predicted
    /\ Aggregate.aggregate "weightedavg" [201; 202; 203] predicted
         (Some [("arima", 1 # 2); ("linear", 1 # 4);
                ("prophet_smodel", 1 # 4)]%Q)
       = Raise (ValueError Aggregate.ci_message)
    /\ exists out,
         Aggregate.aggregate "median" [201; 202; 203] predicted
           (Some [("arima", 1 # 2); ("linear", 1 # 4);
                  ("prophet_smodel", 1 # 4)]%Q)
         = Ok out.
Proof.
  apply (@predict_flat_then_aggregate unit model_class example_model_predict
           (example_fitted_self example_fitted) 3 example_fitted
           [201; 202; 203]).
  - reflexivity.
  - apply wfb_wf. reflexivity.
  - intros k v [[= <- <-]|[[= <- <-]|[[= <- <-]|[]]]];
      eexists; split; reflexivity.
  - exists "linear", LinearModel. eexists.
    split; [right; left; reflexivity|]. split; reflexivity.
  - simpl. lia.
  - reflexivity.
Defined.

Lemma predict_seasonal_paths_witness :
  exists predicted,
    predict_seasonal example_model_predict
      (example_fitted_self example_fitted) 2 3 = Ok predicted
    /\ forall k v raw,
         get example_fitted k = Some v ->
         predict_indexed example_model_predict v 3 = Ok raw ->
         (is_smodel k = true -> get predicted k = Some raw)
         /\ (is_smodel k = false ->
             exists out,
               get predicted k = Some out
               /\ Frame.reseasonalize Frame.example_seasonal [(k, raw)]
                    "additive" 2 3
                  = Ok [(k, out)]).
Proof.
  apply (@predict_seasonal_paths unit model_class example_model_predict
           (example_fitted_self example_fitted) 2 3 example_fitted
           {| ts_time := [1; 2; 3; 4; 5];
              ts_value := Frame.example_seasonal |}).
  - reflexivity.
  - reflexivity.
  - apply wfb_wf. reflexivity.
  - reflexivity.
  - discriminate.
  - discriminate.
  - intros k v [[= <- <-]|[[= <- <-]|[[= <- <-]|[]]]];
      eexists; (split; [reflexivity|]); intros H;
      try reflexivity; discriminate.
Defined.

Definition example_params_zero : params unit model_class :=
  {| models := example_models;
     aggregation := "median";
     decomposition_method := "additive";
     seasonality_length := Some 0;
     forecastExecutor_key := Absent;
     fitExecutor_key := Absent |}.

Lemma zero_seasonality_length_witness :
  (exists self, init example_freq example_data example_params_zero = Ok self)
  /\ forall (self : ensemble unit model_class) steps fs sea,
       fitted self = Some fs ->
       sea_data self = Some sea ->
       wf fs ->
       (forall k v, In (k, v) fs ->
          exists raw, predict_indexed example_model_predict v steps = Ok raw) ->
       predict_seasonal example_model_predict self 0 steps
       = Raise ZeroDivisionError.
Proof.
  apply (@zero_seasonality_length unit model_class example_freq
           example_model_predict example_data example_params_zero).
  - vm_compute. discriminate.
  - left. reflexivity.
  - reflexivity.
Defined.

(** The batch is assigned, then backtested on the ninety points. *)
Definition example_backtested_self : ensemble unit model_class :=
  set_model_params (example_self Absent) example_models.

Lemma backtester_all_errors_witness :
  exists ws errs s,
    backtester_all example_backtest 8 example_backtested_self
    = Done (ws, errs) s
    /\ exists ms,
         model_params_attr example_backtested_self = Some ms
         /\ s = set_errors example_backtested_self errs
         /\ NoDup (keys errs)
         /\ (forall n, In n (keys errs) <-> In n (map (@model_name _) ms))
         /\ (forall n e, get errs n = Some e ->
               exists m cls,
                 last_named n ms = Some m
                 /\ get MODELS (family n) = Some cls
                 /\ example_backtest (data example_backtested_self)
                      (model_params m) cls = Ok e)
         /\ Weights.backtester_weights errs = Ok ws
         /\ keys ws = keys errs.
Proof.
  eexists. eexists. eexists. split; [reflexivity|].
  apply (proj1 (@backtester_all_errors unit model_class example_model_fit
                  example_backtest 8 example_backtested_self)).
  reflexivity.
Defined.

(** The forecast executor on the de-seasonalized series, with backtest. *)
Definition example_flat_data : TimeSeriesData :=
  example_decomposer example_data "additive".

Lemma forecastExecutor_result_witness :
  exists pe s,
    forecastExecutor example_model_fit example_backtest 8
      example_model_predict (example_self Absent) example_flat_data
      example_models 3 true
    = Done pe s
    /\ model_params_attr s = Some example_models
    /\ (forall n, In n (keys (fst pe))
                  <-> In n (map (@model_name _) example_models))
    /\ (forall n raw, get (fst pe) n = Some raw ->
          exists m cls a,
            last_named n example_models = Some m
            /\ get MODELS (family n) = Some cls
            /\ example_model_fit cls (model_params m) example_flat_data = Ok a
            /\ predict_indexed example_model_predict a 3 = Ok raw)
    /\ (true = false ->
        snd pe = None
        /\ s = set_model_params (example_self Absent) example_models)
    /\ (true = true ->
        exists errs,
          snd pe = Some errs
          /\ s = set_errors
                   (set_model_params (example_self Absent) example_models)
                   errs
          /\ (forall n, In n (keys errs)
                        <-> In n (map (@model_name _) example_models))
          /\ forall n e, get errs n = Some e ->
               exists m cls,
                 last_named n example_models = Some m
                 /\ get MODELS (family n) = Some cls
                 /\ example_backtest (data (example_self Absent))
                      (model_params m) cls = Ok e).
Proof.
  eexists. eexists. split; [reflexivity|].
  apply (@forecastExecutor_result unit model_class example_model_fit
           example_backtest 8 example_model_predict (example_self Absent)
           _ example_flat_data example_models 3 true).
  reflexivity.
Defined.

End Ensemble.

(** ** [models/sarima.py]: the forecast table of [SARIMAModel.predict] *)

Module Sarima.
Import PyDict Frame.
Local Open Scope string_scope.
Local Open Scope list_scope.
Local Open Scope Z_scope.

(** The fields of [SARIMAParams] that [predict] reads;
    [seasonal_order] is [(P, D, Q, s)]. *)
Record SARIMAParams : Type := {
  p : Z;
  d : Z;
  q : Z;
  seasonal_order : Z * Z * Z * Z
}.

(** [self.model.get_forecast(steps)] for at least one step: the predicted
    mean (a series, with its index), and the rows (lower, upper) of
    [conf_int()], the first apart. *)
Record forecast_results : Type := {
  mean_index : list cell;
  predicted_mean : list cell;
  ci_first : cell * cell;
  ci_rest : list (cell * cell)
}.

Definition conf_int (fc : forecast_results) : list (cell * cell) :=
  ci_first fc :: ci_rest fc.

(** [self.model.get_prediction(0)]: the fitted values over the history,
    the names of the two columns of [conf_int()] and its rows. *)
Record history_results : Type := {
  history_mean : list cell;
  ci_names : string * string;
  history_ci : list (cell * cell)
}.

(** The attributes [y_fcst_lower] and [y_fcst_upper], unset until a call
    assigns them. *)
Record bounds_attrs : Type := {
  y_fcst_lower : option (list cell);
  y_fcst_upper : option (list cell)
}.

(** [a < b] on floats: false when either is not-a-number *)
Definition cell_ltb (a b : cell) : bool :=
  match a, b with
  | Num x, Num y => negb (Qle_bool y x)
  | _, _ => false
  end.

(** [k = max(p, d, q) + max(seasonal_order[0:3]) * seasonal_order[3] + 1] *)
Definition invalid_rows (ps : SARIMAParams) : Z :=
  let '(sP, sD, sQ, s) := seasonal_order ps in
  Z.max (Z.max (p ps) (d ps)) (q ps) + Z.max (Z.max sP sD) sQ * s + 1.

(** [df.loc[0:k, column] = np.nan] on the default index: the label slice
    includes its end, rows 0 to k. *)
Definition blank_rows (k : Z) (col : list cell) : list cell :=
  let n := Z.to_nat (k + 1) in
  repeat NaN (Nat.min n (List.length col)) ++ skipn n col.

(** The default index, 0 to n - 1 *)
Definition range_index (n : nat) : list cell :=
  map (fun i => Num (inject_Z (Z.of_nat i))) (seq 0 n).

(** [pd.DataFrame({...})] from four columns over an index, which must
    agree in length *)
Definition data_frame (idx time fcst lower upper : list cell)
  : result frame :=
  let n := List.length idx in
  if Nat.eqb (List.length time) n && Nat.eqb (List.length fcst) n
     && Nat.eqb (List.length lower) n && Nat.eqb (List.length upper) n
  then Ok {| index := idx;
             columns :=
               [ ("time", time); ("fcst", fcst);
                 ("fcst_lower", lower); ("fcst_upper", upper) ] |}
  else Raise (ValueError "All arrays must be of the same length").

Definition history_message : string :=
  "Error when getting prediction interval from statsmodels SARIMA API".

(** [self.y_fcst_lower] *)
Definition read_attr (name : string) (a : option (list cell))
  : result (list cell) :=
  match a with
  | Some v => Ok v
  | None => Raise (AttributeError name)
  end.

(** [predict].  [data_time] is [self.data.time], [dates] is [self.dates]
    (the future time stamps), [fc] and [hist] are what the fitted
    statsmodels model returns, [attrs] the bounds a former call may have
    left.  Returns [self.fcst_df] and the bounds attributes. *)
Definition predict (ps : SARIMAParams) (data_time dates : list cell)
    (fc : forecast_results) (hist : history_results) (attrs : bounds_attrs)
    (include_history : bool) : result (frame * bounds_attrs) :=
  let y_fcst := predicted_mean fc in
  let attrs :=
    if cell_ltb (fst (ci_first fc)) (snd (ci_first fc))
    then {| y_fcst_lower := Some (map fst (conf_int fc));
            y_fcst_upper := Some (map snd (conf_int fc)) |}
    else attrs in
  if include_history then
    if PyStr.contains "lower" (fst (ci_names hist))
       && PyStr.contains "upper" (snd (ci_names hist))
    then
      lower <- read_attr "y_fcst_lower" (y_fcst_lower attrs) ;;
      upper <- read_attr "y_fcst_upper" (y_fcst_upper attrs) ;;
      df <- data_frame (range_index (List.length (data_time ++ dates)))
              (data_time ++ dates)
              (history_mean hist ++ y_fcst)
              (map fst (history_ci hist) ++ lower)
              (map snd (history_ci hist) ++ upper) ;;
      let k := invalid_rows ps in
      Ok ({| index := index df;
             columns :=
               [ ("time", data_time ++ dates);
                 ("fcst", blank_rows k (history_mean hist ++ y_fcst));
                 ("fcst_lower",
                  blank_rows k (map fst (history_ci hist) ++ lower));
                 ("fcst_upper",
                  blank_rows k (map snd (history_ci hist) ++ upper)) ] |},
          attrs)
    else Raise (ValueError history_message)
  else
    lower <- read_attr "y_fcst_lower" (y_fcst_lower attrs) ;;
    upper <- read_attr "y_fcst_upper" (y_fcst_upper attrs) ;;
    df <- data_frame (mean_index fc) dates y_fcst lower upper ;;
    Ok (df, attrs).




(** X24. Without history [SARIMAModel.predict] returns the future time
    stamps, the predicted mean and the two sides of the confidence
    interval, and remembers the bounds, when the first interval has its
    lower side below its upper side.  When it has not (or a side is
    not-a-number) the bounds are not assigned, and on a model that never
    had them the call raises an attribute error, with history as
    without. *)
Theorem predict_interval_guard (ps : SARIMAParams)
    (data_time dates : list cell) (fc : forecast_results)
    (hist : history_results) (attrs : bounds_attrs) :
  List.length (mean_index fc) = List.length dates ->
  List.length (predicted_mean fc) = List.length dates ->
  List.length (conf_int fc) = List.length dates ->
  (cell_ltb (fst (ci_first fc)) (snd (ci_first fc)) = true ->
   predict ps data_time dates fc hist attrs false
   = Ok ({| index := mean_index fc;
            columns :=
              [ ("time", dates);
                ("fcst", predicted_mean fc);
                ("fcst_lower", map fst (conf_int fc));
                ("fcst_upper", map snd (conf_int fc)) ] |},
         {| y_fcst_lower := Some (map fst (conf_int fc));
            y_fcst_upper := Some (map snd (conf_int fc)) |}))
  /\ (cell_ltb (fst (ci_first fc)) (snd (ci_first fc)) = false ->
      y_fcst_lower attrs = None ->
      predict ps data_time dates fc hist attrs false
      = Raise (AttributeError "y_fcst_lower")
      /\ (PyStr.contains "lower" (fst (ci_names hist)) = true ->
          PyStr.contains "upper" (snd (ci_names hist)) = true ->
          predict ps data_time dates fc hist attrs true
          = Raise (AttributeError "y_fcst_lower"))).
Proof.
  intros Hi Hp Hc. split.
  - intros Hci. unfold predict. rewrite Hci.
    cbn [y_fcst_lower y_fcst_upper read_attr bind].
    unfold data_frame. rewrite !length_map, Hi, Hp, Hc, !Nat.eqb_refl.
    reflexivity.
  - intros Hci Hn. unfold predict. rewrite Hci, Hn. split; [reflexivity|].
    intros -> ->. reflexivity.
Qed.

(** An ARIMA(1,1,1) model without seasonal part, five observations and
    two steps. *)
Definition example_params : SARIMAParams :=
  {| p := 1; d := 1; q := 1; seasonal_order := (0, 0, 0, 0) |}.

Definition example_forecast : forecast_results :=
  {| mean_index := [Num 5; Num 6];
     predicted_mean := [Num 10; Num 11];
     ci_first := (Num 8, Num 12);
     ci_rest := [(Num 8, Num 14)] |}.

Definition example_history : history_results :=
  {| history_mean := [Num 0; Num 1; Num 2; Num 3; Num 4];
     ci_names := ("lower y", "upper y");
     history_ci :=
       [ (Num (-9), Num 9); (Num 0, Num 2); (Num 1, Num 3);
         (Num 2, Num 4); (Num 3, Num 5) ] |}.

Definition example_unset : bounds_attrs :=
  {| y_fcst_lower := None; y_fcst_upper := None |}.


(** Rows 0, 1 and 2 are blanked for k = 2. *)
Example predict_with_history_rows :
  exists df attrs',
    predict example_params [Num 101; Num 102; Num 103; Num 104; Num 105]
      [Num 106; Num 107] example_forecast example_history example_unset true
    = Ok (df, attrs')
    /\ get (columns df) "fcst"
       = Some [NaN; NaN; NaN; Num 3; Num 4; Num 10; Num 11].
Proof. eexists. eexists. split; reflexivity. Qed.

Lemma predict_interval_guard_witness :
  (cell_ltb (fst (ci_first example_forecast))
     (snd (ci_first example_forecast)) = true ->
   predict example_params [Num 101] [Num 106; Num 107] example_forecast
     example_history example_unset false
   = Ok ({| index := mean_index example_forecast;
            columns :=
              [ ("time", [Num 106; Num 107]);
                ("fcst", predicted_mean example_forecast);
                ("fcst_lower", map fst (conf_int example_forecast));
                ("fcst_upper", map snd (conf_int example_forecast)) ] |},
         {| y_fcst_lower := Some (map fst (conf_int example_forecast));
            y_fcst_upper := Some (map snd (conf_int example_forecast)) |}))
  /\ (cell_ltb (fst (ci_first example_forecast))
        (snd (ci_first example_forecast)) = false ->
      y_fcst_lower example_unset = None ->
      predict example_params [Num 101] [Num 106; Num 107] example_forecast
        example_history example_unset false
      = Raise (AttributeError "y_fcst_lower")
      /\ (PyStr.contains "lower" (fst (ci_names example_history)) = true ->
          PyStr.contains "upper" (snd (ci_names example_history)) = true ->
          predict example_params [Num 101] [Num 106; Num 107]
            example_forecast example_history example_unset true
          = Raise (AttributeError "y_fcst_lower"))).
Proof.
  apply (@predict_interval_guard example_params [Num 101]
           [Num 106; Num 107] example_forecast example_history
           example_unset); reflexivity.
Defined.

End Sarima.
